(** * ichigeki.info entrance animation: a shallow embedding

    The development follows the three source modules:

    - [particles.ts]  : the particle velocity adapter
                        ([accelerateParticles], [resetParticles]);
    - [lightning.ts]  : the flash effect engine ([flashLightning],
                        [flickerLightning], [startAmbientLightning]);
    - [animation.ts]  : the orchestrator ([showContentImmediately],
                        [runEntranceAnimation], [stopAmbientLightning]).

    JavaScript numbers are IEEE-754 binary64 values ([spec_float] with
    precision 53); the DOM is a store of element objects addressed by
    handles; timers, closures and promises are made explicit: a closure is
    a constructor of [Callback] carrying its captured variables, a promise
    continuation is a [Kont], and the browser's event loop is the function
    [step]. *)

From Stdlib Require Import ZArith String List Bool Lia.
From Stdlib Require Import SpecFloat.
From stdpp Require Import base list.
Import ListNotations.

Open Scope string_scope.
Open Scope list_scope.
Open Scope Z_scope.

(* ===================================================================== *)
(** * JavaScript numbers *)
(* ===================================================================== *)

Module JSNumber.

Definition prec : Z := 53.
Definition emax : Z := 1024.

(** A JavaScript number: a binary64 floating-point value. *)
Definition num : Type := spec_float.

Definition of_Z (z : Z) : num := binary_normalize prec emax z 0 false.

Definition mul (a b : num) : num := SFmul prec emax a b.
Definition div (a b : num) : num := SFdiv prec emax a b.
Definition add (a b : num) : num := SFadd prec emax a b.
Definition sub (a b : num) : num := SFsub prec emax a b.

(** [a > b] *)
Definition gt (a b : num) : bool := SFltb b a.

(** Decimal literals of the source, rounded to nearest as the parser
    does: a correctly rounded quotient of two exactly representable
    integers. *)
Definition decimal (numerator denominator : Z) : num :=
  div (of_Z numerator) (of_Z denominator).

(** Truncation toward zero of a finite number. *)
Definition truncate (a : num) : Z :=
  match a with
  | S754_finite s m e =>
      let magnitude := Z.shiftl (Zpos m) e in
      if s then - magnitude else magnitude
  | _ => 0
  end.

(** The conversion a timer delay goes through: ToInt32 (truncate, wrap
    modulo 2^32 into the signed range; NaN and the infinities give 0),
    then negative delays are clamped to 0. *)
Definition to_delay (a : num) : Z :=
  let wrapped := (truncate a) mod 4294967296 in
  let signed := if 2147483648 <=? wrapped then wrapped - 4294967296 else wrapped in
  Z.max 0 signed.

End JSNumber.

Abbreviation num := JSNumber.num.

Arguments JSNumber.of_Z : simpl never.
Arguments JSNumber.mul : simpl never.
Arguments JSNumber.div : simpl never.
Arguments JSNumber.add : simpl never.
Arguments JSNumber.sub : simpl never.
Arguments JSNumber.gt : simpl never.
Arguments JSNumber.decimal : simpl never.
Arguments JSNumber.to_delay : simpl never.

(* ===================================================================== *)
(** * particles.ts: the data the adapter touches *)
(* ===================================================================== *)

(** A 2-D vector of the particle engine. *)
Record Vector := mkVector { vx : num; vy : num }.

(** A live particle.  [velocity] is tested for truthiness by the adapter,
    hence optional. *)
Record Particle := mkParticle {
  position : Vector;
  velocity : option Vector
}.

(** [options.particles.number.value]: the adapter only acts when
    [typeof value === "number"]. *)
Inductive NumberValue :=
| NumberLiteral (n : num)
| NumberOther.

Record ParticlesOptions := mkParticlesOptions {
  number : option NumberValue
}.

Record Options := mkOptions {
  optParticles : option ParticlesOptions
}.

(** The engine's container: the live particles and the options object. *)
Record Container := mkContainer {
  particles : list Particle;
  options : Options
}.

(** [velocity.x *= f; velocity.y *= f] on one particle of the snapshot. *)
Definition scale_velocity (op : num -> num) (p : Particle) : Particle :=
  match velocity p with
  | Some v => mkParticle (position p) (Some (mkVector (op (vx v)) (op (vy v))))
  | None => p
  end.

(** [if (options.particles?.number) { if (typeof value === "number") ... }] *)
Definition scale_number (op : num -> num) (o : Options) : Options :=
  match optParticles o with
  | Some po =>
      match number po with
      | Some (NumberLiteral n) =>
          mkOptions (Some (mkParticlesOptions (Some (NumberLiteral (op n)))))
      | Some NumberOther => o
      | None => o
      end
  | None => o
  end.

(** Body of [accelerateParticles] on a present container.
    [container.particles.filter(() => true)] selects every live particle. *)
Definition accelerate (c : Container) : Container :=
  mkContainer
    (map (scale_velocity (fun x => JSNumber.mul x (JSNumber.of_Z 3))) (particles c))
    (scale_number (fun n => JSNumber.mul n (JSNumber.decimal 3 2)) (options c)).

(** Body of [resetParticles] on a present container. *)
Definition reset (c : Container) : Container :=
  mkContainer
    (map (scale_velocity (fun x => JSNumber.div x (JSNumber.of_Z 3))) (particles c))
    (scale_number (fun n => JSNumber.div n (JSNumber.decimal 3 2)) (options c)).

(** What [tsParticles.load] does when [initParticles] awaits it. *)
Inductive InitOutcome :=
| InitContainer (c : Container)
| InitUndefined
| InitFails (error : string).

(* ===================================================================== *)
(** * The DOM *)
(* ===================================================================== *)

(** An element object: its id, its class list and the inline style
    properties the program writes.  [gsapScale] and [gsapY] are the
    animation library's per-element transform components (it renders them
    into the transform itself; that rendering is not modelled). *)
Record Element := mkElement {
  elId : string;
  classList : list string;
  display : string;
  opacity : string;
  transform : string;
  cssFilter : string;
  background : string;
  gsapScale : string;
  gsapY : string
}.

Definition set_classList (v : list string) (e : Element) : Element :=
  mkElement (elId e) v (display e) (opacity e) (transform e) (cssFilter e)
            (background e) (gsapScale e) (gsapY e).
Definition set_display (v : string) (e : Element) : Element :=
  mkElement (elId e) (classList e) v (opacity e) (transform e) (cssFilter e)
            (background e) (gsapScale e) (gsapY e).
Definition set_opacity (v : string) (e : Element) : Element :=
  mkElement (elId e) (classList e) (display e) v (transform e) (cssFilter e)
            (background e) (gsapScale e) (gsapY e).
Definition set_transform (v : string) (e : Element) : Element :=
  mkElement (elId e) (classList e) (display e) (opacity e) v (cssFilter e)
            (background e) (gsapScale e) (gsapY e).
Definition set_filter (v : string) (e : Element) : Element :=
  mkElement (elId e) (classList e) (display e) (opacity e) (transform e) v
            (background e) (gsapScale e) (gsapY e).
Definition set_background (v : string) (e : Element) : Element :=
  mkElement (elId e) (classList e) (display e) (opacity e) (transform e)
            (cssFilter e) v (gsapScale e) (gsapY e).
Definition set_gsapScale (v : string) (e : Element) : Element :=
  mkElement (elId e) (classList e) (display e) (opacity e) (transform e)
            (cssFilter e) (background e) v (gsapY e).
Definition set_gsapY (v : string) (e : Element) : Element :=
  mkElement (elId e) (classList e) (display e) (opacity e) (transform e)
            (cssFilter e) (background e) (gsapScale e) v.

Definition has_class (c : string) (e : Element) : bool :=
  existsb (String.eqb c) (classList e).

(** [element.classList.add(c)]: a token list holds a class once. *)
Definition classList_add (c : string) (e : Element) : Element :=
  if has_class c e then e else set_classList (classList e ++ [c]) e.

(** [element.classList.remove(c)] *)
Definition classList_remove (c : string) (e : Element) : Element :=
  set_classList (List.filter (fun x => negb (String.eqb c x)) (classList e)) e.

(** The document: its elements in document order, addressed by position
    (an element handle), and the handle of [document.body].  A handle the
    program gets from a lookup is in range; writes go through [alter],
    which leaves the store alone otherwise.  The body is not looked up:
    a document whose [body] designates no element is a document without
    a body, whose [document.body] is [null] (see [document_body]). *)
Record Document := mkDocument {
  nodes : list Element;
  body : nat
}.

Fixpoint find_index {A} (p : A -> bool) (l : list A) : option nat :=
  match l with
  | [] => None
  | x :: r => if p x then Some O else option_map S (find_index p r)
  end.

(** [document.getElementById(id)] *)
Definition getElementById (id : string) (d : Document) : option nat :=
  find_index (fun e => String.eqb (elId e) id) (nodes d).

(** [document.querySelector("." + cls)]: first match in document order. *)
Definition querySelector (cls : string) (d : Document) : option nat :=
  find_index (has_class cls) (nodes d).

Arguments getElementById : simpl never.
Arguments querySelector : simpl never.

Definition update_element (h : nat) (f : Element -> Element) (d : Document) : Document :=
  mkDocument (alter f h (nodes d)) (body d).
Arguments update_element : simpl never.

(** [document.body]: the body element, or [null] in a document that has
    none. *)
Definition document_body (d : Document) : option nat :=
  if Nat.ltb (body d) (length (nodes d)) then Some (body d) else None.
Arguments document_body : simpl never.

(* ===================================================================== *)
(** * Closures, promise continuations and timers *)
(* ===================================================================== *)

(** lightning.ts: [FlashIntensity] *)
Inductive FlashIntensity := subtle | medium | full.

(** lightning.ts: [IntensityConfig].  [peak] holds the number literal of
    the source as [String(config.opacity)] prints it. *)
Record IntensityConfig := mkIntensityConfig {
  duration : Z;
  peak : string;
  blueTint : bool
}.

Definition INTENSITY_CONFIG (i : FlashIntensity) : IntensityConfig :=
  match i with
  | subtle => mkIntensityConfig 50 "0.3" false
  | medium => mkIntensityConfig 100 "0.6" false
  | full => mkIntensityConfig 150 "0.9" true
  end.

(** The program points of [flickerLightning] at which it is suspended on
    an [await delay(..)]. *)
Inductive FlickerPoint :=
| FirstFlashOn      (* await delay(40), opacity 0.5 *)
| FirstFlashOff     (* await delay(60) *)
| SecondFlashOn     (* await delay(50), opacity 0.7 *)
| SecondFlashOff    (* await delay(80) *)
| ThirdFlashGap     (* await delay(40) inside the random branch *)
| ThirdFlashOn      (* await delay(30), opacity 0.3 *)
| Settling.         (* await delay(50) *)

(** What runs when a promise resolves.
    - [KDiscard]: nobody observes the promise (the timeline's calls);
    - [KProbe tag]: an observer that records the resolution in the trace
      (a caller that awaits the promise);
    - [KScheduleNext]: [.then(() => { scheduleNext(); })] of the ambient
      loop, for the session and overlay of its closure;
    - [KFlicker]: the rest of the async function [flickerLightning] after
      one of its awaits, and the continuation of its own promise. *)
Inductive Kont :=
| KDiscard
| KProbe (tag : string)
| KScheduleNext (session overlay : nat)
| KFlicker (point : FlickerPoint) (overlay : nat) (k : Kont).

(** What a tween writes when it ends, and its [onComplete]. *)
Record TweenVars := mkTweenVars {
  toOpacity : option string;
  toScale : option string;
  toY : option string;
  toFilter : option string
}.

Inductive OnComplete :=
| NoOnComplete
| HideElement (el : nat)           (* loading.style.display = "none" *)
| MarkRevealed (el : nat).         (* el.classList.add("revealed") *)

(** Every function value the program hands to a timer, to the animation
    frame queue or to the timeline, with the variables it closes over. *)
Inductive Callback :=
(* animation.ts, trigger helpers *)
| CbRemoveClass (el : nat) (cls : string)
| CbSlashDone (slashLine : nat)
| CbDelayedGlitch (title : nat)                   (* () => triggerGlitch(title, 100) *)
| CbGlitchInterval (title : nat)                  (* the setInterval body *)
(* lightning.ts *)
| CbFlashOff (overlay : nat) (i : FlashIntensity) (k : Kont)
| CbResolve (k : Kont)                            (* setTimeout(resolve, ms) *)
| CbAmbientTimeout (session overlay : nat)
| CbAmbientFrame (session overlay : nat)
(* animation library *)
| CbTweenEnd (target : option nat) (vars : TweenVars) (done : OnComplete)
(* animation.ts, the timeline's callbacks *)
| TlAccelerate (handle : option nat)
| TlFlicker (overlay : nat)
| TlGlitch (title : nat) (ms : Z)
| TlFlash (overlay : nat) (i : FlashIntensity)
| TlSlash (slashLine : option nat)
| TlBurst (burstOverlay : option nat)
| TlShake (ms : Z)
| TlReset (handle : option nat)
| TlGlowPulse (title : nat)
| TlSecondSlash (slashLine : option nat)
| TlExtraGlitch (title : nat)
| TlAmbient (overlay title : nat)
| TlComplete (k : Kont).

Record Timer := mkTimer {
  timerId : nat;
  due : Z;
  period : option Z;      (* [Some p] for setInterval *)
  callback : Callback
}.

(** lightning.ts: the variables [isRunning] and [timeoutId] that the
    closures of one [startAmbientLightning] call share. *)
Record AmbientSession := mkAmbientSession {
  isRunning : bool;
  timeoutId : option nat
}.

(** lightning.ts / animation.ts: an [AmbientCleanup] function value. *)
Inductive AmbientCleanup :=
| StopSession (session overlay : nat)                 (* returned by startAmbientLightning *)
| StopWithInterval (original : AmbientCleanup) (glitchInterval : nat).

(** Effect invocations, kept in a trace that no code reads (it only
    serves to state which effects were issued and when). *)
Inductive Event :=
| EvFlash (overlay : nat) (i : FlashIntensity)
| EvFlicker (overlay : nat)
| EvShake (el : nat) (ms : Z)
| EvSlash (el : nat)
| EvBurst (el : nat)
| EvGlitch (el : nat) (ms : Z)
| EvAmbientEffect (session : nat)     (* an ambient session fires an effect *)
| EvResolved (tag : string).

(* ===================================================================== *)
(** * The world *)
(* ===================================================================== *)

Record World := mkWorld {
  document : Document;
  reducedMotion : bool;     (* matchMedia("(prefers-reduced-motion: reduce)").matches *)
  now : Z;                  (* the clock, in milliseconds *)
  nextTimer : nat;          (* next timer id *)
  timers : list Timer;      (* pending timers, in registration order *)
  random : nat -> num;      (* the values Math.random() will return *)
  randomPos : nat;
  console : list string;
  initOutcome : InitOutcome;
  containers : list Container;        (* particle containers, by handle *)
  sessions : list AmbientSession;     (* ambient sessions, by handle *)
  ambientCleanup : option AmbientCleanup;   (* animation.ts: the module variable *)
  trace : list (Z * Event)
}.

Definition with_document (v : Document) (w : World) : World :=
  mkWorld v (reducedMotion w) (now w) (nextTimer w) (timers w) (random w)
          (randomPos w) (console w) (initOutcome w) (containers w) (sessions w)
          (ambientCleanup w) (trace w).
Definition with_reducedMotion (v : bool) (w : World) : World :=
  mkWorld (document w) v (now w) (nextTimer w) (timers w) (random w)
          (randomPos w) (console w) (initOutcome w) (containers w) (sessions w)
          (ambientCleanup w) (trace w).
Definition with_now (v : Z) (w : World) : World :=
  mkWorld (document w) (reducedMotion w) v (nextTimer w) (timers w) (random w)
          (randomPos w) (console w) (initOutcome w) (containers w) (sessions w)
          (ambientCleanup w) (trace w).
Definition with_nextTimer (v : nat) (w : World) : World :=
  mkWorld (document w) (reducedMotion w) (now w) v (timers w) (random w)
          (randomPos w) (console w) (initOutcome w) (containers w) (sessions w)
          (ambientCleanup w) (trace w).
Definition with_timers (v : list Timer) (w : World) : World :=
  mkWorld (document w) (reducedMotion w) (now w) (nextTimer w) v (random w)
          (randomPos w) (console w) (initOutcome w) (containers w) (sessions w)
          (ambientCleanup w) (trace w).
Definition with_randomPos (v : nat) (w : World) : World :=
  mkWorld (document w) (reducedMotion w) (now w) (nextTimer w) (timers w) (random w)
          v (console w) (initOutcome w) (containers w) (sessions w)
          (ambientCleanup w) (trace w).
Definition with_console (v : list string) (w : World) : World :=
  mkWorld (document w) (reducedMotion w) (now w) (nextTimer w) (timers w) (random w)
          (randomPos w) v (initOutcome w) (containers w) (sessions w)
          (ambientCleanup w) (trace w).
Definition with_initOutcome (v : InitOutcome) (w : World) : World :=
  mkWorld (document w) (reducedMotion w) (now w) (nextTimer w) (timers w) (random w)
          (randomPos w) (console w) v (containers w) (sessions w)
          (ambientCleanup w) (trace w).
Definition with_containers (v : list Container) (w : World) : World :=
  mkWorld (document w) (reducedMotion w) (now w) (nextTimer w) (timers w) (random w)
          (randomPos w) (console w) (initOutcome w) v (sessions w)
          (ambientCleanup w) (trace w).
Definition with_sessions (v : list AmbientSession) (w : World) : World :=
  mkWorld (document w) (reducedMotion w) (now w) (nextTimer w) (timers w) (random w)
          (randomPos w) (console w) (initOutcome w) (containers w) v
          (ambientCleanup w) (trace w).
Definition with_ambientCleanup (v : option AmbientCleanup) (w : World) : World :=
  mkWorld (document w) (reducedMotion w) (now w) (nextTimer w) (timers w) (random w)
          (randomPos w) (console w) (initOutcome w) (containers w) (sessions w)
          v (trace w).
Definition with_trace (v : list (Z * Event)) (w : World) : World :=
  mkWorld (document w) (reducedMotion w) (now w) (nextTimer w) (timers w) (random w)
          (randomPos w) (console w) (initOutcome w) (containers w) (sessions w)
          (ambientCleanup w) v.

(* ===================================================================== *)
(** * Computations: state and exceptions *)
(* ===================================================================== *)

(** How a piece of JavaScript ends: it returns, or it throws. *)
Inductive Completion (A : Type) :=
| Returned (a : A) (w : World)
| Thrown (error : string) (w : World).
Arguments Returned {A} a w.
Arguments Thrown {A} error w.

Definition JS (A : Type) : Type := World -> Completion A.

Definition ret {A} (a : A) : JS A := fun w => Returned a w.

Definition bind {A B} (m : JS A) (f : A -> JS B) : JS B :=
  fun w =>
    match m w with
    | Returned a w' => f a w'
    | Thrown e w' => Thrown e w'
    end.

Definition throw {A} (e : string) : JS A := fun w => Thrown e w.

(** [try { m } catch (error) { handler error }] *)
Definition try_catch {A} (m : JS A) (handler : string -> JS A) : JS A :=
  fun w =>
    match m w with
    | Returned a w' => Returned a w'
    | Thrown e w' => handler e w'
    end.

Definition gets {A} (f : World -> A) : JS A := fun w => Returned (f w) w.
Definition modify (f : World -> World) : JS unit := fun w => Returned tt (f w).

Declare Scope js_scope.
Delimit Scope js_scope with js.
Notation "'let*' x ':=' m 'in' k" := (bind m (fun x => k))
  (at level 10, x name, m at level 100, k at level 200) : js_scope.
Notation "m ';;' k" := (bind m (fun _ => k))
  (at level 100, k at level 200, right associativity, only parsing) : js_scope.
Open Scope js_scope.

(** The final world of a completion. *)
Definition world_of {A} (c : Completion A) : World :=
  match c with
  | Returned _ w => w
  | Thrown _ w => w
  end.

(** The final world of a completion that returned. *)
Definition returned {A} (c : Completion A) : option World :=
  match c with
  | Returned _ w => Some w
  | Thrown _ _ => None
  end.

(* ===================================================================== *)
(** * Host operations *)
(* ===================================================================== *)

(** Assignment to a property of an element object. *)
Definition write (h : nat) (f : Element -> Element) : JS unit :=
  modify (fun w => with_document (update_element h f (document w)) w).

Definition record (e : Event) : JS unit :=
  modify (fun w => with_trace (trace w ++ [(now w, e)]) w).

(** [console.warn(..)] *)
Definition console_warn (msg : string) : JS unit :=
  modify (fun w => with_console (console w ++ [msg]) w).

(** [Math.random()] *)
Definition Math_random : JS num :=
  fun w => Returned (random w (randomPos w)) (with_randomPos (S (randomPos w)) w).

(** Registration of a timer; returns its id. *)
Definition add_timer (p : option Z) (cb : Callback) (ms : Z) : JS nat :=
  fun w =>
    let id := nextTimer w in
    Returned id
      (with_timers (timers w ++ [mkTimer id (now w + ms) p cb])
         (with_nextTimer (S id) w)).

(** [setTimeout(cb, ms)] *)
Definition setTimeout (cb : Callback) (ms : Z) : JS nat := add_timer None cb ms.

(** [setInterval(cb, ms)] *)
Definition setInterval (cb : Callback) (ms : Z) : JS nat := add_timer (Some ms) cb ms.

(** Nominal length of an animation frame, in milliseconds. *)
Definition FRAME : Z := 16.

(** [requestAnimationFrame(cb)]: the callback runs with the next frame. *)
Definition requestAnimationFrame (cb : Callback) : JS nat := add_timer None cb FRAME.

(** [clearTimeout(id)] and [clearInterval(id)]: an id that is not pending
    is ignored. *)
Definition clearTimeout (id : nat) : JS unit :=
  modify (fun w =>
    with_timers (List.filter (fun t => negb (Nat.eqb (timerId t) id)) (timers w)) w).

Definition clearInterval (id : nat) : JS unit := clearTimeout id.

(* ===================================================================== *)
(** * lightning.ts *)
(* ===================================================================== *)

Definition AMBIENT_MIN_INTERVAL : num := JSNumber.of_Z 8000.
Definition AMBIENT_MAX_INTERVAL : num := JSNumber.of_Z 12000.

Definition prefersReducedMotion : JS bool := gets reducedMotion.

(** [delay(ms)] awaited with continuation [k]:
    [new Promise((resolve) => setTimeout(resolve, ms))]. *)
Definition delay (ms : Z) (k : Kont) : JS unit :=
  let* _ := setTimeout (CbResolve k) ms in ret tt.

Definition BLUE_TINT : string :=
  "linear-gradient(180deg, rgba(100, 149, 237, 0.3) 0%, rgba(255, 255, 255, 0.9) 50%, rgba(100, 149, 237, 0.3) 100%)".

Definition applyBlueTint (overlay : nat) : JS unit :=
  write overlay (set_background BLUE_TINT).

Definition removeBlueTint (overlay : nat) : JS unit :=
  write overlay (set_background "").

(** Reading and writing the variables of session [s].  The closures only
    hold the handle their own [startAmbientLightning] call allocated, so
    the lookup succeeds; the default covers no run of the program. *)
Definition session_running (s : nat) (w : World) : bool :=
  match sessions w !! s with
  | Some x => isRunning x
  | None => false
  end.

Definition session_timeout (s : nat) (w : World) : option nat :=
  match sessions w !! s with
  | Some x => timeoutId x
  | None => None
  end.

Definition update_session (s : nat) (f : AmbientSession -> AmbientSession) : JS unit :=
  modify (fun w => with_sessions (alter f s (sessions w)) w).

(** [getRandomInterval()] of [startAmbientLightning] *)
Definition getRandomInterval : JS num :=
  let* r := Math_random in
  ret (JSNumber.add AMBIENT_MIN_INTERVAL
         (JSNumber.mul r (JSNumber.sub AMBIENT_MAX_INTERVAL AMBIENT_MIN_INTERVAL))).

(** [scheduleNext()] of the session [s] started on [overlay]. *)
Definition scheduleNext (s overlay : nat) : JS unit :=
  let* running := gets (session_running s) in
  if negb running then ret tt
  else
    let* interval := getRandomInterval in
    let* id := setTimeout (CbAmbientTimeout s overlay) (JSNumber.to_delay interval) in
    update_session s (fun x => mkAmbientSession (isRunning x) (Some id)).

(** Running a promise continuation.  For [KFlicker] this is the body of
    [flickerLightning] from the given await up to the next one. *)
Fixpoint resume (k : Kont) : JS unit :=
  match k with
  | KDiscard => ret tt
  | KProbe tag => record (EvResolved tag)
  | KScheduleNext s overlay => scheduleNext s overlay
  | KFlicker point overlay k' =>
      match point with
      | FirstFlashOn =>
          write overlay (set_opacity "0") ;;
          delay 60 (KFlicker FirstFlashOff overlay k')
      | FirstFlashOff =>
          write overlay (set_opacity "0.7") ;;
          delay 50 (KFlicker SecondFlashOn overlay k')
      | SecondFlashOn =>
          write overlay (set_opacity "0") ;;
          delay 80 (KFlicker SecondFlashOff overlay k')
      | SecondFlashOff =>
          let* r := Math_random in
          if JSNumber.gt r (JSNumber.decimal 1 2)
          then delay 40 (KFlicker ThirdFlashGap overlay k')
          else delay 50 (KFlicker Settling overlay k')
      | ThirdFlashGap =>
          write overlay (set_opacity "0.3") ;;
          delay 30 (KFlicker ThirdFlashOn overlay k')
      | ThirdFlashOn =>
          write overlay (set_opacity "0") ;;
          delay 50 (KFlicker Settling overlay k')
      | Settling => resume k'
      end
  end.

(** [flashLightning(overlay, intensity)], its promise continued by [k]. *)
Definition flashLightning (overlay : nat) (intensity : FlashIntensity) (k : Kont) : JS unit :=
  record (EvFlash overlay intensity) ;;
  let* reduced := prefersReducedMotion in
  if reduced then resume k
  else
    let config := INTENSITY_CONFIG intensity in
    (if blueTint config then applyBlueTint overlay else ret tt) ;;
    write overlay (set_opacity (peak config)) ;;
    let* _ := setTimeout (CbFlashOff overlay intensity k) (duration config) in
    ret tt.

(** The callback [flashLightning] hands to [setTimeout]. *)
Definition flash_off (overlay : nat) (intensity : FlashIntensity) (k : Kont) : JS unit :=
  let config := INTENSITY_CONFIG intensity in
  write overlay (set_opacity "0") ;;
  (if blueTint config then removeBlueTint overlay else ret tt) ;;
  let* _ := setTimeout (CbResolve k) 50 in
  ret tt.

(** [flickerLightning(overlay)], its promise continued by [k]. *)
Definition flickerLightning (overlay : nat) (k : Kont) : JS unit :=
  record (EvFlicker overlay) ;;
  let* reduced := prefersReducedMotion in
  if reduced then resume k
  else
    write overlay (set_opacity "0.5") ;;
    delay 40 (KFlicker FirstFlashOn overlay k).

(** The callback [scheduleNext] hands to [window.setTimeout]. *)
Definition ambient_timeout (s overlay : nat) : JS unit :=
  let* running := gets (session_running s) in
  if negb running then ret tt
  else
    let* _ := requestAnimationFrame (CbAmbientFrame s overlay) in
    ret tt.

(** The callback handed to [requestAnimationFrame]. *)
Definition ambient_frame (s overlay : nat) : JS unit :=
  let* running := gets (session_running s) in
  if negb running then ret tt
  else
    let* r := Math_random in
    let useFlicker := JSNumber.gt r (JSNumber.decimal 7 10) in
    record (EvAmbientEffect s) ;;
    if useFlicker
    then flickerLightning overlay (KScheduleNext s overlay)
    else flashLightning overlay subtle (KScheduleNext s overlay).

(** [startAmbientLightning(overlay)]: allocates the session variables,
    starts the cycle and returns the cleanup closure. *)
Definition startAmbientLightning (overlay : nat) : JS AmbientCleanup :=
  let* s := (fun w => Returned (length (sessions w))
                        (with_sessions (sessions w ++ [mkAmbientSession true None]) w)) in
  scheduleNext s overlay ;;
  ret (StopSession s overlay).

(** The cleanup closure returned by [startAmbientLightning]. *)
Definition stop_session (s overlay : nat) : JS unit :=
  update_session s (fun x => mkAmbientSession false (timeoutId x)) ;;
  let* pending := gets (session_timeout s) in
  match pending with
  | Some id =>
      clearTimeout id ;;
      update_session s (fun x => mkAmbientSession (isRunning x) None)
  | None => ret tt
  end ;;
  write overlay (set_opacity "0") ;;
  removeBlueTint overlay.

(* ===================================================================== *)
(** * particles.ts: the exported functions *)
(* ===================================================================== *)

(** [initParticles(containerId)]: awaits the engine, whose outcome is
    part of the world; a loaded container is stored and its handle
    returned.  The time the engine takes is not modelled: the awaits of
    [initParticles] and of its caller complete within the call, so that
    on a page with the particle host the call stands for the call
    together with its continuation after the engine's answer, and its
    instant for the instant of that answer.  The statements about the
    initial states and about the time from the call to an effect are
    made for pages without the host, where nothing is awaited. *)
Definition initParticles (containerId : string) : JS (option nat) :=
  let* outcome := gets initOutcome in
  match outcome with
  | InitContainer c =>
      fun w => Returned (Some (length (containers w)))
                 (with_containers (containers w ++ [c]) w)
  | InitUndefined => ret None
  | InitFails error => throw error
  end.

(** In-place mutation of the container behind handle [h] (a handle comes
    from [initParticles], so it is in range). *)
Definition update_container (h : nat) (f : Container -> Container) : JS unit :=
  modify (fun w => with_containers (alter f h (containers w)) w).

(** [accelerateParticles(container)] *)
Definition accelerateParticles (container : option nat) : JS unit :=
  match container with
  | None => ret tt                                (* if (!container) return; *)
  | Some h => update_container h accelerate
  end.

(** [resetParticles(container)] *)
Definition resetParticles (container : option nat) : JS unit :=
  match container with
  | None => ret tt
  | Some h => update_container h reset
  end.

(* ===================================================================== *)
(** * The animation library: tweens and the timeline *)
(* ===================================================================== *)

Definition apply_opt (f : string -> Element -> Element) (v : option string)
  (e : Element) : Element :=
  match v with
  | Some x => f x e
  | None => e
  end.

Definition apply_vars (vars : TweenVars) (e : Element) : Element :=
  apply_opt set_filter (toFilter vars)
    (apply_opt set_gsapY (toY vars)
       (apply_opt set_gsapScale (toScale vars)
          (apply_opt set_opacity (toOpacity vars) e))).

(** Modelled from the spec: [gsap.set(target, vars)] of the animation
    library, which is not among the sources ("snapshot initial hidden
    states"): the values are written at once. *)
Definition gsap_set (target : nat) (vars : TweenVars) : JS unit :=
  write target (apply_vars vars).

(** Modelled from the spec: [gsap.to(target, { ...vars, duration,
    onComplete })] of the animation library ("fade ... and mark it
    revealed on completion"): the end values are reached, and
    [onComplete] runs, [ms] milliseconds later (the frames in between are
    not modelled). *)
Definition gsap_to (target : nat) (vars : TweenVars) (ms : Z) (done : OnComplete) : JS unit :=
  let* _ := add_timer None (CbTweenEnd (Some target) vars done) ms in ret tt.

(** The position parameter of a timeline child: none, ["+=x"], ["<"]. *)
Inductive Position :=
| AtEnd
| After (ms : Z)
| WithPrevious.

(** A child as the source adds it: [tl.to(target, vars, position)] or
    [tl.add(callback, position)]. *)
Inductive TimelineStep :=
| Tween (target : option nat) (vars : TweenVars) (ms : Z) (done : OnComplete) (at_ : Position)
| Call (cb : Callback) (at_ : Position).

(** A placed child: when it starts, when it ends, and what the timeline
    runs for it (a callback at its start, a tween's end at its end). *)
Record Child := mkChild {
  childStart : Z;
  childEnd : Z;
  fires : Callback
}.

Definition step_position (s : TimelineStep) : Position :=
  match s with
  | Tween _ _ _ _ p => p
  | Call _ p => p
  end.

(** Modelled from the spec: the timeline mechanism of the animation
    library, which is not among the sources.  A step is either sequential
    ("[+=delay] after previous completes"; no position is a delay of 0) or
    overlapping ("[<], at the same time as the prior step began"). *)
Definition resolve_position (p : Position) (previous : option Child) : Z :=
  match previous, p with
  | None, AtEnd => 0
  | None, After ms => ms
  | None, WithPrevious => 0
  | Some c, AtEnd => childEnd c
  | Some c, After ms => childEnd c + ms
  | Some c, WithPrevious => childStart c
  end.

Definition place_step (previous : option Child) (s : TimelineStep) : Child :=
  let start := resolve_position (step_position s) previous in
  match s with
  | Tween target vars ms done _ => mkChild start (start + ms) (CbTweenEnd target vars done)
  | Call cb _ => mkChild start start cb
  end.

Fixpoint place_steps (previous : option Child) (l : list TimelineStep) : list Child :=
  match l with
  | [] => []
  | s :: r => let c := place_step previous s in c :: place_steps (Some c) r
  end.

(** The duration of a timeline: the latest end among its children. *)
Definition total_duration (l : list Child) : Z :=
  fold_right (fun c acc => Z.max (childEnd c) acc) 0 l.

Fixpoint register_children (l : list Child) : JS unit :=
  match l with
  | [] => ret tt
  | c :: r =>
      let* _ := add_timer None (fires c) (childEnd c) in
      register_children r
  end.

(** Modelled from the spec: a timeline built from [steps] plays from the
    moment it is created; each child fires when the timeline's clock
    reaches it, children of one instant in the order they were added, and
    the [onComplete] event callback when the clock reaches the end. *)
Definition play_timeline (steps : list TimelineStep) (onComplete : Callback) : JS unit :=
  let children := place_steps None steps in
  register_children children ;;
  let* _ := add_timer None onComplete (total_duration children) in
  ret tt.

(* ===================================================================== *)
(** * animation.ts *)
(* ===================================================================== *)

(** [PHASE_DURATIONS], in milliseconds. *)
Definition PHASE_darkness : Z := 800.
Definition PHASE_anticipation : Z := 1200.
Definition PHASE_impact : Z := 400.
Definition PHASE_settle : Z := 2000.

Definition triggerShake (element : nat) (ms : Z) : JS unit :=
  record (EvShake element ms) ;;
  write element (classList_add "shake") ;;
  let* _ := setTimeout (CbRemoveClass element "shake") ms in ret tt.

Definition triggerSlash (slashLine : nat) : JS unit :=
  record (EvSlash slashLine) ;;
  write slashLine (classList_add "animate") ;;
  let* _ := setTimeout (CbSlashDone slashLine) 300 in ret tt.

Definition triggerBurst (burstOverlay : nat) : JS unit :=
  record (EvBurst burstOverlay) ;;
  write burstOverlay (classList_add "burst-animate") ;;
  let* _ := setTimeout (CbRemoveClass burstOverlay "burst-animate") 600 in ret tt.

Definition triggerGlitch (title : nat) (ms : Z) : JS unit :=
  record (EvGlitch title ms) ;;
  write title (classList_add "glitch") ;;
  let* _ := setTimeout (CbRemoveClass title "glitch") ms in ret tt.

Definition when_present (o : option nat) (f : nat -> JS unit) : JS unit :=
  match o with
  | Some h => f h
  | None => ret tt
  end.

(** [showContentImmediately()] *)
Definition showContentImmediately : JS unit :=
  let* loading := gets (fun w => getElementById "loading" (document w)) in
  let* content := gets (fun w => getElementById "content" (document w)) in
  let* title := gets (fun w => querySelector "title" (document w)) in
  let* tagline := gets (fun w => querySelector "tagline" (document w)) in
  let* comingSoon := gets (fun w => querySelector "coming-soon" (document w)) in
  when_present loading (fun h => write h (set_display "none")) ;;
  when_present content (fun h =>
    write h (classList_remove "hidden") ;;
    write h (set_opacity "1")) ;;
  when_present title (fun h =>
    write h (set_opacity "1") ;;
    write h (set_transform "scale(1)") ;;
    write h (set_filter "blur(0px)")) ;;
  when_present tagline (fun h =>
    write h (set_opacity "1") ;;
    write h (set_transform "translateY(0)")) ;;
  when_present comingSoon (fun h => write h (set_opacity "1")).

Definition no_vars : TweenVars := mkTweenVars None None None None.

(** The children [runEntranceAnimation] adds to its timeline, in source
    order, for the elements and the particle handle it holds. *)
Definition entrance_steps (title tagline comingSoon lightningOverlay : nat)
  (slashLine burstOverlay particles : option nat) : list TimelineStep :=
  [ (* darkness *)
    Tween None no_vars PHASE_darkness NoOnComplete AtEnd;
    (* anticipation *)
    Call (TlAccelerate particles) AtEnd;
    Call (TlFlicker lightningOverlay) (After 200);
    Call (TlGlitch title 150) (After 300);
    Call (TlFlash lightningOverlay medium) (After 200);
    Call (TlGlitch title 100) (After 100);
    Call (TlFlicker lightningOverlay) (After 200);
    (* impact *)
    Call (TlFlash lightningOverlay full) AtEnd;
    Call (TlSlash slashLine) WithPrevious;
    Call (TlBurst burstOverlay) WithPrevious;
    Call (TlShake 500) WithPrevious;
    Call (TlGlitch title 200) WithPrevious;
    Tween (Some title)
      (mkTweenVars (Some "1") (Some "1") None (Some "blur(0px)"))
      PHASE_impact NoOnComplete WithPrevious;
    (* settle *)
    Call (TlReset particles) AtEnd;
    Call (TlGlowPulse title) AtEnd;
    Call (TlSecondSlash slashLine) (After 300);
    Tween (Some tagline)
      (mkTweenVars (Some "1") None (Some "0") None)
      600 (MarkRevealed tagline) (After 200);
    Tween (Some comingSoon)
      (mkTweenVars (Some "1") (Some "1") None None)
      500 (MarkRevealed comingSoon) (After 300);
    Call (TlExtraGlitch title) AtEnd;
    (* ambient *)
    Call (TlAmbient lightningOverlay title) AtEnd ].

(** The part of [runEntranceAnimation] after the required elements were
    found. *)
Definition animate (k : Kont) (loading : option nat)
  (content title tagline comingSoon lightningOverlay : nat)
  (slashOverlay slashLine burstOverlay particlesContainer : option nat) : JS unit :=
  (* Initialize particles *)
  let* particles :=
    match particlesContainer with
    | Some _ =>
        try_catch (initParticles "particles")
          (fun error =>
             console_warn (String.append "Animation: Failed to initialize particles " error) ;;
             ret None)
    | None => ret None
    end in
  (* Hide loading screen with fade *)
  when_present loading (fun h =>
    gsap_to h (mkTweenVars (Some "0") None None None) 300 (HideElement h)) ;;
  (* Prepare content *)
  write content (classList_remove "hidden") ;;
  write content (set_opacity "1") ;;
  (* Initial states *)
  gsap_set title (mkTweenVars (Some "0") (Some "1.5") None (Some "blur(20px)")) ;;
  gsap_set tagline (mkTweenVars (Some "0") None (Some "30") None) ;;
  gsap_set comingSoon (mkTweenVars (Some "0") (Some "0.8") None None) ;;
  when_present slashOverlay (fun h => write h (set_opacity "1")) ;;
  (* Timeline; the promise resolves on its onComplete *)
  play_timeline
    (entrance_steps title tagline comingSoon lightningOverlay
       slashLine burstOverlay particles)
    (TlComplete k).

(** [runEntranceAnimation()], its promise continued by [k]; a [Thrown]
    completion is a rejected promise. *)
Definition runEntranceAnimation (k : Kont) : JS unit :=
  let* reduced := gets reducedMotion in
  if reduced then
    showContentImmediately ;;
    resume k
  else
    let* loading := gets (fun w => getElementById "loading" (document w)) in
    let* content := gets (fun w => getElementById "content" (document w)) in
    let* title := gets (fun w => querySelector "title" (document w)) in
    let* tagline := gets (fun w => querySelector "tagline" (document w)) in
    let* comingSoon := gets (fun w => querySelector "coming-soon" (document w)) in
    let* lightningOverlay := gets (fun w => getElementById "lightning-overlay" (document w)) in
    let* slashOverlay := gets (fun w => getElementById "slash-overlay" (document w)) in
    let* slashLine := gets (fun w => querySelector "slash-line" (document w)) in
    let* burstOverlay := gets (fun w => getElementById "burst-overlay" (document w)) in
    let* particlesContainer := gets (fun w => getElementById "particles" (document w)) in
    match content, title, tagline, comingSoon, lightningOverlay with
    | Some content, Some title, Some tagline, Some comingSoon, Some lightningOverlay =>
        animate k loading content title tagline comingSoon lightningOverlay
          slashOverlay slashLine burstOverlay particlesContainer
    | _, _, _, _, _ =>
        console_warn "Animation: Required DOM elements not found, showing content immediately" ;;
        showContentImmediately ;;
        resume k
    end.

(** Calling an [AmbientCleanup] function value. *)
Fixpoint run_cleanup (c : AmbientCleanup) : JS unit :=
  match c with
  | StopSession s overlay => stop_session s overlay
  | StopWithInterval original glitchInterval =>
      run_cleanup original ;;
      clearInterval glitchInterval
  end.

(** [stopAmbientLightning()] *)
Definition stopAmbientLightning : JS unit :=
  let* cleanup := gets ambientCleanup in
  match cleanup with
  | Some c =>
      run_cleanup c ;;
      modify (with_ambientCleanup None)
  | None => ret tt
  end.

(** The last callback of the timeline: starts the ambient session and the
    glitch interval, and stores the combined cleanup. *)
Definition start_ambient (lightningOverlay title : nat) : JS unit :=
  let* cleanup := startAmbientLightning lightningOverlay in
  modify (with_ambientCleanup (Some cleanup)) ;;
  let* glitchInterval := setInterval (CbGlitchInterval title) 5000 in
  (* originalCleanup is the value just stored *)
  modify (with_ambientCleanup (Some (StopWithInterval cleanup glitchInterval))).

(* ===================================================================== *)
(** * Running callbacks: the event loop *)
(* ===================================================================== *)

Definition run_onComplete (done : OnComplete) : JS unit :=
  match done with
  | NoOnComplete => ret tt
  | HideElement el => write el (set_display "none")
  | MarkRevealed el => write el (classList_add "revealed")
  end.

(** The error of [element.classList] on a [null] element. *)
Definition NULL_CLASSLIST : string :=
  "TypeError: Cannot read properties of null (reading 'classList')".

(** Calling a function value. *)
Definition exec (cb : Callback) : JS unit :=
  match cb with
  | CbRemoveClass el cls => write el (classList_remove cls)
  | CbSlashDone el => write el (classList_remove "animate")
  | CbDelayedGlitch title => triggerGlitch title 100
  | CbGlitchInterval title =>
      let* r := Math_random in
      if JSNumber.gt r (JSNumber.decimal 7 10) then triggerGlitch title 80 else ret tt
  | CbFlashOff overlay i k => flash_off overlay i k
  | CbResolve k => resume k
  | CbAmbientTimeout s overlay => ambient_timeout s overlay
  | CbAmbientFrame s overlay => ambient_frame s overlay
  | CbTweenEnd target vars done =>
      when_present target (fun h => write h (apply_vars vars)) ;;
      run_onComplete done
  | TlAccelerate handle => accelerateParticles handle
  | TlFlicker overlay => flickerLightning overlay KDiscard
  | TlGlitch title ms => triggerGlitch title ms
  | TlFlash overlay i => flashLightning overlay i KDiscard
  | TlSlash slashLine => when_present slashLine triggerSlash
  | TlBurst burstOverlay => when_present burstOverlay triggerBurst
  | TlShake ms =>
      (* triggerShake(document.body, 500): on null, [element.classList]
         throws *)
      let* b := gets (fun w => document_body (document w)) in
      match b with
      | Some element => triggerShake element ms
      | None => throw NULL_CLASSLIST
      end
  | TlReset handle => resetParticles handle
  | TlGlowPulse title => write title (classList_add "glow-pulse")
  | TlSecondSlash slashLine =>
      when_present slashLine (fun h =>
        write h (set_transform "rotate(15deg) scaleX(0)") ;;
        triggerSlash h)
  | TlExtraGlitch title =>
      let* _ := setTimeout (CbDelayedGlitch title) 2000 in ret tt
  | TlAmbient overlay title => start_ambient overlay title
  | TlComplete k => resume k
  end.

(** The pending timer that fires next: the earliest one, and among timers
    of one instant the one registered first. *)
Fixpoint earliest (l : list Timer) : option Timer :=
  match l with
  | [] => None
  | t :: r =>
      match earliest r with
      | Some u => if due u <? due t then Some u else Some t
      | None => Some t
      end
  end.

(** Taking a timer off the queue; an interval is put back, due one period
    later. *)
Definition dequeue (t : Timer) (l : list Timer) : list Timer :=
  let rest := List.filter (fun u => negb (Nat.eqb (timerId u) (timerId t))) l in
  match period t with
  | Some p => rest ++ [mkTimer (timerId t) (due t + p) (Some p) (callback t)]
  | None => rest
  end.

(** One turn of the event loop: the clock moves to the next timer, which
    is called; an exception escaping a callback is reported and dropped. *)
Definition step (w : World) : option World :=
  match earliest (timers w) with
  | None => None
  | Some t =>
      let w1 := with_timers (dequeue t (timers w)) (with_now (Z.max (now w) (due t)) w) in
      Some (match exec (callback t) w1 with
            | Returned _ w2 => w2
            | Thrown e w2 => with_console (console w2 ++ [String.append "Uncaught " e]) w2
            end)
  end.

(** [n] turns of the event loop (fewer if the queue runs empty). *)
Fixpoint steps (n : nat) (w : World) : World :=
  match n with
  | O => w
  | S m =>
      match step w with
      | Some w' => steps m w'
      | None => w
      end
  end.

(** Running every timer due up to time [T], then moving the clock to [T].
    [None] when [fuel] turns did not suffice. *)
Fixpoint run_until (fuel : nat) (T : Z) (w : World) : option World :=
  match earliest (timers w) with
  | None => Some (with_now (Z.max (now w) T) w)
  | Some t =>
      if due t <=? T then
        match fuel with
        | O => None
        | S f =>
            match step w with
            | Some w' => run_until f T w'
            | None => None
            end
        end
      else Some (with_now (Z.max (now w) T) w)
  end.

(* ===================================================================== *)
(** * Observations used in the statements *)
(* ===================================================================== *)

(** The double round trips the adapter relies on. *)
Definition restores3 (x : num) : Prop :=
  JSNumber.div (JSNumber.mul x (JSNumber.of_Z 3)) (JSNumber.of_Z 3) = x.

Definition restores_count (n : num) : Prop :=
  JSNumber.div (JSNumber.mul n (JSNumber.decimal 3 2)) (JSNumber.decimal 3 2) = n.

Definition velocity_restored (p : Particle) : Prop :=
  match velocity p with
  | Some v => restores3 (vx v) /\ restores3 (vy v)
  | None => True
  end.

Definition count_restored (o : Options) : Prop :=
  match optParticles o with
  | Some po =>
      match number po with
      | Some (NumberLiteral n) => restores_count n
      | _ => True
      end
  | None => True
  end.


(** Inline style of the element behind a handle. *)
Definition opacity_at (h : nat) (w : World) : option string :=
  option_map opacity (nodes (document w) !! h).
Definition background_at (h : nat) (w : World) : option string :=
  option_map background (nodes (document w) !! h).

(** The tint of every element, in document order. *)
Definition backgrounds (w : World) : list string :=
  map background (nodes (document w)).

(* ===================================================================== *)
(** * Sample worlds *)
(* ===================================================================== *)

Definition blank (id : string) (cls : list string) : Element :=
  mkElement id cls "" "" "" "" "" "" "".

(** The page of the site: every element the orchestrator looks up. *)
Definition page : Document :=
  mkDocument
    [ blank "" [];
      blank "loading" [];
      blank "content" ["hidden"];
      blank "" ["title"];
      blank "" ["tagline"];
      blank "" ["coming-soon"];
      blank "lightning-overlay" [];
      blank "slash-overlay" [];
      blank "" ["slash-line"];
      blank "burst-overlay" [];
      blank "particles" [] ]
    0%nat.

Definition tenth : num := JSNumber.decimal 1 10.
Definition half : num := JSNumber.decimal 1 2.
Definition origin : Vector := mkVector (JSNumber.of_Z 0) (JSNumber.of_Z 0).

Definition fifty : Options :=
  mkOptions (Some (mkParticlesOptions (Some (NumberLiteral (JSNumber.of_Z 50))))).

(** One ember drifting with velocity (0.1, 0.5); 50 particles wanted. *)
Definition drifting : Container :=
  mkContainer [mkParticle origin (Some (mkVector tenth half))] fifty.

(** One ember with velocity (0.5, 0.5). *)
Definition steady : Container :=
  mkContainer [mkParticle origin (Some (mkVector half half))] fifty.

(** [Math.random()] always below, or always above, both thresholds. *)
Definition low_draws : nat -> num := fun _ => JSNumber.decimal 1 4.
Definition high_draws : nat -> num := fun _ => JSNumber.decimal 9 10.

(** A world in which nothing has run yet. *)
Definition initial (d : Document) (reduced : bool) (draws : nat -> num)
  (engine : InitOutcome) : World :=
  mkWorld d reduced 0 1%nat [] draws 0%nat [] engine [] [] None [].

(** A world whose engine already holds one container, at handle 0. *)
Definition holding (c : Container) : World :=
  with_containers [c] (initial page false low_draws InitUndefined).

(** When the promise observed under [tag] was first seen to resolve. *)
Fixpoint resolved_at (tag : string) (tr : list (Z * Event)) : option Z :=
  match tr with
  | [] => None
  | (t, EvResolved tag') :: r =>
      if String.eqb tag tag' then Some t else resolved_at tag r
  | _ :: r => resolved_at tag r
  end.

(** The reduced-motion variant of the sample page's world. *)
Definition at_rest : World := initial page true low_draws InitUndefined.

(** A page whose tagline and coming-soon marker carry inline styles of
    their own, hidden and blurred, the marker scaled down. *)
Definition styled_page : Document :=
  mkDocument
    [ blank "" [];
      blank "loading" [];
      blank "content" ["hidden"];
      blank "" ["title"];
      mkElement "" ["tagline"] "" "0" "" "blur(5px)" "" "" "";
      mkElement "" ["coming-soon"] "" "0" "scale(0.8)" "blur(5px)" "" "" "";
      blank "lightning-overlay" [] ]
    0%nat.

(** That page under reduced motion. *)
Definition styled_at_rest : World := initial styled_page true low_draws InitUndefined.

(** Handle of the lightning overlay on the sample page. *)
Definition page_overlay : nat := 6%nat.

(** The sample page with motion allowed; [Math.random()] as given. *)
Definition in_motion (draws : nat -> num) : World :=
  initial page false draws InitUndefined.

(** [keeps P m]: running [m] preserves the property [P] of the world,
    however [m] completes. *)
Definition keeps {A} (P : World -> Prop) (m : JS A) : Prop :=
  forall w, P w -> P (world_of (m w)).

(** A property of the world that survives the registration, the
    cancellation and the firing of timers, and tolerates the element
    updates, events and session updates that satisfy [okWrite],
    [okEvent], [okSession]. *)
Record Insensitive (P : World -> Prop)
  (okWrite : (Element -> Element) -> Prop)
  (okEvent : Event -> Prop)
  (okSession : (AmbientSession -> AmbientSession) -> Prop) : Prop :=
  mkInsensitive {
    ins_add_timer : forall p cb ms w, P w -> P (world_of (add_timer p cb ms w));
    ins_clear : forall id w, P w -> P (world_of (clearTimeout id w));
    ins_dequeue : forall t w, In t (timers w) -> P w ->
                  P (with_timers (dequeue t (timers w))
                       (with_now (Z.max (now w) (due t)) w));
    ins_randomPos : forall v w, P w -> P (with_randomPos v w);
    ins_console : forall v w, P w -> P (with_console v w);
    ins_containers : forall v w, P w -> P (with_containers v w);
    ins_ambientCleanup : forall v w, P w -> P (with_ambientCleanup v w);
    ins_write : forall h f w, okWrite f -> P w ->
                P (with_document (update_element h f (document w)) w);
    ins_event : forall e w, okEvent e -> P w ->
                P (with_trace (trace w ++ [(now w, e)]) w);
    ins_session : forall s f w, okSession f -> P w ->
                  P (with_sessions (alter f s (sessions w)) w);
    ins_new_session : forall x w, P w -> P (with_sessions (sessions w ++ [x]) w)
  }.

(** An element update that leaves the background alone. *)
Definition keeps_background (f : Element -> Element) : Prop :=
  forall e, background (f e) = background e.

(** The element behind handle [h] exists and satisfies [P]. *)
Definition element_has (P : Element -> Prop) (h : nat) (d : Document) : Prop :=
  exists e, nodes d !! h = Some e /\ P e.

Definition update_present (o : option nat) (f : Element -> Element)
  (d : Document) : Document :=
  match o with
  | Some h => update_element h f d
  | None => d
  end.

(** The document [showContentImmediately] leaves: its writes, in order,
    on the elements found in [d]. *)
Definition revealed (d : Document) : Document :=
  let loading := getElementById "loading" d in
  let content := getElementById "content" d in
  let title := querySelector "title" d in
  let tagline := querySelector "tagline" d in
  let comingSoon := querySelector "coming-soon" d in
  update_present comingSoon (set_opacity "1")
    (update_present tagline (set_transform "translateY(0)")
       (update_present tagline (set_opacity "1")
          (update_present title (set_filter "blur(0px)")
             (update_present title (set_transform "scale(1)")
                (update_present title (set_opacity "1")
                   (update_present content (set_opacity "1")
                      (update_present content (classList_remove "hidden")
                         (update_present loading (set_display "none") d)))))))).

(** One of the elements [runEntranceAnimation] requires is not in the
    document. *)
Definition missing_required (d : Document) : Prop :=
  getElementById "content" d = None
  \/ querySelector "title" d = None
  \/ querySelector "tagline" d = None
  \/ querySelector "coming-soon" d = None
  \/ getElementById "lightning-overlay" d = None.

Definition REQUIRED_MISSING : string :=
  "Animation: Required DOM elements not found, showing content immediately".

(** The sample page without its title. *)
Definition untitled_page : Document :=
  mkDocument
    [ blank "" [];
      blank "loading" [];
      blank "content" ["hidden"];
      blank "" ["tagline"];
      blank "" ["coming-soon"];
      blank "lightning-overlay" [] ]
    0%nat.

Definition PARTICLES_FAILED : string := "Animation: Failed to initialize particles ".

(** The sample page with an engine that fails to load. *)
Definition engine_down : World :=
  initial page false low_draws (InitFails "tsParticles").

(** The timers a playing timeline holds for its children, the first one
    having id [n], on a timeline created at time [t0]. *)
Fixpoint timeline_timers (n : nat) (t0 : Z) (l : list Child) : list Timer :=
  match l with
  | [] => []
  | c :: r => mkTimer n (t0 + childEnd c) None (fires c) :: timeline_timers (S n) t0 r
  end.

(** The particle handle [runEntranceAnimation] ends up with. *)
Definition particles_handle (w : World) : option nat :=
  match getElementById "particles" (document w), initOutcome w with
  | Some _, InitContainer _ => Some (length (containers w))
  | _, _ => None
  end.

(** The title's reveal tween of the impact phase. *)
Definition REVEAL : TweenVars :=
  mkTweenVars (Some "1") (Some "1") None (Some "blur(0px)").

(** The children of a timeline that start [T] ms into it, in the order
    they were added. *)
Definition starting_at (T : Z) (l : list Child) : list Child :=
  List.filter (fun c => childStart c =? T) l.

Definition anchored_to_previous (s : TimelineStep) : bool :=
  match step_position s with
  | WithPrevious => true
  | _ => false
  end.

(** The handle of an optional element, if it was found. *)
Definition found (o : option nat) : list nat :=
  match o with
  | Some h => [h]
  | None => []
  end.

(** The effects of the impact instant, in the order of their issue, on
    a page with the body [b]: the slash and the burst only when their
    element was found. *)
Definition impact_effects (title overlay b : nat) (slashLine burstOverlay : option nat)
  : list Event :=
  [EvFlicker overlay; EvFlash overlay full]
  ++ map EvSlash (found slashLine)
  ++ map EvBurst (found burstOverlay)
  ++ [EvShake b 500; EvGlitch title 200].

(** The timers the effects of the impact instant have armed at the
    instant [T], each with its own due time. *)
Definition impact_timers (T : Z) (title overlay b : nat)
  (slashLine burstOverlay : option nat) : list (Z * Callback) :=
  [ (T + 40, CbResolve (KFlicker FirstFlashOn overlay KDiscard));
    (T + 150, CbFlashOff overlay full KDiscard) ]
  ++ map (fun h => (T + 300, CbSlashDone h)) (found slashLine)
  ++ map (fun h => (T + 600, CbRemoveClass h "burst-animate")) (found burstOverlay)
  ++ [ (T + 500, CbRemoveClass b "shake");
       (T + 200, CbRemoveClass title "glitch") ].

(** When the clock reaches [T], having run every timer due by then. *)
Definition world_at (fuel : nat) (T : Z) (w : World) : World :=
  match run_until fuel T w with
  | Some w' => w'
  | None => w
  end.

(** The events of a trace stamped [T]. *)
Definition events_at (T : Z) (tr : list (Z * Event)) : list Event :=
  map snd (List.filter (fun p => fst p =? T) tr).

(** The part of the trace of [w'] recorded since [w]. *)
Definition issued_since (w w' : World) : list (Z * Event) :=
  skipn (length (trace w)) (trace w').

(** The trace has grown from [tr] by events stamped after [T], and the
    clock is past [T]. *)
Definition past (T : Z) (tr : list (Z * Event)) (w : World) : Prop :=
  T < now w
  /\ exists later, trace w = tr ++ later /\ Forall (fun p => T < fst p) later.

(** The overlay an [AmbientCleanup] resets. *)
Fixpoint cleanup_overlay (c : AmbientCleanup) : nat :=
  match c with
  | StopSession _ overlay => overlay
  | StopWithInterval original _ => cleanup_overlay original
  end.

Definition is_ambient_effect (s : nat) (e : Event) : bool :=
  match e with
  | EvAmbientEffect s' => Nat.eqb s s'
  | _ => false
  end.

(** The effects session [s] has fired, with their times. *)
Definition ambient_fires (s : nat) (tr : list (Z * Event)) : list (Z * Event) :=
  List.filter (fun p => is_ambient_effect s (snd p)) tr.

(** Session [s] exists and is stopped, and has fired exactly [fired]. *)
Definition stopped (s : nat) (fired : list (Z * Event)) (w : World) : Prop :=
  (exists x, sessions w !! s = Some x /\ isRunning x = false)
  /\ ambient_fires s (trace w) = fired.

(** A session update that does not restart a stopped session. *)
Definition keeps_stopped (f : AmbientSession -> AmbientSession) : Prop :=
  forall x, isRunning x = false -> isRunning (f x) = false.

(** Timer ids are handed out in increasing order: every pending timer
    was registered before [nextTimer], and none of them bears the id
    [gone] of a cancelled timer, itself handed out earlier. *)
Definition timers_fresh (gone : nat) (w : World) : Prop :=
  (gone < nextTimer w)%nat
  /\ Forall (fun t => (timerId t < nextTimer w)%nat /\ timerId t <> gone) (timers w).

(** The sample page after the call of the entry point. *)
Definition entered (draws : nat -> num) : World :=
  world_of (runEntranceAnimation (KProbe "entrance") (in_motion draws)).

(** In the middle of the impact flash, before the ambient phase. *)
Definition mid_flash : World := world_at 200 1820 (entered low_draws).

(** In the ambient phase, the session waiting for its next interval. *)
Definition ambient_running : World := world_at 400 5000 (entered low_draws).

(* ===================================================================== *)
(** * Further observations *)
(* ===================================================================== *)

(** The update a write through [o] means for the element behind [i]. *)
Definition apply_at (o : option nat) (f : Element -> Element) (i : nat)
  : Element -> Element :=
  if decide (o = Some i) then f else fun e => e.

(** The handles [showContentImmediately] finds in a document. *)
Definition revealed_targets (d : Document) : list (option nat) :=
  [ getElementById "loading" d; getElementById "content" d;
    querySelector "title" d; querySelector "tagline" d;
    querySelector "coming-soon" d ].

(** The classes of the element behind a handle. *)
Definition classes_at (h : nat) (w : World) : option (list string) :=
  option_map classList (nodes (document w) !! h).

(** [run] is a pulse of the class [cls] on the element [el] lasting
    [ms] milliseconds: called while no timer is pending, on an element
    that does not bear the class, it returns with the class added and
    nothing else changed in the document, and holds one timer; when that
    timer fires, [ms] later (at once when [ms] is negative), the document
    is what it was before the call and nothing is left pending. *)
Definition pulses (run : JS unit) (el : nat) (cls : string) (ms : Z) : Prop :=
  forall w e,
    timers w = [] ->
    nodes (document w) !! el = Some e ->
    has_class cls e = false ->
    exists w1,
      run w = Returned tt w1
      /\ nodes (document w1) !! el = Some (set_classList (classList e ++ [cls]) e)
      /\ (forall h, h <> el -> nodes (document w1) !! h = nodes (document w) !! h)
      /\ length (timers w1) = 1%nat
      /\ now w1 = now w
      /\ now (steps 1 w1) = Z.max (now w) (now w + ms)
      /\ document (steps 1 w1) = document w
      /\ timers (steps 1 w1) = [].

(** Handle of the title on the sample page. *)
Definition page_title : nat := 3%nat.

(** The clock and the opacity of [overlay] after [n] turns of the event
    loop from [w]. *)
Definition overlay_after (overlay : nat) (w : World) (n : nat) : Z * option string :=
  (now (steps n w), opacity_at overlay (steps n w)).

(** The interval [getRandomInterval] computes from the draw [r], as the
    delay [window.setTimeout] makes of it. *)
Definition ambient_delay (r : num) : Z :=
  JSNumber.to_delay
    (JSNumber.add AMBIENT_MIN_INTERVAL
       (JSNumber.mul r (JSNumber.sub AMBIENT_MAX_INTERVAL AMBIENT_MIN_INTERVAL))).

(** Every pending timer was registered before [nextTimer]. *)
Definition ids_below_next (w : World) : Prop :=
  Forall (fun t => (timerId t < nextTimer w)%nat) (timers w).

(** The world the last callback of the timeline makes of [w]: a new
    session waiting for its first interval, the glitch interval, and the
    cleanup for both stored. *)
Definition ambient_started (overlay title : nat) (w : World) : World :=
  let s := length (sessions w) in
  let id := nextTimer w in
  mkWorld (document w) (reducedMotion w) (now w) (S (S id))
    (timers w
     ++ [mkTimer id (now w + ambient_delay (random w (randomPos w))) None
           (CbAmbientTimeout s overlay);
         mkTimer (S id) (now w + 5000) (Some 5000) (CbGlitchInterval title)])
    (random w) (S (randomPos w)) (console w) (initOutcome w) (containers w)
    (sessions w ++ [mkAmbientSession true (Some id)])
    (Some (StopWithInterval (StopSession s overlay) (S id)))
    (trace w).

(** The world [stopAmbientLightning] makes of [ambient_started]. *)
Definition ambient_undone (overlay : nat) (w : World) : World :=
  mkWorld
    (update_element overlay (set_background "")
       (update_element overlay (set_opacity "0") (document w)))
    (reducedMotion w) (now w) (S (S (nextTimer w))) (timers w)
    (random w) (S (randomPos w)) (console w) (initOutcome w) (containers w)
    (sessions w ++ [mkAmbientSession false None])
    None (trace w).

(** The clock, the opacity and the tint of [overlay] after [n] turns of
    the event loop from [w]. *)
Definition overlay_look (overlay : nat) (w : World) (n : nat)
  : Z * option string * option string :=
  (now (steps n w), opacity_at overlay (steps n w), background_at overlay (steps n w)).

(** The required elements, as [runEntranceAnimation] finds them. *)
Definition stage (d : Document) (content title tagline comingSoon overlay : nat) : Prop :=
  getElementById "content" d = Some content
  /\ querySelector "title" d = Some title
  /\ querySelector "tagline" d = Some tagline
  /\ querySelector "coming-soon" d = Some comingSoon
  /\ getElementById "lightning-overlay" d = Some overlay.

(** The sample page without the element that hosts the particles, and
    with an engine that would fail if it were asked. *)
Definition page_without_particles : Document :=
  mkDocument
    [ blank "" [];
      blank "loading" [];
      blank "content" ["hidden"];
      blank "" ["title"];
      blank "" ["tagline"];
      blank "" ["coming-soon"];
      blank "lightning-overlay" [] ]
    0%nat.

Definition hostless : World :=
  initial page_without_particles false low_draws (InitFails "tsParticles").

(** The elements the call of [runEntranceAnimation] writes to. *)
Definition prepared (d : Document) (content title tagline comingSoon : nat) : list nat :=
  [content; title; tagline; comingSoon] ++ found (getElementById "slash-overlay" d).

(** The sample page without the element that hosts the particles. *)
Definition page_unhosted : Document :=
  mkDocument
    [ blank "" [];
      blank "loading" [];
      blank "content" ["hidden"];
      blank "" ["title"];
      blank "" ["tagline"];
      blank "" ["coming-soon"];
      blank "lightning-overlay" [];
      blank "slash-overlay" [];
      blank "" ["slash-line"];
      blank "burst-overlay" [] ]
    0%nat.

(** That page with motion allowed and an engine that would deliver a
    container if it were asked. *)
Definition unhosted : World :=
  initial page_unhosted false low_draws (InitContainer drifting).

(** A page with every element the entrance looks up but the particle
    host, all distinct: the handles of the loading indicator, the content
    container, the three text elements, the lightning overlay, the slash
    overlay, the slash line and the burst overlay. *)
Record Cast := mkCast {
  atLoading : nat;
  atContent : nat;
  atTitle : nat;
  atTagline : nat;
  atComingSoon : nat;
  atOverlay : nat;
  atSlashOverlay : nat;
  atSlashLine : nat;
  atBurstOverlay : nat
}.

Definition full_stage (d : Document) (c : Cast) : Prop :=
  getElementById "loading" d = Some (atLoading c)
  /\ getElementById "content" d = Some (atContent c)
  /\ querySelector "title" d = Some (atTitle c)
  /\ querySelector "tagline" d = Some (atTagline c)
  /\ querySelector "coming-soon" d = Some (atComingSoon c)
  /\ getElementById "lightning-overlay" d = Some (atOverlay c)
  /\ getElementById "slash-overlay" d = Some (atSlashOverlay c)
  /\ querySelector "slash-line" d = Some (atSlashLine c)
  /\ getElementById "burst-overlay" d = Some (atBurstOverlay c)
  /\ getElementById "particles" d = None
  /\ is_Some (nodes d !! body d)
  /\ NoDup [ atLoading c; atContent c; atTitle c; atTagline c; atComingSoon c;
             atOverlay c; atSlashOverlay c; atSlashLine c; atBurstOverlay c;
             body d ].

(** The state in which the entrance ends, [w'], for the world [w] in
    which it was called: 4100 ms have passed; the effects were issued at
    their times and the promise observed under [tag] has resolved; what
    is pending is the late glitch, the first timeout of the ambient
    session and the glitch interval; the session runs and its cleanup is
    stored; no container was stored or touched and nothing was logged;
    the loading indicator is hidden, the content and the three text
    elements are shown, the title glows, the overlay is dark and
    untinted, and the classes of the transient effects are gone. *)
Definition entrance_done (w : World) (c : Cast) (tag : string)
  (w' : World) : Prop :=
  let t := now w in
  let s := length (sessions w) in
  let b := body (document w) in
  now w' = t + 4100
  /\ trace w'
     = trace w
       ++ [ (t + 1000, EvFlicker (atOverlay c));
            (t + 1300, EvGlitch (atTitle c) 150);
            (t + 1500, EvFlash (atOverlay c) medium);
            (t + 1600, EvGlitch (atTitle c) 100);
            (t + 1800, EvFlicker (atOverlay c));
            (t + 1800, EvFlash (atOverlay c) full);
            (t + 1800, EvSlash (atSlashLine c));
            (t + 1800, EvBurst (atBurstOverlay c));
            (t + 1800, EvShake b 500);
            (t + 1800, EvGlitch (atTitle c) 200);
            (t + 2500, EvSlash (atSlashLine c));
            (t + 4100, EvResolved tag) ]
  /\ map (fun x => (due x, period x, callback x)) (timers w')
     = [ (t + 4100 + 2000, None, CbDelayedGlitch (atTitle c));
         (t + 4100 + ambient_delay (random w (S (S (randomPos w)))), None,
          CbAmbientTimeout s (atOverlay c));
         (t + 4100 + 5000, Some 5000, CbGlitchInterval (atTitle c)) ]
  /\ session_running s w' = true
  /\ (exists glitchInterval,
        ambientCleanup w'
        = Some (StopWithInterval (StopSession s (atOverlay c)) glitchInterval))
  /\ containers w' = containers w
  /\ console w' = console w
  /\ element_has (fun e => display e = "none" /\ opacity e = "0")
       (atLoading c) (document w')
  /\ element_has (fun e => opacity e = "1" /\ has_class "hidden" e = false)
       (atContent c) (document w')
  /\ element_has (fun e => opacity e = "1" /\ gsapScale e = "1"
                           /\ cssFilter e = "blur(0px)"
                           /\ has_class "glitch" e = false
                           /\ has_class "glow-pulse" e = true)
       (atTitle c) (document w')
  /\ element_has (fun e => opacity e = "1" /\ gsapY e = "0"
                           /\ has_class "revealed" e = true)
       (atTagline c) (document w')
  /\ element_has (fun e => opacity e = "1" /\ gsapScale e = "1"
                           /\ has_class "revealed" e = true)
       (atComingSoon c) (document w')
  /\ element_has (fun e => opacity e = "0" /\ background e = "")
       (atOverlay c) (document w')
  /\ element_has (fun e => opacity e = "1") (atSlashOverlay c) (document w')
  /\ element_has (fun e => transform e = "rotate(15deg) scaleX(0)"
                           /\ has_class "animate" e = false)
       (atSlashLine c) (document w')
  /\ element_has (fun e => has_class "burst-animate" e = false)
       (atBurstOverlay c) (document w')
  /\ element_has (fun e => has_class "shake" e = false) b (document w').

(** The handles of [page_unhosted]. *)
Definition page_cast : Cast := mkCast 1 2 3 4 5 6 7 8 9.

(** A page with the required elements only: no loading indicator, no
    slash overlay, no slash line, no burst overlay and no host for the
    particles; the required elements and the body are distinct. *)
Definition bare_stage (d : Document) (content title tagline comingSoon overlay : nat)
  : Prop :=
  stage d content title tagline comingSoon overlay
  /\ getElementById "loading" d = None
  /\ getElementById "slash-overlay" d = None
  /\ querySelector "slash-line" d = None
  /\ getElementById "burst-overlay" d = None
  /\ getElementById "particles" d = None
  /\ is_Some (nodes d !! body d)
  /\ NoDup [content; title; tagline; comingSoon; overlay; body d].

(** The state in which the entrance ends on such a page. *)
Definition entrance_done_bare (w : World)
  (content title tagline comingSoon overlay : nat) (tag : string) (w' : World) : Prop :=
  let t := now w in
  let s := length (sessions w) in
  let b := body (document w) in
  now w' = t + 4100
  /\ trace w'
     = trace w
       ++ [ (t + 1000, EvFlicker overlay);
            (t + 1300, EvGlitch title 150);
            (t + 1500, EvFlash overlay medium);
            (t + 1600, EvGlitch title 100);
            (t + 1800, EvFlicker overlay);
            (t + 1800, EvFlash overlay full);
            (t + 1800, EvShake b 500);
            (t + 1800, EvGlitch title 200);
            (t + 4100, EvResolved tag) ]
  /\ map (fun x => (due x, period x, callback x)) (timers w')
     = [ (t + 4100 + 2000, None, CbDelayedGlitch title);
         (t + 4100 + ambient_delay (random w (S (S (randomPos w)))), None,
          CbAmbientTimeout s overlay);
         (t + 4100 + 5000, Some 5000, CbGlitchInterval title) ]
  /\ session_running s w' = true
  /\ (exists glitchInterval,
        ambientCleanup w'
        = Some (StopWithInterval (StopSession s overlay) glitchInterval))
  /\ containers w' = containers w
  /\ console w' = console w
  /\ element_has (fun e => opacity e = "1" /\ has_class "hidden" e = false)
       content (document w')
  /\ element_has (fun e => opacity e = "1" /\ gsapScale e = "1"
                           /\ cssFilter e = "blur(0px)"
                           /\ has_class "glitch" e = false
                           /\ has_class "glow-pulse" e = true)
       title (document w')
  /\ element_has (fun e => opacity e = "1" /\ gsapY e = "0"
                           /\ has_class "revealed" e = true)
       tagline (document w')
  /\ element_has (fun e => opacity e = "1" /\ gsapScale e = "1"
                           /\ has_class "revealed" e = true)
       comingSoon (document w')
  /\ element_has (fun e => opacity e = "0" /\ background e = "")
       overlay (document w')
  /\ element_has (fun e => has_class "shake" e = false) b (document w')
  /\ length (nodes (document w')) = length (nodes (document w)).

(** A page with the required elements only, and an engine that would
    fail if it were asked. *)
Definition bare_page : Document :=
  mkDocument
    [ blank "" [];
      blank "content" ["hidden"];
      blank "" ["title"];
      blank "" ["tagline"];
      blank "" ["coming-soon"];
      blank "lightning-overlay" [] ]
    0%nat.

Definition bare : World :=
  initial bare_page false high_draws (InitFails "tsParticles").

(* ===================================================================== *)
(** * Verification *)
(* ===================================================================== *)

(* ===================================================================== *)
(** * Properties of the particle velocity adapter *)
(* ===================================================================== *)

Lemma scale_velocity_roundtrip (p : Particle) :
  scale_velocity (fun x => JSNumber.div x (JSNumber.of_Z 3))
    (scale_velocity (fun x => JSNumber.mul x (JSNumber.of_Z 3)) p) = p
  <-> velocity_restored p.
Proof.
  destruct p as [pos [[x y]|]]; unfold scale_velocity, velocity_restored, restores3; simpl.
  - split.
    + intros H. injection H as Hx Hy. now split.
    + intros [Hx Hy]. now rewrite Hx, Hy.
  - tauto.
Qed.

Lemma scale_number_roundtrip (o : Options) :
  scale_number (fun n => JSNumber.div n (JSNumber.decimal 3 2))
    (scale_number (fun n => JSNumber.mul n (JSNumber.decimal 3 2)) o) = o
  <-> count_restored o.
Proof.
  destruct o as [[[[[n|]|]]|]]; unfold scale_number, count_restored, restores_count; simpl;
    try tauto.
  split.
  - intros H. now injection H.
  - intros H. now rewrite H.
Qed.

Lemma map_roundtrip (ps : list Particle) :
  map (scale_velocity (fun x => JSNumber.div x (JSNumber.of_Z 3)))
    (map (scale_velocity (fun x => JSNumber.mul x (JSNumber.of_Z 3))) ps) = ps
  <-> Forall velocity_restored ps.
Proof.
  induction ps as [|p ps IH]; simpl.
  - split; [constructor | reflexivity].
  - split.
    + intros H. injection H as Hp Hps. constructor.
      * now apply scale_velocity_roundtrip.
      * now apply IH.
    + intros H. inversion H as [|? ? Hp Hps]; subst. f_equal.
      * now apply scale_velocity_roundtrip.
      * now apply IH.
Qed.

Lemma reset_accelerate_exact (c : Container) :
  reset (accelerate c) = c
  <-> Forall velocity_restored (particles c) /\ count_restored (options c).
Proof.
  destruct c as [ps o]. unfold reset, accelerate. simpl.
  split.
  - intros H. injection H as Hps Ho. split.
    + now apply map_roundtrip.
    + now apply scale_number_roundtrip.
  - intros [Hps Ho].
    apply map_roundtrip in Hps. apply scale_number_roundtrip in Ho.
    now rewrite Hps, Ho.
Qed.

(** The literals as doubles: 0.1 is 0x1.999999999999ap-4, and tripling
    it and dividing by three gives the next double, 0x1.999999999999bp-4;
    0.5 and 50 are exact. *)
Lemma literal_bits :
  tenth = S754_finite false 7205759403792794 (-56)
  /\ JSNumber.div (JSNumber.mul tenth (JSNumber.of_Z 3)) (JSNumber.of_Z 3)
     = S754_finite false 7205759403792795 (-56)
  /\ half = S754_finite false 4503599627370496 (-53)
  /\ JSNumber.of_Z 50 = S754_finite false 7036874417766400 (-47).
Proof. repeat split; vm_compute; reflexivity. Qed.

Lemma restores_count_configured :
  restores_count (JSNumber.of_Z 50) /\ restores_count (JSNumber.of_Z 25) /\
  restores_count (JSNumber.of_Z 15).
Proof. repeat split; vm_compute; reflexivity. Qed.

Lemma speedUp_slowDown_present (h : nat) (w : World) :
  exists w1,
    accelerateParticles (Some h) w = Returned tt w1 /\
    resetParticles (Some h) w1
    = Returned tt (with_containers
                     (alter (fun c => reset (accelerate c)) h (containers w)) w).
Proof.
  eexists. split; [reflexivity|].
  unfold resetParticles, update_container, modify. cbn.
  rewrite list_alter_alter_eq. reflexivity.
Qed.

Lemma positions_kept (c : Container) :
  map position (particles (reset (accelerate c))) = map position (particles c).
Proof.
  destruct c as [ps o]. unfold reset, accelerate. cbn [particles].
  rewrite !map_map. apply map_ext. intros [pos [v|]]; reflexivity.
Qed.

(** C3, as amended.  Speeding up and then slowing down never throws.  On
    an absent handle both calls return at once with the world unchanged.
    On a present handle the two calls rewrite one container, keeping its
    particles' number and positions, and restore that container exactly
    if and only if every velocity component [x] satisfies [(x*3)/3 = x]
    and a numeric target count [n] satisfies [(n*1.5)/1.5 = n] in double
    arithmetic; this is so for a container without particles whose count
    is one of the configured 50, 25 and 15. *)
Theorem C3_speedUp_then_slowDown :
  (forall w, accelerateParticles None w = Returned tt w
             /\ resetParticles None w = Returned tt w)
  /\ (forall h w, exists w1,
        accelerateParticles (Some h) w = Returned tt w1 /\
        resetParticles (Some h) w1
        = Returned tt (with_containers
                         (alter (fun c => reset (accelerate c)) h (containers w)) w))
  /\ (forall c, map position (particles (reset (accelerate c)))
                = map position (particles c))
  /\ (forall c, reset (accelerate c) = c
                <-> Forall velocity_restored (particles c) /\ count_restored (options c))
  /\ (forall n, In n [50; 25; 15] ->
        let c := mkContainer []
                   (mkOptions (Some (mkParticlesOptions
                      (Some (NumberLiteral (JSNumber.of_Z n)))))) in
        reset (accelerate c) = c).
Proof.
  split; [intros w; split; reflexivity|].
  split; [exact speedUp_slowDown_present|].
  split; [exact positions_kept|].
  split; [exact reset_accelerate_exact|].
  intros n Hn c. apply reset_accelerate_exact. split; [constructor|].
  destruct restores_count_configured as (H50 & H25 & H15).
  simpl in Hn. unfold c, count_restored; cbn [options optParticles number].
  destruct Hn as [<-|[<-|[<-|[]]]]; assumption.
Qed.

Lemma C3_speedUp_then_slowDown_witness :
  In 50 [50; 25; 15]
  /\ reset (accelerate (mkContainer [] fifty)) = mkContainer [] fifty.
Proof.
  split; [simpl; tauto|].
  destruct C3_speedUp_then_slowDown as (_ & _ & _ & _ & H).
  apply (H 50). simpl; tauto.
Defined.

(** C3 fails as stated: a particle moving at (0.1, 0.5) does not get its
    horizontal velocity back, since [(0.1 * 3) / 3] is the next double
    above 0.1. *)
Lemma C3_counterexample :
  exists w1 w2,
    accelerateParticles (Some 0%nat) (holding drifting) = Returned tt w1 /\
    resetParticles (Some 0%nat) w1 = Returned tt w2 /\
    map (fun c => map velocity (particles c)) (containers w2)
    <> map (fun c => map velocity (particles c)) (containers (holding drifting)).
Proof.
  do 2 eexists. split; [reflexivity|]. split; [reflexivity|].
  vm_compute. discriminate.
Qed.

(* ===================================================================== *)
(** * Properties of the flash effect engine *)
(* ===================================================================== *)

Lemma lookup_update_eq (h : nat) (f : Element -> Element) (d : Document) :
  nodes (update_element h f d) !! h = f <$> nodes d !! h.
Proof. apply list_lookup_alter_eq. Qed.

Lemma lookup_update_ne (h h' : nat) (f : Element -> Element) (d : Document) :
  h <> h' -> nodes (update_element h f d) !! h' = nodes d !! h'.
Proof. intros H. now apply list_lookup_alter_ne. Qed.

Lemma steps_zero (w : World) : steps 0 w = w.
Proof. reflexivity. Qed.

Lemma steps_succ (n : nat) (w : World) :
  steps (S n) w = match step w with Some w' => steps n w' | None => w end.
Proof. reflexivity. Qed.

Lemma steps_idle (n : nat) (w : World) : timers w = [] -> steps n w = w.
Proof.
  intros H. destruct n; [reflexivity|]. rewrite steps_succ. unfold step. now rewrite H.
Qed.

Arguments steps : simpl never.

(** Symbolic execution of the event loop on a world given field by
    field.  A world is kept as an explicit record after every turn. *)
Ltac flat :=
  cbv [with_document with_reducedMotion with_now with_nextTimer with_timers
       with_randomPos with_console with_initOutcome with_containers
       with_sessions with_ambientCleanup with_trace
       document reducedMotion now nextTimer timers random randomPos console
       initOutcome containers sessions ambientCleanup trace].

(** Timer ids compare equal to themselves, the clock only moves forward,
    and [H] tells the outcome of a random draw. *)
Ltac settle H := repeat (rewrite ?Nat.eqb_refl, ?Z.max_r, ?H by lia; cbn).

Ltac one_turn H :=
  rewrite steps_succ;
  lazymatch goal with
  | |- context [step ?w] =>
      let E := fresh "E" in
      let v := fresh "next" in
      evar (v : World);
      assert (E : step w = Some v) by
        (unfold step; cbn; settle H; flat; unfold v; reflexivity);
      rewrite E; clear E; unfold v; clear v; cbv beta iota
  end.

Ltac run H := repeat one_turn H; rewrite ?steps_zero; cbn.

Ltac read_style Hov :=
  unfold opacity_at, background_at; cbn;
  rewrite ?lookup_update_eq;
  let e := fresh "e" in let He := fresh "He" in
  destruct (lookup_lt_is_Some_2 _ _ Hov) as [e He];
  rewrite ?He; reflexivity.

(** C2, as amended.  With the reduced-motion signal off, a flash that
    runs alone (no other timer pending) is pending for [duration] ms,
    switches the overlay off, and resolves 50 ms later, that is exactly
    [duration + 50] ms after the call, for each of the three intensities;
    at that moment the overlay's opacity is "0", the tint is removed if
    the intensity applies one, and the background is untouched otherwise.
    With the signal on, the call resolves at once and changes nothing. *)
Theorem C2_flash_resolves (w : World) (overlay : nat) (i : FlashIntensity) (tag : string) :
  (reducedMotion w = false -> timers w = [] ->
   (overlay < length (nodes (document w)))%nat ->
   let d := duration (INTENSITY_CONFIG i) in
   exists w1,
     flashLightning overlay i (KProbe tag) w = Returned tt w1 /\
     trace w1 = trace w ++ [(now w, EvFlash overlay i)] /\
     trace (steps 1 w1) = trace w1 /\
     now (steps 1 w1) = now w + d /\
     trace (steps 2 w1) = trace w1 ++ [(now w + d + 50, EvResolved tag)] /\
     timers (steps 2 w1) = [] /\
     opacity_at overlay (steps 2 w1) = Some "0" /\
     background_at overlay (steps 2 w1)
     = if blueTint (INTENSITY_CONFIG i) then Some "" else background_at overlay w)
  /\ (reducedMotion w = true ->
      flashLightning overlay i (KProbe tag) w
      = Returned tt (with_trace (trace w ++ [(now w, EvFlash overlay i);
                                             (now w, EvResolved tag)]) w)).
Proof.
  split.
  - intros Hrm Ht Hov d.
    destruct w as [doc rm t0 nid ts rnd rp con init cs ss ac tr].
    cbn in Hrm, Ht, Hov. subst rm ts. subst d.
    destruct i; (eexists; split; [cbn; flat; reflexivity|]);
      run I; repeat (split; [reflexivity|]); split; read_style Hov.
  - intros Hrm.
    destruct w as [doc rm t0 nid ts rnd rp con init cs ss ac tr].
    cbn in Hrm. subst rm. unfold flashLightning. cbn.
    unfold record, modify, with_trace. cbn.
    rewrite <- app_assoc. reflexivity.
Qed.

Lemma C2_flash_resolves_witness :
  reducedMotion (in_motion low_draws) = false
  /\ timers (in_motion low_draws) = []
  /\ (page_overlay < length (nodes (document (in_motion low_draws))))%nat
  /\ exists w1,
       flashLightning page_overlay full (KProbe "flash") (in_motion low_draws)
       = Returned tt w1 /\
       resolved_at "flash" (trace (steps 1 w1)) = None /\
       resolved_at "flash" (trace (steps 2 w1)) = Some 200 /\
       opacity_at page_overlay (steps 2 w1) = Some "0" /\
       background_at page_overlay (steps 2 w1) = Some "".
Proof.
  split; [reflexivity|]. split; [reflexivity|]. split; [vm_compute; lia|].
  destruct (C2_flash_resolves (in_motion low_draws) page_overlay full "flash")
    as [H _].
  destruct H as (w1 & Hcall & H0 & H1 & _ & H2 & _ & Hop & Hbg);
    [reflexivity | reflexivity | vm_compute; lia |].
  exists w1. split; [exact Hcall|].
  rewrite H1, H2, H0. split; [reflexivity|]. split; [reflexivity|].
  split; [exact Hop | exact Hbg].
Defined.

(** C2 fails as stated: with the reduced-motion signal on, a full flash
    resolves at the instant of the call, not 150 + 50 ms later. *)
Lemma C2_counterexample :
  exists w1,
    flashLightning page_overlay full (KProbe "flash") at_rest = Returned tt w1 /\
    resolved_at "flash" (trace w1) = Some (now at_rest) /\
    resolved_at "flash" (trace w1)
    <> Some (now at_rest + (duration (INTENSITY_CONFIG full) + 50)).
Proof.
  eexists. split; [reflexivity|]. split; [reflexivity|].
  vm_compute. discriminate.
Qed.

(** C4, as amended.  With the reduced-motion signal off, a flicker that
    runs alone resolves 280 ms after the call when the random draw is at
    most 0.5 and 350 ms after it when the draw exceeds 0.5 (the third
    pulse), never earlier, and the overlay's opacity is "0" at that
    moment.  With the signal on, the call resolves at once and changes
    nothing. *)
Theorem C4_flicker_resolves (w : World) (overlay : nat) (tag : string) :
  (reducedMotion w = false -> timers w = [] ->
   (overlay < length (nodes (document w)))%nat ->
   let third := JSNumber.gt (random w (randomPos w)) (JSNumber.decimal 1 2) in
   let turns := if third then 7%nat else 5%nat in
   let total := if third then 40 + 60 + 50 + 80 + 50 + (40 + 30)
                else 40 + 60 + 50 + 80 + 50 in
   exists w1,
     flickerLightning overlay (KProbe tag) w = Returned tt w1 /\
     trace w1 = trace w ++ [(now w, EvFlicker overlay)] /\
     (forall n, (n < turns)%nat -> trace (steps n w1) = trace w1) /\
     trace (steps turns w1) = trace w1 ++ [(now w + total, EvResolved tag)] /\
     280 <= total <= 350 /\
     timers (steps turns w1) = [] /\
     opacity_at overlay (steps turns w1) = Some "0")
  /\ (reducedMotion w = true ->
      flickerLightning overlay (KProbe tag) w
      = Returned tt (with_trace (trace w ++ [(now w, EvFlicker overlay);
                                             (now w, EvResolved tag)]) w)).
Proof.
  split.
  - intros Hrm Ht Hov.
    destruct w as [doc rm t0 nid ts rnd rp con init cs ss ac tr].
    cbn in Hrm, Ht, Hov. subst rm ts. cbn [random randomPos].
    eexists. split; [cbn; flat; reflexivity|].
    split; [reflexivity|].
    destruct (JSNumber.gt (rnd rp) (JSNumber.decimal 1 2)) eqn:Hthird.
    + split.
      { intros n Hn.
        do 7 (destruct n as [|n]; [run Hthird; reflexivity|]).
        lia. }
      run Hthird.
      split; [do 3 f_equal; lia|].
      split; [lia|]. split; [reflexivity|]. read_style Hov.
    + split.
      { intros n Hn.
        do 5 (destruct n as [|n]; [run Hthird; reflexivity|]).
        lia. }
      run Hthird.
      split; [do 3 f_equal; lia|].
      split; [lia|]. split; [reflexivity|]. read_style Hov.
  - intros Hrm.
    destruct w as [doc rm t0 nid ts rnd rp con init cs ss ac tr].
    cbn in Hrm. subst rm. unfold flickerLightning. cbn.
    unfold record, modify, with_trace. cbn.
    rewrite <- app_assoc. reflexivity.
Qed.

Lemma C4_flicker_resolves_witness :
  reducedMotion (in_motion high_draws) = false
  /\ timers (in_motion high_draws) = []
  /\ (page_overlay < length (nodes (document (in_motion high_draws))))%nat
  /\ exists w1,
       flickerLightning page_overlay (KProbe "flicker") (in_motion high_draws)
       = Returned tt w1 /\
       resolved_at "flicker" (trace (steps 6 w1)) = None /\
       resolved_at "flicker" (trace (steps 7 w1)) = Some 350 /\
       opacity_at page_overlay (steps 7 w1) = Some "0".
Proof.
  split; [reflexivity|]. split; [reflexivity|]. split; [vm_compute; lia|].
  destruct (C4_flicker_resolves (in_motion high_draws) page_overlay "flicker")
    as [H _].
  destruct H as (w1 & Hcall & H0 & Hbefore & Hat & _ & _ & Hop);
    [reflexivity | reflexivity | vm_compute; lia |].
  change (JSNumber.gt (random (in_motion high_draws) (randomPos (in_motion high_draws)))
            (JSNumber.decimal 1 2)) with true in Hbefore, Hat, Hop.
  cbv beta iota in Hbefore, Hat, Hop.
  exists w1. split; [exact Hcall|].
  rewrite (Hbefore 6%nat) by lia. rewrite Hat, H0.
  split; [reflexivity|]. split; [reflexivity|]. exact Hop.
Defined.

(** C4 fails as stated: with the reduced-motion signal on, a flicker
    resolves at the instant of the call, before 280 ms have passed. *)
Lemma C4_counterexample :
  exists w1 t,
    flickerLightning page_overlay (KProbe "flicker") at_rest = Returned tt w1 /\
    resolved_at "flicker" (trace w1) = Some t /\
    t - now at_rest < 40 + 60 + 50 + 80 + 50.
Proof.
  do 2 eexists. split; [reflexivity|]. split; [reflexivity|].
  vm_compute. reflexivity.
Qed.

(* ===================================================================== *)
(** * Frame reasoning *)
(* ===================================================================== *)

Lemma earliest_In (l : list Timer) (t : Timer) : earliest l = Some t -> In t l.
Proof.
  revert t. induction l as [|a l IH]; intros t H; cbn in H; [discriminate|].
  destruct (earliest l) as [u|].
  - destruct (due u <? due a); injection H as <-; [right; now apply IH | now left].
  - injection H as <-. now left.
Qed.

Section Frame.

Context {P : World -> Prop}
        {okWrite : (Element -> Element) -> Prop}
        {okEvent : Event -> Prop}
        {okSession : (AmbientSession -> AmbientSession) -> Prop}.
Hypothesis HI : Insensitive P okWrite okEvent okSession.

Lemma keeps_ret {A} (a : A) : keeps P (ret a).
Proof. intros w H. exact H. Qed.

Lemma keeps_throw {A} (e : string) : keeps P (@throw A e).
Proof. intros w H. exact H. Qed.

Lemma keeps_bind {A B} (m : JS A) (f : A -> JS B) :
  keeps P m -> (forall a, keeps P (f a)) -> keeps P (bind m f).
Proof.
  intros Hm Hf w H. unfold bind. specialize (Hm w H).
  destruct (m w) as [a w'|e w']; cbn in *.
  - now apply Hf.
  - exact Hm.
Qed.

Lemma keeps_gets_bind {A B} (g : World -> A) (f : A -> JS B) :
  (forall w, P w -> P (world_of (f (g w) w))) -> keeps P (bind (gets g) f).
Proof. intros Hf w H. unfold bind, gets. now apply Hf. Qed.

Lemma keeps_gets {A} (g : World -> A) : keeps P (gets g).
Proof. intros w H. exact H. Qed.

Lemma keeps_try_catch {A} (m : JS A) (handler : string -> JS A) :
  keeps P m -> (forall e, keeps P (handler e)) -> keeps P (try_catch m handler).
Proof.
  intros Hm Hh w H. unfold try_catch. specialize (Hm w H).
  destruct (m w) as [a w'|e w']; cbn in *.
  - exact Hm.
  - now apply Hh.
Qed.

Lemma keeps_write (h : nat) (f : Element -> Element) :
  okWrite f -> keeps P (write h f).
Proof. intros Hf w H. now apply (ins_write _ _ _ _ HI). Qed.

Lemma keeps_record (e : Event) : okEvent e -> keeps P (record e).
Proof. intros He w H. now apply (ins_event _ _ _ _ HI). Qed.

Lemma keeps_console_warn (msg : string) : keeps P (console_warn msg).
Proof. intros w H. now apply (ins_console _ _ _ _ HI). Qed.

Lemma keeps_Math_random : keeps P Math_random.
Proof. intros w H. now apply (ins_randomPos _ _ _ _ HI). Qed.

Lemma keeps_add_timer (p : option Z) (cb : Callback) (ms : Z) :
  keeps P (add_timer p cb ms).
Proof.
  intros w H. now apply (ins_add_timer _ _ _ _ HI).
Qed.

Lemma keeps_clearTimeout (id : nat) : keeps P (clearTimeout id).
Proof. intros w H. now apply (ins_clear _ _ _ _ HI). Qed.

Lemma keeps_update_session (s : nat) (f : AmbientSession -> AmbientSession) :
  okSession f -> keeps P (update_session s f).
Proof. intros Hf w H. now apply (ins_session _ _ _ _ HI). Qed.

Lemma keeps_update_container (h : nat) (f : Container -> Container) :
  keeps P (update_container h f).
Proof. intros w H. now apply (ins_containers _ _ _ _ HI). Qed.

Lemma keeps_set_cleanup (c : option AmbientCleanup) :
  keeps P (modify (with_ambientCleanup c)).
Proof. intros w H. now apply (ins_ambientCleanup _ _ _ _ HI). Qed.

Lemma keeps_when_present (o : option nat) (f : nat -> JS unit) :
  (forall h, keeps P (f h)) -> keeps P (when_present o f).
Proof. intros Hf. destruct o; [apply Hf | apply keeps_ret]. Qed.

Lemma keeps_delay (ms : Z) (k : Kont) : keeps P (delay ms k).
Proof. apply keeps_bind; [apply keeps_add_timer | intros; apply keeps_ret]. Qed.

(** The flash effect engine, for properties that tolerate what it
    writes. *)
Hypothesis ok_opacity : forall v, okWrite (set_opacity v).
Hypothesis ok_resolved : forall tag, okEvent (EvResolved tag).
Hypothesis ok_flash : forall overlay i, okEvent (EvFlash overlay i).
Hypothesis ok_flicker : forall overlay, okEvent (EvFlicker overlay).
Hypothesis ok_arm :
  forall id, okSession (fun x => mkAmbientSession (isRunning x) (Some id)).

Lemma keeps_scheduleNext (s overlay : nat) : keeps P (scheduleNext s overlay).
Proof.
  apply keeps_bind; [apply keeps_gets|]. intros running.
  destruct (negb running); [apply keeps_ret|].
  apply keeps_bind.
  { apply keeps_bind; [apply keeps_Math_random | intros; apply keeps_ret]. }
  intros interval. apply keeps_bind; [apply keeps_add_timer|].
  intros id. now apply keeps_update_session.
Qed.

Lemma keeps_resume (k : Kont) : keeps P (resume k).
Proof.
  induction k as [|tag|s overlay|point overlay k IH]; cbn [resume].
  - apply keeps_ret.
  - now apply keeps_record.
  - apply keeps_scheduleNext.
  - destruct point;
      try (apply keeps_bind;
           [now apply keeps_write | intros; apply keeps_delay]).
    + apply keeps_bind; [apply keeps_Math_random|]. intros r.
      destruct (JSNumber.gt r (JSNumber.decimal 1 2)); apply keeps_delay.
    + exact IH.
Qed.

Lemma keeps_flickerLightning (overlay : nat) (k : Kont) :
  keeps P (flickerLightning overlay k).
Proof.
  apply keeps_bind; [now apply keeps_record|]. intros _.
  apply keeps_bind; [apply keeps_gets|]. intros reduced.
  destruct reduced; [apply keeps_resume|].
  apply keeps_bind; [now apply keeps_write | intros; apply keeps_delay].
Qed.

(** A flash of an intensity that has no tint. *)
Lemma keeps_flash_untinted (overlay : nat) (i : FlashIntensity) (k : Kont) :
  i <> full ->
  keeps P (flashLightning overlay i k) /\ keeps P (flash_off overlay i k).
Proof.
  intros Hi. split.
  - apply keeps_bind; [now apply keeps_record|]. intros _.
    apply keeps_bind; [apply keeps_gets|]. intros reduced.
    destruct reduced; [apply keeps_resume|].
    destruct i; try congruence; cbn;
      (apply keeps_bind; [apply keeps_ret|]; intros _;
       apply keeps_bind; [now apply keeps_write|]; intros _;
       apply keeps_bind; [apply keeps_add_timer | intros; apply keeps_ret]).
  - destruct i; try congruence; unfold flash_off; cbn;
      (apply keeps_bind; [now apply keeps_write|]; intros _;
       apply keeps_bind; [apply keeps_ret|]; intros _;
       apply keeps_bind; [apply keeps_add_timer | intros; apply keeps_ret]).
Qed.

(** Every callback, for properties that tolerate every write and
    every event but the firing of an ambient session, which is left to
    the hypothesis [ok_frame]. *)
Hypothesis ok_write : forall f, okWrite f.
Hypothesis ok_shake : forall el ms, okEvent (EvShake el ms).
Hypothesis ok_slash : forall el, okEvent (EvSlash el).
Hypothesis ok_burst : forall el, okEvent (EvBurst el).
Hypothesis ok_glitch : forall el ms, okEvent (EvGlitch el ms).
Hypothesis ok_frame : forall s overlay, keeps P (ambient_frame s overlay).

Lemma keeps_flashLightning (overlay : nat) (i : FlashIntensity) (k : Kont) :
  keeps P (flashLightning overlay i k).
Proof.
  apply keeps_bind; [now apply keeps_record|]. intros _.
  apply keeps_bind; [apply keeps_gets|]. intros reduced.
  destruct reduced; [apply keeps_resume|].
  cbv zeta. apply keeps_bind.
  { destruct (blueTint (INTENSITY_CONFIG i));
      [now apply keeps_write | apply keeps_ret]. }
  intros _. apply keeps_bind; [now apply keeps_write|]. intros _.
  apply keeps_bind; [apply keeps_add_timer | intros; apply keeps_ret].
Qed.

Lemma keeps_flash_off (overlay : nat) (i : FlashIntensity) (k : Kont) :
  keeps P (flash_off overlay i k).
Proof.
  unfold flash_off. cbv zeta.
  apply keeps_bind; [now apply keeps_write|]. intros _.
  apply keeps_bind.
  { destruct (blueTint (INTENSITY_CONFIG i));
      [now apply keeps_write | apply keeps_ret]. }
  intros _. apply keeps_bind; [apply keeps_add_timer | intros; apply keeps_ret].
Qed.

Lemma keeps_trigger (e : Event) (el : nat) (cls : string) (cb : Callback) (ms : Z) :
  okEvent e ->
  keeps P (record e ;; write el (classList_add cls) ;;
           let* _ := setTimeout cb ms in ret tt).
Proof.
  intros He. apply keeps_bind; [now apply keeps_record|]. intros _.
  apply keeps_bind; [now apply keeps_write|]. intros _.
  apply keeps_bind; [apply keeps_add_timer | intros; apply keeps_ret].
Qed.

Lemma keeps_start_ambient (overlay title : nat) :
  keeps P (start_ambient overlay title).
Proof.
  apply keeps_bind.
  { apply keeps_bind.
    { intros w H. now apply (ins_new_session _ _ _ _ HI). }
    intros s. apply keeps_bind; [apply keeps_scheduleNext | intros; apply keeps_ret]. }
  intros cleanup. apply keeps_bind; [apply keeps_set_cleanup|]. intros _.
  apply keeps_bind; [apply keeps_add_timer|]. intros id.
  apply keeps_set_cleanup.
Qed.

Lemma keeps_exec (cb : Callback) : keeps P (exec cb).
Proof.
  destruct cb; cbn [exec].
  - now apply keeps_write.
  - now apply keeps_write.
  - now apply keeps_trigger.
  - apply keeps_bind; [apply keeps_Math_random|]. intros r.
    destruct (JSNumber.gt r (JSNumber.decimal 7 10));
      [now apply keeps_trigger | apply keeps_ret].
  - apply keeps_flash_off.
  - apply keeps_resume.
  - apply keeps_bind; [apply keeps_gets|]. intros running.
    destruct (negb running); [apply keeps_ret|].
    apply keeps_bind; [apply keeps_add_timer | intros; apply keeps_ret].
  - apply ok_frame.
  - apply keeps_bind.
    + apply keeps_when_present. intros h. now apply keeps_write.
    + intros _. destruct done; [apply keeps_ret | | ]; now apply keeps_write.
  - destruct handle; [apply keeps_update_container | apply keeps_ret].
  - apply keeps_flickerLightning.
  - now apply keeps_trigger.
  - apply keeps_flashLightning.
  - apply keeps_when_present. intros h. now apply keeps_trigger.
  - apply keeps_when_present. intros h. now apply keeps_trigger.
  - apply keeps_gets_bind. intros w H.
    destruct (document_body (document w)); [now apply keeps_trigger | exact H].
  - destruct handle; [apply keeps_update_container | apply keeps_ret].
  - now apply keeps_write.
  - apply keeps_when_present. intros h.
    apply keeps_bind; [now apply keeps_write|]. intros _. now apply keeps_trigger.
  - apply keeps_bind; [apply keeps_add_timer | intros; apply keeps_ret].
  - apply keeps_start_ambient.
  - apply keeps_resume.
Qed.

(** The event loop. *)
Lemma keeps_step (w w' : World) : step w = Some w' -> P w -> P w'.
Proof.
  unfold step. destruct (earliest (timers w)) as [t|] eqn:Ht; [|discriminate].
  intros H HP. injection H as <-.
  assert (H1 : P (with_timers (dequeue t (timers w))
                    (with_now (Z.max (now w) (due t)) w))).
  { apply (ins_dequeue _ _ _ _ HI); [now apply earliest_In | exact HP]. }
  pose proof (keeps_exec (callback t) _ H1) as H2.
  destruct (exec (callback t) _) as [a w2|e w2]; cbn in H2.
  - exact H2.
  - now apply (ins_console _ _ _ _ HI).
Qed.

Lemma keeps_steps (n : nat) (w : World) : P w -> P (steps n w).
Proof.
  revert w. induction n as [|n IH]; intros w HP; [exact HP|].
  rewrite steps_succ. destruct (step w) as [w'|] eqn:Hs; [|exact HP].
  apply IH. now apply (keeps_step w w').
Qed.

End Frame.

(** ** The tint of the overlay *)

Lemma backgrounds_update (h : nat) (f : Element -> Element) (d : Document) :
  keeps_background f ->
  map background (nodes (update_element h f d)) = map background (nodes d).
Proof.
  intros Hf. unfold update_element. cbn [nodes].
  generalize (nodes d) as l. revert h.
  induction h as [|h IH]; intros [|e l]; cbn; try reflexivity.
  - now rewrite Hf.
  - now rewrite IH.
Qed.

Lemma backgrounds_insensitive (b : list string) :
  Insensitive (fun w => backgrounds w = b) keeps_background
    (fun _ => True) (fun _ => True).
Proof.
  constructor; intros; try assumption.
  unfold backgrounds in *. cbn. now rewrite backgrounds_update.
Qed.

Lemma set_opacity_keeps_background (v : string) : keeps_background (set_opacity v).
Proof. intros e. reflexivity. Qed.

(** C10.  The tint flag is set for [full] only.  For [subtle] and
    [medium], neither the call of [flashLightning], nor its flash-off
    callback, nor the continuation it resolves leaves any element's
    background changed, whatever the state of the world; and when such a
    flash runs alone, the backgrounds are the same after any number of
    turns of the event loop, in particular once the flash has resolved. *)
Theorem C10_subtle_medium_keep_background :
  (forall i, blueTint (INTENSITY_CONFIG i) = true <-> i = full)
  /\ (forall i overlay k w, i <> full ->
        backgrounds (world_of (flashLightning overlay i k w)) = backgrounds w
        /\ backgrounds (world_of (flash_off overlay i k w)) = backgrounds w
        /\ backgrounds (world_of (resume k w)) = backgrounds w)
  /\ (forall i overlay tag w n, i <> full -> timers w = [] ->
        backgrounds (steps n (world_of (flashLightning overlay i (KProbe tag) w)))
        = backgrounds w).
Proof.
  split; [intros []; cbn; split; intros; congruence|].
  split.
  - intros i overlay k w Hi.
    pose proof (backgrounds_insensitive (backgrounds w)) as HI.
    destruct (keeps_flash_untinted HI set_opacity_keeps_background
                (fun _ => I) (fun _ _ => I) (fun _ => I) overlay i k Hi) as [H1 H2].
    split; [now apply H1|]. split; [now apply H2|].
    now apply (keeps_resume HI set_opacity_keeps_background (fun _ => I) (fun _ => I)).
  - intros i overlay tag w n Hi Ht.
    destruct w as [doc rm t0 nid ts rnd rp con init cs ss ac tr].
    cbn in Ht. subst ts.
    assert (Hb : forall p q,
               map background
                 (nodes (update_element overlay (set_opacity p)
                           (update_element overlay (set_opacity q) doc)))
               = map background (nodes doc)).
    { intros p q.
      now rewrite !backgrounds_update by apply set_opacity_keeps_background. }
    destruct rm.
    + unfold flashLightning. cbn. rewrite steps_idle by reflexivity. reflexivity.
    + destruct i; try congruence; cbn; flat;
        (destruct n as [|[|[|n]]];
         [ rewrite steps_zero; unfold backgrounds; cbn;
           now rewrite backgrounds_update by apply set_opacity_keeps_background
         | run I; unfold backgrounds; cbn; apply Hb
         | run I; unfold backgrounds; cbn; apply Hb
         | do 2 one_turn I; rewrite steps_idle by reflexivity;
           unfold backgrounds; cbn; apply Hb ]).
Qed.

Lemma C10_subtle_medium_keep_background_witness :
  medium <> full
  /\ timers (in_motion low_draws) = []
  /\ backgrounds
       (steps 2 (world_of (flashLightning page_overlay medium (KProbe "flash")
                             (in_motion low_draws))))
     = backgrounds (in_motion low_draws).
Proof.
  split; [discriminate|]. split; [reflexivity|].
  destruct C10_subtle_medium_keep_background as (_ & _ & H).
  apply H; [discriminate | reflexivity].
Defined.

(* ===================================================================== *)
(** * Properties of the orchestrator: the bypass paths *)
(* ===================================================================== *)

Lemma find_index_Some {A} (p : A -> bool) (l : list A) (i : nat) :
  find_index p l = Some i -> exists x, l !! i = Some x /\ p x = true.
Proof.
  revert i. induction l as [|a l IH]; intros i H; cbn in H; [discriminate|].
  destruct (p a) eqn:Hp.
  - injection H as <-. now exists a.
  - destruct (find_index p l) as [j|]; [|discriminate].
    injection H as <-. destruct (IH j eq_refl) as (x & Hx & Hpx). now exists x.
Qed.

Lemma getElementById_in (id : string) (d : Document) (h : nat) :
  getElementById id d = Some h -> is_Some (nodes d !! h).
Proof.
  intros H. destruct (find_index_Some _ _ _ H) as (x & Hx & _). now exists x.
Qed.

Lemma querySelector_in (cls : string) (d : Document) (h : nat) :
  querySelector cls d = Some h -> is_Some (nodes d !! h).
Proof.
  intros H. destruct (find_index_Some _ _ _ H) as (x & Hx & _). now exists x.
Qed.

Lemma update_present_in (o : option nat) (f : Element -> Element)
  (d : Document) (h : nat) :
  is_Some (nodes d !! h) -> is_Some (nodes (update_present o f d) !! h).
Proof.
  intros H. destruct o as [h'|]; [|exact H]. cbn.
  destruct (decide (h' = h)) as [->|Hne].
  - rewrite lookup_update_eq. destruct H as [e ->]. now eexists.
  - now rewrite lookup_update_ne.
Qed.

(** Writing [f] through the handle itself establishes [P]. *)
Lemma element_has_update (P : Element -> Prop) (h : nat)
  (f : Element -> Element) (d : Document) :
  is_Some (nodes d !! h) -> (forall e, P (f e)) ->
  element_has P h (update_present (Some h) f d).
Proof.
  intros [e He] Hf. exists (f e). split; [|apply Hf].
  cbn. now rewrite lookup_update_eq, He.
Qed.

(** Writing [f] through any handle preserves [P] when [f] does. *)
Lemma element_has_kept (P : Element -> Prop) (h : nat) (o : option nat)
  (f : Element -> Element) (d : Document) :
  element_has P h d -> (forall e, P e -> P (f e)) ->
  element_has P h (update_present o f d).
Proof.
  intros (e & He & HP) Hf. destruct o as [h'|]; [|now exists e]. cbn.
  destruct (decide (h' = h)) as [->|Hne].
  - exists (f e). split; [now rewrite lookup_update_eq, He | now apply Hf].
  - exists e. split; [now rewrite lookup_update_ne | exact HP].
Qed.

(** Writing through another handle changes nothing behind [h]. *)
Lemma element_has_elsewhere (P : Element -> Prop) (h : nat) (o : option nat)
  (f : Element -> Element) (d : Document) :
  element_has P h d -> o <> Some h ->
  element_has P h (update_present o f d).
Proof.
  intros (e & He & HP) Hne. destruct o as [h'|]; [|now exists e]. cbn.
  exists e. split; [|exact HP]. rewrite lookup_update_ne; [exact He|congruence].
Qed.

Lemma showContentImmediately_spec (w : World) :
  showContentImmediately w = Returned tt (with_document (revealed (document w)) w).
Proof.
  destruct w as [doc rm t0 nid ts rnd rp con init cs ss ac tr].
  unfold showContentImmediately, revealed. cbn.
  destruct (getElementById "loading" doc), (getElementById "content" doc),
    (querySelector "title" doc), (querySelector "tagline" doc),
    (querySelector "coming-soon" doc); reflexivity.
Qed.

(** Writing [f] through the handle itself turns [Q] into [P]. *)
Lemma element_has_write (P Q : Element -> Prop) (h : nat)
  (f : Element -> Element) (d : Document) :
  element_has Q h d -> (forall e, Q e -> P (f e)) ->
  element_has P h (update_present (Some h) f d).
Proof.
  intros (e & He & HQ) Hf. exists (f e). split; [|now apply Hf].
  cbn. now rewrite lookup_update_eq, He.
Qed.

Ltac present :=
  repeat apply update_present_in;
  first [ eapply getElementById_in; eassumption
        | eapply querySelector_in; eassumption ].

Ltac kept := apply element_has_kept; [| intros ? ?; intuition (cbn; auto)].

Lemma lookup_update_present (o : option nat) (f : Element -> Element)
  (d : Document) (i : nat) :
  nodes (update_present o f d) !! i = apply_at o f i <$> nodes d !! i.
Proof.
  unfold apply_at. destruct o as [h|]; cbn.
  - destruct (decide (Some h = Some i)) as [E|E].
    + injection E as ->. apply lookup_update_eq.
    + rewrite lookup_update_ne by congruence. now destruct (nodes d !! i).
  - destruct (decide (None = Some i)); [discriminate|]. now destruct (nodes d !! i).
Qed.

(** Every element after the pass: the writes through its handle, applied
    to what was there. *)
Lemma revealed_lookup (d : Document) (i : nat) :
  nodes (revealed d) !! i
  = (apply_at (querySelector "coming-soon" d) (set_opacity "1") i
     ∘ apply_at (querySelector "tagline" d) (set_transform "translateY(0)") i
     ∘ apply_at (querySelector "tagline" d) (set_opacity "1") i
     ∘ apply_at (querySelector "title" d) (set_filter "blur(0px)") i
     ∘ apply_at (querySelector "title" d) (set_transform "scale(1)") i
     ∘ apply_at (querySelector "title" d) (set_opacity "1") i
     ∘ apply_at (getElementById "content" d) (set_opacity "1") i
     ∘ apply_at (getElementById "content" d) (classList_remove "hidden") i
     ∘ apply_at (getElementById "loading" d) (set_display "none") i)
    <$> nodes d !! i.
Proof.
  unfold revealed. rewrite !lookup_update_present.
  destruct (nodes d !! i); reflexivity.
Qed.

Lemma revealed_loading (d : Document) (h : nat) :
  getElementById "loading" d = Some h ->
  element_has (fun e => display e = "none") h (revealed d).
Proof.
  intros H. unfold revealed. rewrite H.
  do 8 kept.
  apply element_has_update; [present | reflexivity].
Qed.

Lemma revealed_comingSoon (d : Document) (h : nat) :
  querySelector "coming-soon" d = Some h ->
  element_has (fun e => opacity e = "1") h (revealed d).
Proof.
  intros H. unfold revealed. rewrite H.
  apply element_has_update; [present | reflexivity].
Qed.

Lemma revealed_tagline (d : Document) (h : nat) :
  querySelector "tagline" d = Some h ->
  element_has (fun e => opacity e = "1" /\ transform e = "translateY(0)") h
    (revealed d).
Proof.
  intros H. unfold revealed. rewrite H.
  kept.
  apply (element_has_write _ (fun e => opacity e = "1")); [|intros e He; now split].
  apply element_has_update; [present | reflexivity].
Qed.

Lemma revealed_title (d : Document) (h : nat) :
  querySelector "title" d = Some h ->
  element_has
    (fun e => opacity e = "1" /\ cssFilter e = "blur(0px)"
              /\ transform e = if decide (querySelector "tagline" d = Some h)
                               then "translateY(0)" else "scale(1)")
    h (revealed d).
Proof.
  intros H. unfold revealed. rewrite H.
  destruct (decide (querySelector "tagline" d = Some h)) as [Ht|Ht].
  - rewrite Ht. kept.
    apply (element_has_write _ (fun e => opacity e = "1" /\ cssFilter e = "blur(0px)"));
      [|intros e [? ?]; now repeat split].
    kept.
    apply (element_has_write _ (fun e => opacity e = "1"));
      [|intros e ?; now split].
    kept.
    apply element_has_update; [present | reflexivity].
  - kept.
    do 2 (apply element_has_elsewhere; [|exact Ht]).
    apply (element_has_write _ (fun e => opacity e = "1" /\ transform e = "scale(1)"));
      [|intros e [? ?]; now repeat split].
    apply (element_has_write _ (fun e => opacity e = "1"));
      [|intros e ?; now split].
    apply element_has_update; [present | reflexivity].
Qed.

Lemma bypass_run (w : World) (tag : string) :
  reducedMotion w = true ->
  runEntranceAnimation (KProbe tag) w
  = Returned tt (with_trace (trace w ++ [(now w, EvResolved tag)])
                   (with_document (revealed (document w)) w)).
Proof.
  intros Hrm. unfold runEntranceAnimation, bind, gets. rewrite Hrm.
  rewrite showContentImmediately_spec. reflexivity.
Qed.

(** C1.  With the reduced-motion signal on, [runEntranceAnimation]
    returns within the call, its promise resolving at the instant of the
    call; the world it leaves differs from the one it found only in the
    document and in the trace, which gains the resolution and no effect
    (so no flash, no flicker, no timer, no particle container touched); in
    the document the loading indicator has display "none", the title has
    opacity "1", filter "blur(0px)" and transform "scale(1)" (or
    "translateY(0)" when the title element is also the tagline), the
    tagline has opacity "1" and transform "translateY(0)", and the
    coming-soon marker has opacity "1", each when present.  The pass
    writes no filter to the tagline and neither transform nor filter to
    the coming-soon marker: these are what they were before the call,
    unless the element is also the title, or for the transform also the
    tagline, and then is written as such. *)
Theorem C1_reduced_motion_bypass (w : World) (tag : string) :
  reducedMotion w = true ->
  exists w',
    runEntranceAnimation (KProbe tag) w = Returned tt w'
    /\ w' = with_trace (trace w ++ [(now w, EvResolved tag)])
              (with_document (revealed (document w)) w)
    /\ containers w' = containers w
    /\ timers w' = timers w
    /\ sessions w' = sessions w
    /\ now w' = now w
    /\ trace w' = trace w ++ [(now w, EvResolved tag)]
    /\ (forall h, getElementById "loading" (document w) = Some h ->
          element_has (fun e => display e = "none") h (document w'))
    /\ (forall h, querySelector "title" (document w) = Some h ->
          element_has
            (fun e => opacity e = "1" /\ cssFilter e = "blur(0px)"
                      /\ transform e
                         = if decide (querySelector "tagline" (document w) = Some h)
                           then "translateY(0)" else "scale(1)")
            h (document w'))
    /\ (forall h, querySelector "tagline" (document w) = Some h ->
          element_has (fun e => opacity e = "1" /\ transform e = "translateY(0)") h
            (document w'))
    /\ (forall h, querySelector "coming-soon" (document w) = Some h ->
          element_has (fun e => opacity e = "1") h (document w'))
    /\ (forall h e, querySelector "tagline" (document w) = Some h ->
          nodes (document w) !! h = Some e ->
          element_has
            (fun e' => cssFilter e'
                       = if decide (querySelector "title" (document w) = Some h)
                         then "blur(0px)" else cssFilter e)
            h (document w'))
    /\ (forall h e, querySelector "coming-soon" (document w) = Some h ->
          nodes (document w) !! h = Some e ->
          element_has
            (fun e' => transform e'
                       = (if decide (querySelector "tagline" (document w) = Some h)
                          then "translateY(0)"
                          else if decide (querySelector "title" (document w) = Some h)
                               then "scale(1)" else transform e)
                       /\ cssFilter e'
                          = if decide (querySelector "title" (document w) = Some h)
                            then "blur(0px)" else cssFilter e)
            h (document w')).
Proof.
  intros Hrm. eexists. split; [now apply bypass_run|].
  do 6 (split; [reflexivity|]). cbn [document with_trace with_document].
  split; [apply revealed_loading|]. split; [apply revealed_title|].
  split; [apply revealed_tagline|]. split; [apply revealed_comingSoon|].
  split.
  - intros h e Hg He. eexists. split.
    + rewrite revealed_lookup, He. reflexivity.
    + unfold apply_at, compose.
      repeat (destruct (decide _) as [?|?]); try congruence; reflexivity.
  - intros h e Hs He. eexists. split.
    + rewrite revealed_lookup, He. reflexivity.
    + unfold apply_at, compose.
      repeat (destruct (decide _) as [?|?]); try congruence; split; reflexivity.
Qed.

Lemma C1_reduced_motion_bypass_witness :
  reducedMotion at_rest = true
  /\ exists w',
       runEntranceAnimation (KProbe "entrance") at_rest = Returned tt w' /\
       timers w' = [] /\ containers w' = [] /\
       trace w' = [(0, EvResolved "entrance")] /\
       option_map display (nodes (document w') !! 1%nat) = Some "none" /\
       opacity_at 3 w' = Some "1" /\ opacity_at 4 w' = Some "1" /\
       opacity_at 5 w' = Some "1" /\
       element_has (fun e => transform e = "" /\ cssFilter e = "") 5 (document w').
Proof.
  split; [reflexivity|].
  destruct (C1_reduced_motion_bypass at_rest "entrance" eq_refl)
    as (w' & Hrun & Hw & _ & _ & _ & _ & _ & _ & _ & _ & _ & _ & Hcs).
  exists w'. split; [exact Hrun|].
  specialize (Hcs 5%nat (blank "" ["coming-soon"]) eq_refl eq_refl).
  rewrite Hw in *. do 7 (split; [vm_compute; reflexivity|]). exact Hcs.
Defined.

(** On a page whose coming-soon marker carries a transform and a filter
    of its own, the bypass leaves the marker at opacity "1" with that
    transform and that filter, and the tagline with the filter it had:
    neither is neutral. *)
Lemma C1_counterexample :
  reducedMotion styled_at_rest = true
  /\ exists w',
       runEntranceAnimation (KProbe "entrance") styled_at_rest = Returned tt w'
       /\ nodes (document w') !! 5%nat
          = Some (mkElement "" ["coming-soon"] "" "1" "scale(0.8)" "blur(5px)" "" "" "")
       /\ nodes (document w') !! 4%nat
          = Some (mkElement "" ["tagline"] "" "1" "translateY(0)" "blur(5px)" "" "" "")
       /\ ~ element_has (fun e => transform e = "scale(1)" \/ transform e = "none"
                                  \/ transform e = "")
            5 (document w')
       /\ ~ element_has (fun e => cssFilter e = "blur(0px)" \/ cssFilter e = "none"
                                  \/ cssFilter e = "")
            5 (document w').
Proof.
  split; [reflexivity|]. eexists. split; [vm_compute; reflexivity|].
  cbn [document].
  split; [reflexivity|]. split; [reflexivity|].
  split; intros (e & He & H); vm_compute in He; injection He as <-;
    cbn in H; intuition discriminate.
Qed.

(** C5.  With motion allowed, when the content container, the title, the
    tagline, the coming-soon marker or the lightning overlay is not in
    the document, [runEntranceAnimation] returns (it does not throw),
    logs one warning, and leaves exactly what the reduced-motion bypass
    leaves: the same document, and the same timers, particle containers,
    ambient sessions and trace, the trace having gained the resolution of
    the promise and no effect. *)
Theorem C5_missing_required_element (w : World) (tag : string) :
  reducedMotion w = false -> missing_required (document w) ->
  exists w' bypass,
    runEntranceAnimation (KProbe tag) w = Returned tt w'
    /\ runEntranceAnimation (KProbe tag) (with_reducedMotion true w)
       = Returned tt bypass
    /\ w' = with_reducedMotion false
              (with_console (console w ++ [REQUIRED_MISSING]) bypass)
    /\ document w' = revealed (document w)
    /\ timers w' = timers w
    /\ containers w' = containers w
    /\ trace w' = trace w ++ [(now w, EvResolved tag)].
Proof.
  intros Hrm Hmiss.
  pose proof (bypass_run (with_reducedMotion true w) tag eq_refl) as Hbypass.
  do 2 eexists. split; [|split; [exact Hbypass|]].
  - unfold runEntranceAnimation, bind, gets. rewrite Hrm.
    unfold missing_required in Hmiss.
    destruct (getElementById "content" (document w)) eqn:Hc,
      (querySelector "title" (document w)) eqn:Ht,
      (querySelector "tagline" (document w)) eqn:Hg,
      (querySelector "coming-soon" (document w)) eqn:Hs,
      (getElementById "lightning-overlay" (document w)) eqn:Ho;
      try (exfalso; intuition congruence);
      unfold console_warn, modify; rewrite showContentImmediately_spec;
      reflexivity.
  - destruct w as [doc rm t0 nid ts rnd rp con init cs ss ac tr].
    cbn in Hrm. subst rm. repeat split.
Qed.

Lemma C5_missing_required_element_witness :
  reducedMotion (initial untitled_page false low_draws InitUndefined) = false
  /\ missing_required (document (initial untitled_page false low_draws InitUndefined))
  /\ exists w',
       runEntranceAnimation (KProbe "entrance")
         (initial untitled_page false low_draws InitUndefined) = Returned tt w'
       /\ timers w' = [] /\ trace w' = [(0, EvResolved "entrance")]
       /\ console w' = [REQUIRED_MISSING]
       /\ opacity_at 3 w' = Some "1" /\ opacity_at 4 w' = Some "1".
Proof.
  assert (Hmiss : missing_required
                    (document (initial untitled_page false low_draws InitUndefined)))
    by (right; left; reflexivity).
  split; [reflexivity|]. split; [exact Hmiss|].
  destruct (C5_missing_required_element
              (initial untitled_page false low_draws InitUndefined) "entrance"
              eq_refl Hmiss) as (w' & bypass & Hrun & _ & Heq & Hdoc & Htm & _ & Htr).
  exists w'. split; [exact Hrun|]. split; [exact Htm|]. split; [exact Htr|].
  split; [rewrite Heq; reflexivity|].
  unfold opacity_at. rewrite Hdoc. vm_compute. split; reflexivity.
Defined.

(* ===================================================================== *)
(** * Properties of the orchestrator: the timeline *)
(* ===================================================================== *)

Lemma timeline_timers_app (n : nat) (t0 : Z) (l r : list Child) :
  timeline_timers n t0 (l ++ r)
  = timeline_timers n t0 l ++ timeline_timers (n + length l) t0 r.
Proof.
  revert n. induction l as [|c l IH]; intros n; cbn.
  - now rewrite Nat.add_0_r.
  - rewrite IH. now rewrite Nat.add_succ_r.
Qed.

(** What [runEntranceAnimation] schedules once the required elements are
    found: possibly the fade of the loading indicator, then one timer per
    child of the timeline, then the timeline's [onComplete]. *)
Lemma entrance_schedule (w : World) (k : Kont)
  (content title tagline comingSoon overlay : nat) :
  reducedMotion w = false ->
  getElementById "content" (document w) = Some content ->
  querySelector "title" (document w) = Some title ->
  querySelector "tagline" (document w) = Some tagline ->
  querySelector "coming-soon" (document w) = Some comingSoon ->
  getElementById "lightning-overlay" (document w) = Some overlay ->
  exists w' fade n,
    runEntranceAnimation k w = Returned tt w'
    /\ timers w'
       = timers w ++ fade
         ++ timeline_timers n (now w)
              (place_steps None
                 (entrance_steps title tagline comingSoon overlay
                    (querySelector "slash-line" (document w))
                    (getElementById "burst-overlay" (document w))
                    (particles_handle w)))
         ++ [mkTimer (20 + n) (now w + 4100) None (TlComplete k)]
    /\ now w' = now w /\ trace w' = trace w.
Proof.
  intros Hrm Hc Ht Hg Hs Ho.
  destruct w as [doc rm t0 nid ts rnd rp con init cs ss ac tr].
  cbn in Hrm, Hc, Ht, Hg, Hs, Ho. subst rm.
  change 4100 with
    (total_duration
       (place_steps None
          (entrance_steps title tagline comingSoon overlay
             (querySelector "slash-line" doc) (getElementById "burst-overlay" doc)
             (particles_handle
                (mkWorld doc false t0 nid ts rnd rp con init cs ss ac tr))))).
  unfold runEntranceAnimation, bind, gets, particles_handle. cbn.
  rewrite Hc, Ht, Hg, Hs, Ho.
  destruct (getElementById "loading" doc) as [loading|],
    (getElementById "slash-overlay" doc) as [slashOverlay|],
    (getElementById "particles" doc) as [pc|], init as [c| |err].
  all: first
    [ eexists; exists [], nid;
      split; [cbn; flat; reflexivity|];
      cbn; rewrite <- ?app_assoc; repeat split; reflexivity
    | eexists; eexists [_], (S nid);
      split; [cbn; flat; reflexivity|];
      cbn; rewrite <- ?app_assoc; repeat split; reflexivity ].
Qed.

Ltac in_list :=
  cbn [timers]; rewrite <- ?app_assoc; rewrite ?map_app; cbn [map callback app];
  apply in_or_app; right; repeat first [left; reflexivity | right].

(** C8.  With motion allowed and the required elements and the particle
    container element present, an engine that fails to load does not make
    [runEntranceAnimation] throw: the call returns, has logged the
    failure, and has done exactly what it does when the engine yields no
    container, the timeline being scheduled with an absent particle
    handle up to its completion; and the two particle callbacks of that
    timeline return at once without changing anything. *)
Theorem C8_particle_failure_absorbed (w : World) (tag err : string)
  (content title tagline comingSoon overlay pc : nat) :
  reducedMotion w = false ->
  getElementById "content" (document w) = Some content ->
  querySelector "title" (document w) = Some title ->
  querySelector "tagline" (document w) = Some tagline ->
  querySelector "coming-soon" (document w) = Some comingSoon ->
  getElementById "lightning-overlay" (document w) = Some overlay ->
  getElementById "particles" (document w) = Some pc ->
  initOutcome w = InitFails err ->
  exists w' u',
    runEntranceAnimation (KProbe tag) w = Returned tt w'
    /\ runEntranceAnimation (KProbe tag) (with_initOutcome InitUndefined w)
       = Returned tt u'
    /\ w' = with_initOutcome (InitFails err)
              (with_console (console w ++ [String.append PARTICLES_FAILED err]) u')
    /\ console u' = console w
    /\ containers w' = containers w
    /\ In (TlAccelerate None) (map callback (timers w'))
    /\ In (TlReset None) (map callback (timers w'))
    /\ In (TlComplete (KProbe tag)) (map callback (timers w'))
    /\ (forall v, exec (TlAccelerate None) v = Returned tt v
                  /\ exec (TlReset None) v = Returned tt v).
Proof.
  intros Hrm Hc Ht Hg Hs Ho Hp Hi.
  destruct w as [doc rm t0 nid ts rnd rp con init cs ss ac tr].
  cbn in Hrm, Hc, Ht, Hg, Hs, Ho, Hp, Hi. subst rm init.
  unfold runEntranceAnimation, bind, gets. cbn.
  rewrite Hc, Ht, Hg, Hs, Ho, Hp.
  destruct (getElementById "loading" doc) as [loading|],
    (getElementById "slash-overlay" doc) as [slashOverlay|].
  all: do 2 eexists.
  all: split; [cbn; flat; reflexivity|].
  all: split; [cbn; flat; reflexivity|].
  all: split; [reflexivity|].
  all: split; [reflexivity|].
  all: split; [reflexivity|].
  all: split; [in_list|].
  all: split; [in_list|].
  all: split; [in_list|].
  all: intros v; split; reflexivity.
Qed.

Lemma C8_particle_failure_absorbed_witness :
  reducedMotion engine_down = false
  /\ getElementById "content" (document engine_down) = Some 2%nat
  /\ querySelector "title" (document engine_down) = Some 3%nat
  /\ querySelector "tagline" (document engine_down) = Some 4%nat
  /\ querySelector "coming-soon" (document engine_down) = Some 5%nat
  /\ getElementById "lightning-overlay" (document engine_down) = Some 6%nat
  /\ getElementById "particles" (document engine_down) = Some 10%nat
  /\ initOutcome engine_down = InitFails "tsParticles"
  /\ exists w',
       runEntranceAnimation (KProbe "entrance") engine_down = Returned tt w'
       /\ console w' = [String.append PARTICLES_FAILED "tsParticles"]
       /\ In (TlComplete (KProbe "entrance")) (map callback (timers w'))
       /\ resolved_at "entrance" (trace (world_at 200 4000 w')) = None
       /\ resolved_at "entrance" (trace (world_at 200 4100 w')) = Some 4100
       /\ opacity_at 3 (world_at 200 4100 w') = Some "1".
Proof.
  do 8 (split; [reflexivity|]).
  destruct (C8_particle_failure_absorbed engine_down "entrance" "tsParticles"
              2%nat 3%nat 4%nat 5%nat 6%nat 10%nat
              eq_refl eq_refl eq_refl eq_refl eq_refl eq_refl eq_refl eq_refl)
    as (w' & u' & Hrun & _ & _ & _ & _ & _ & _ & Hdone & _).
  exists w'. split; [exact Hrun|].
  split; [|split; [exact Hdone|]].
  all: assert (Hw : w' = world_of (runEntranceAnimation (KProbe "entrance") engine_down))
    by (rewrite Hrun; reflexivity).
  all: rewrite Hw; vm_compute; repeat split.
Defined.

(* ===================================================================== *)
(** * Properties of the ambient session *)
(* ===================================================================== *)

Lemma run_cleanup_spec (c : AmbientCleanup) (w : World) :
  exists w',
    run_cleanup c w = Returned tt w'
    /\ document w'
       = update_element (cleanup_overlay c) (set_background "")
           (update_element (cleanup_overlay c) (set_opacity "0") (document w))
    /\ ambientCleanup w' = ambientCleanup w.
Proof.
  revert w. induction c as [s overlay|c IH gi]; intros w.
  - destruct w as [doc rm t0 nid ts rnd rp con init cs ss ac tr].
    cbn. unfold stop_session, bind, update_session, modify, gets. cbn.
    destruct (session_timeout s _); cbn; eexists; repeat split.
  - destruct (IH w) as (w1 & Hrun & Hdoc & Hac).
    cbn [run_cleanup cleanup_overlay]. unfold bind. rewrite Hrun.
    eexists. split; [reflexivity|]. split; [exact Hdoc | exact Hac].
Qed.

(** C6, as amended.  [stopAmbientLightning] always returns (it cannot
    throw) and leaves no cleanup stored, so that a second call in a row
    returns the world as it finds it: nothing is cancelled twice.  When
    no cleanup is stored (the session was never started, or was stopped
    already) the call changes nothing, the overlay included.  When one is
    stored, the call leaves the overlay it resets at opacity "0" and with
    an empty background. *)
Theorem C6_stop_is_idempotent (w : World) :
  exists w1,
    stopAmbientLightning w = Returned tt w1
    /\ ambientCleanup w1 = None
    /\ stopAmbientLightning w1 = Returned tt w1
    /\ (ambientCleanup w = None -> w1 = w)
    /\ (forall c, ambientCleanup w = Some c ->
          (cleanup_overlay c < length (nodes (document w)))%nat ->
          opacity_at (cleanup_overlay c) w1 = Some "0"
          /\ background_at (cleanup_overlay c) w1 = Some "").
Proof.
  unfold stopAmbientLightning, bind, gets.
  destruct (ambientCleanup w) as [c|] eqn:Hc.
  - destruct (run_cleanup_spec c w) as (w' & Hrun & Hdoc & _).
    rewrite Hrun. exists (with_ambientCleanup None w').
    split; [reflexivity|]. split; [reflexivity|]. split; [reflexivity|].
    split; [discriminate|].
    intros c' Hc' Hov. injection Hc' as <-.
    unfold opacity_at, background_at. cbn [document with_ambientCleanup].
    rewrite Hdoc, !lookup_update_eq.
    destruct (lookup_lt_is_Some_2 _ _ Hov) as [e ->]. split; reflexivity.
  - exists w. rewrite Hc.
    do 4 (split; [reflexivity|]). discriminate.
Qed.

Lemma C6_stop_is_idempotent_witness :
  ambientCleanup ambient_running = Some (StopWithInterval (StopSession 0 6) 46)
  /\ (6 < length (nodes (document ambient_running)))%nat
  /\ exists w1,
       stopAmbientLightning ambient_running = Returned tt w1
       /\ stopAmbientLightning w1 = Returned tt w1
       /\ opacity_at 6 w1 = Some "0" /\ background_at 6 w1 = Some "".
Proof.
  assert (Hc : ambientCleanup ambient_running
               = Some (StopWithInterval (StopSession 0 6) 46))
    by (vm_compute; reflexivity).
  assert (Hov : (6 < length (nodes (document ambient_running)))%nat)
    by (vm_compute; lia).
  split; [exact Hc|]. split; [exact Hov|].
  destruct (C6_stop_is_idempotent ambient_running)
    as (w1 & Hstop & _ & Hagain & _ & Hreset).
  exists w1. split; [exact Hstop|]. split; [exact Hagain|].
  exact (Hreset _ Hc Hov).
Defined.

(** C6 fails as stated: called during the impact flash, before the
    ambient session exists, [stopAmbientLightning] returns with the
    overlay still at opacity "0.9" and tinted. *)
Lemma C6_counterexample :
  sessions mid_flash = []
  /\ ambientCleanup mid_flash = None
  /\ exists w1,
       stopAmbientLightning mid_flash = Returned tt w1
       /\ opacity_at page_overlay w1 = Some "0.9"
       /\ background_at page_overlay w1 = Some BLUE_TINT
       /\ opacity_at page_overlay w1 <> Some "0"
       /\ background_at page_overlay w1 <> Some "".
Proof.
  split; [vm_compute; reflexivity|]. split; [vm_compute; reflexivity|].
  eexists. split; [vm_compute; reflexivity|].
  split; [vm_compute; reflexivity|]. split; [vm_compute; reflexivity|].
  split; vm_compute; discriminate.
Qed.

Lemma ambient_fires_app (s : nat) (tr : list (Z * Event)) (t : Z) (e : Event) :
  is_ambient_effect s e = false ->
  ambient_fires s (tr ++ [(t, e)]) = ambient_fires s tr.
Proof.
  intros He. unfold ambient_fires. rewrite List.filter_app. cbn.
  rewrite He. apply app_nil_r.
Qed.

Lemma stopped_insensitive (s : nat) (fired : list (Z * Event)) :
  Insensitive (stopped s fired) (fun _ => True)
    (fun e => is_ambient_effect s e = false) keeps_stopped.
Proof.
  constructor; try (intros; assumption).
  - intros e w He [Hs Hf]. split; [exact Hs|]. cbn [trace with_trace].
    now rewrite ambient_fires_app.
  - intros s' f w Hf [(x & Hx & Hr) Ht]. split; [|exact Ht]. cbn.
    destruct (decide (s' = s)) as [->|Hne].
    + exists (f x). rewrite list_lookup_alter_eq, Hx. split; [reflexivity|].
      now apply Hf.
    + exists x. now rewrite list_lookup_alter_ne.
  - intros y w [(x & Hx & Hr) Ht]. split; [|exact Ht]. cbn.
    exists x. split; [|exact Hr]. rewrite lookup_app_l; [exact Hx|].
    now apply lookup_lt_Some in Hx.
Qed.

Lemma stopped_not_running (s : nat) (fired : list (Z * Event)) (w : World) :
  stopped s fired w -> session_running s w = false.
Proof. intros [(x & Hx & Hr) _]. unfold session_running. now rewrite Hx. Qed.

Lemma arm_keeps_stopped (id : nat) :
  keeps_stopped (fun x => mkAmbientSession (isRunning x) (Some id)).
Proof. intros x Hx. exact Hx. Qed.

(** A stopped session's animation-frame callback fires nothing; another
    session's firing is not this session's. *)
Lemma stopped_frame (s : nat) (fired : list (Z * Event)) (s' overlay : nat) :
  keeps (stopped s fired) (ambient_frame s' overlay).
Proof.
  pose proof (stopped_insensitive s fired) as HI.
  apply keeps_gets_bind. intros w Hw.
  destruct (session_running s' w) eqn:Hrun; cbn [negb]; [|exact Hw].
  assert (Hne : is_ambient_effect s (EvAmbientEffect s') = false).
  { cbn. apply Nat.eqb_neq. intros ->.
    rewrite (stopped_not_running _ _ _ Hw) in Hrun. discriminate. }
  revert w Hw Hrun.
  change (forall w, stopped s fired w -> session_running s' w = true ->
          stopped s fired
            (world_of
               ((let* r := Math_random in
                 record (EvAmbientEffect s') ;;
                 if JSNumber.gt r (JSNumber.decimal 7 10)
                 then flickerLightning overlay (KScheduleNext s' overlay)
                 else flashLightning overlay subtle (KScheduleNext s' overlay)) w))).
  intros w Hw _. revert w Hw.
  apply keeps_bind; [apply (keeps_Math_random HI)|]. intros r.
  apply keeps_bind; [now apply (keeps_record HI)|]. intros _.
  destruct (JSNumber.gt r (JSNumber.decimal 7 10)).
  - apply (keeps_flickerLightning HI); try (intros; exact I);
      try (intros; reflexivity). apply arm_keeps_stopped.
  - apply (keeps_flash_untinted HI); try (intros; exact I);
      try (intros; reflexivity); try apply arm_keeps_stopped. discriminate.
Qed.

Lemma stopped_forever (s : nat) (fired : list (Z * Event)) (n : nat) (w : World) :
  stopped s fired w -> stopped s fired (steps n w).
Proof.
  apply (keeps_steps (stopped_insensitive s fired));
    try (intros; exact I); try (intros; reflexivity).
  - apply arm_keeps_stopped.
  - apply stopped_frame.
Qed.

Lemma Forall_filter_keep {A} (P : A -> Prop) (q : A -> bool) (l : list A) :
  Forall P l -> Forall P (List.filter q l).
Proof.
  induction 1 as [|x l Hx Hl IH]; cbn; [constructor|].
  destruct (q x); [now constructor | exact IH].
Qed.

Lemma cleared (id : nat) (l : list Timer) :
  Forall (fun t => timerId t <> id)
    (List.filter (fun t => negb (Nat.eqb (timerId t) id)) l).
Proof.
  induction l as [|t l IH]; cbn; [constructor|].
  destruct (Nat.eqb (timerId t) id) eqn:E; cbn; [exact IH|].
  constructor; [now apply Nat.eqb_neq | exact IH].
Qed.

Lemma Forall_both {A} (P Q : A -> Prop) (l : list A) :
  Forall P l -> Forall Q l -> Forall (fun x => P x /\ Q x) l.
Proof.
  induction 1 as [|x l Hx Hl IH]; intros HQ; [constructor|].
  inversion HQ; subst. constructor; [now split | now apply IH].
Qed.

Lemma timers_fresh_insensitive (gone : nat) :
  Insensitive (timers_fresh gone) (fun _ => True) (fun _ => True) (fun _ => True).
Proof.
  constructor; try (intros; assumption).
  - intros p cb ms w [Hg Hl]. split; cbn; [lia|].
    apply Forall_app. split.
    + eapply Forall_impl; [exact Hl|]. cbn. intros t [? ?]. split; [lia|assumption].
    + constructor; [|constructor]. cbn. split; lia.
  - intros id w [Hg Hl]. split; [exact Hg|]. cbn. now apply Forall_filter_keep.
  - intros t w Hin [Hg Hl]. split; [exact Hg|]. cbn. unfold dequeue.
    pose proof (proj1 (List.Forall_forall _ _) Hl t Hin) as Ht. cbn in Ht.
    destruct (period t).
    + apply Forall_app. split; [now apply Forall_filter_keep|].
      constructor; [exact Ht | constructor].
    + now apply Forall_filter_keep.
Qed.

Lemma timers_fresh_frame (gone s overlay : nat) :
  keeps (timers_fresh gone) (ambient_frame s overlay).
Proof.
  pose proof (timers_fresh_insensitive gone) as HI.
  apply keeps_bind; [apply keeps_gets|]. intros running.
  destruct (negb running); [apply keeps_ret|].
  apply keeps_bind; [apply (keeps_Math_random HI)|]. intros r.
  apply keeps_bind; [now apply (keeps_record HI)|]. intros _.
  destruct (JSNumber.gt r (JSNumber.decimal 7 10)).
  - apply (keeps_flickerLightning HI); intros; exact I.
  - apply (keeps_flash_untinted HI); try (intros; exact I). discriminate.
Qed.

Lemma timers_fresh_forever (gone n : nat) (w : World) :
  timers_fresh gone w -> timers_fresh gone (steps n w).
Proof.
  apply (keeps_steps (timers_fresh_insensitive gone)); try (intros; exact I).
  apply timers_fresh_frame.
Qed.

(** C7.  Once [stopAmbientLightning] has returned for the cleanup the
    ambient phase stored, the session's running flag is false and it
    holds no timer id; the timer it was waiting on is no longer pending,
    nor is the glitch interval; and however long the event loop runs
    afterwards, the flag stays false, the session fires no further flash
    or flicker, and the glitch interval is never pending again.  (Timer
    ids being handed out in increasing order, the pending ones and the
    interval's are below the next id.) *)
Theorem C7_stop_is_final (w : World) (s overlay glitchInterval : nat) :
  ambientCleanup w
  = Some (StopWithInterval (StopSession s overlay) glitchInterval) ->
  (s < length (sessions w))%nat ->
  (glitchInterval < nextTimer w)%nat ->
  Forall (fun t => (timerId t < nextTimer w)%nat) (timers w) ->
  exists w1,
    stopAmbientLightning w = Returned tt w1
    /\ session_running s w1 = false
    /\ session_timeout s w1 = None
    /\ (forall id, session_timeout s w = Some id ->
          Forall (fun t => timerId t <> id) (timers w1))
    /\ Forall (fun t => timerId t <> glitchInterval) (timers w1)
    /\ (forall n,
          session_running s (steps n w1) = false
          /\ ambient_fires s (trace (steps n w1)) = ambient_fires s (trace w)
          /\ Forall (fun t => timerId t <> glitchInterval) (timers (steps n w1))).
Proof.
  intros Hc Hs Hgi Hids.
  destruct (lookup_lt_is_Some_2 _ _ Hs) as [x Hx].
  destruct w as [doc rm t0 nid ts rnd rp con init cs ss ac tr].
  cbn in Hc, Hs, Hx, Hgi, Hids. subst ac.
  unfold stopAmbientLightning, bind, gets. cbn.
  unfold stop_session, bind, gets, update_session, modify, session_timeout. cbn.
  rewrite list_lookup_alter_eq, Hx. cbn.
  assert (Hfinal : forall w1 y,
             sessions w1 !! s = Some y -> isRunning y = false ->
             trace w1 = tr -> nextTimer w1 = nid ->
             Forall (fun t => (timerId t < nid)%nat) (timers w1) ->
             Forall (fun t => timerId t <> glitchInterval) (timers w1) ->
             forall n, session_running s (steps n w1) = false
                       /\ ambient_fires s (trace (steps n w1)) = ambient_fires s tr
                       /\ Forall (fun t => timerId t <> glitchInterval)
                            (timers (steps n w1))).
  { intros w1 y Hy Hr Ht Hn Hlt Hne n.
    assert (H : stopped s (ambient_fires s tr) w1).
    { split; [now exists y | now rewrite Ht]. }
    apply (stopped_forever _ _ n) in H.
    assert (F : timers_fresh glitchInterval w1).
    { split; [now rewrite Hn|]. rewrite Hn. now apply Forall_both. }
    apply (timers_fresh_forever _ n) in F.
    split; [now apply (stopped_not_running _ _ _ H)|]. split; [apply H|].
    eapply Forall_impl; [exact (proj2 F)|]. cbn. tauto. }
  destruct (timeoutId x) as [id|] eqn:Hid.
  - eexists. split; [cbn; flat; reflexivity|].
    unfold session_running, session_timeout. cbn.
    rewrite list_alter_alter_eq, list_lookup_alter_eq, Hx. cbn.
    split; [reflexivity|]. split; [reflexivity|].
    split; [|split].
    + intros id' Hid'. injection Hid' as <-.
      apply Forall_filter_keep, cleared.
    + apply cleared.
    + apply (Hfinal _ (mkAmbientSession false None));
        try reflexivity; cbn.
      * now rewrite ?list_alter_alter_eq, list_lookup_alter_eq, Hx.
      * now do 2 apply Forall_filter_keep.
      * apply cleared.
  - eexists. split; [cbn; flat; reflexivity|].
    unfold session_running, session_timeout. cbn.
    rewrite list_lookup_alter_eq, Hx. cbn.
    split; [reflexivity|]. split; [exact Hid|].
    split; [|split].
    + intros id' Hid'. discriminate.
    + apply cleared.
    + apply (Hfinal _ (mkAmbientSession false None));
        try reflexivity; cbn.
      * rewrite list_lookup_alter_eq, Hx. cbn. now rewrite Hid.
      * now apply Forall_filter_keep.
      * apply cleared.
Qed.

Lemma C7_stop_is_final_witness :
  ambientCleanup ambient_running
  = Some (StopWithInterval (StopSession 0 6) 46)
  /\ (0 < length (sessions ambient_running))%nat
  /\ (46 < nextTimer ambient_running)%nat
  /\ Forall (fun t => (timerId t < nextTimer ambient_running)%nat)
       (timers ambient_running)
  /\ ambient_fires 0 (trace (world_at 400 30000 ambient_running)) <> []
  /\ exists w1,
       stopAmbientLightning ambient_running = Returned tt w1
       /\ session_running 0 w1 = false
       /\ map callback (timers w1) = [CbDelayedGlitch 3]
       /\ ambient_fires 0 (trace (steps 100 w1)) = []
       /\ Forall (fun t => timerId t <> 46%nat) (timers (steps 100 w1)).
Proof.
  assert (Hc : ambientCleanup ambient_running
               = Some (StopWithInterval (StopSession 0 6) 46))
    by (vm_compute; reflexivity).
  assert (Hs : (0 < length (sessions ambient_running))%nat)
    by (vm_compute; lia).
  assert (Hgi : (46 < nextTimer ambient_running)%nat)
    by (vm_compute; lia).
  assert (Hids : Forall (fun t => (timerId t < nextTimer ambient_running)%nat)
                   (timers ambient_running))
    by (vm_compute; repeat constructor; lia).
  split; [exact Hc|]. split; [exact Hs|]. split; [exact Hgi|]. split; [exact Hids|].
  split; [vm_compute; discriminate|].
  destruct (C7_stop_is_final ambient_running 0 6 46 Hc Hs Hgi Hids)
    as (w1 & Hstop & Hrun & _ & _ & _ & Hfinal).
  exists w1. split; [exact Hstop|]. split; [exact Hrun|].
  split; [|split].
  - assert (Hw : w1 = world_of (stopAmbientLightning ambient_running))
      by (rewrite Hstop; reflexivity).
    rewrite Hw. vm_compute. reflexivity.
  - destruct (Hfinal 100%nat) as (_ & -> & _). vm_compute. reflexivity.
  - apply (Hfinal 100%nat).
Defined.

(* ===================================================================== *)
(** * [showContentImmediately]: frame and idempotence *)
(* ===================================================================== *)

Lemma body_update_present (o : option nat) (f : Element -> Element) (d : Document) :
  body (update_present o f d) = body d.
Proof. now destruct o. Qed.

Lemma find_index_alter {A} (p : A -> bool) (f : A -> A) (i : nat) (l : list A) :
  (forall x, p (f x) = p x) -> find_index p (alter f i l) = find_index p l.
Proof.
  intros Hf. revert i. induction l as [|a l IH]; intros [|i]; cbn; try reflexivity.
  - now rewrite Hf.
  - now rewrite IH.
Qed.

Lemma find_index_update_present (p : Element -> bool) (o : option nat)
  (f : Element -> Element) (d : Document) :
  (forall x, p (f x) = p x) ->
  find_index p (nodes (update_present o f d)) = find_index p (nodes d).
Proof. intros Hf. destruct o; [now apply find_index_alter | reflexivity]. Qed.

Lemma has_class_remove_other (c c' : string) (e : Element) :
  c <> c' -> has_class c (classList_remove c' e) = has_class c e.
Proof.
  intros Hne. unfold has_class, classList_remove. cbn.
  induction (classList e) as [|x l IH]; cbn; [reflexivity|].
  destruct (String.eqb c' x) eqn:E1; cbn.
  - apply String.eqb_eq in E1. subst x.
    destruct (String.eqb c c') eqn:E2; [apply String.eqb_eq in E2; congruence|].
    exact IH.
  - now rewrite IH.
Qed.

Lemma filter_twice {A} (p : A -> bool) (l : list A) :
  List.filter p (List.filter p l) = List.filter p l.
Proof.
  induction l as [|x l IH]; cbn; [reflexivity|].
  destruct (p x) eqn:E; cbn; [rewrite E; now f_equal | exact IH].
Qed.

(** The lookups of [showContentImmediately] find the same elements after
    it has run as before. *)
Lemma revealed_targets_stable (d : Document) :
  revealed_targets (revealed d) = revealed_targets d.
Proof.
  assert (Hfind : forall p, (forall x, p (classList_remove "hidden" x) = p x) ->
            (forall v x, p (set_display v x) = p x) ->
            (forall v x, p (set_opacity v x) = p x) ->
            (forall v x, p (set_transform v x) = p x) ->
            (forall v x, p (set_filter v x) = p x) ->
            find_index p (nodes (revealed d)) = find_index p (nodes d)).
  { intros p H1 H2 H3 H4 H5. unfold revealed.
    repeat (rewrite find_index_update_present; [|solve [auto]]). reflexivity. }
  unfold revealed_targets, getElementById, querySelector.
  rewrite !Hfind; try reflexivity;
    intros; apply has_class_remove_other; discriminate.
Qed.

Lemma revealed_idempotent (d : Document) : revealed (revealed d) = revealed d.
Proof.
  pose proof (revealed_targets_stable d) as Hst.
  unfold revealed_targets in Hst.
  injection Hst as Hl Hc Ht Hg Hs.
  assert (Hbody : body (revealed (revealed d)) = body (revealed d)).
  { unfold revealed at 1. now rewrite !body_update_present. }
  assert (Hnodes : nodes (revealed (revealed d)) = nodes (revealed d)).
  { apply list_eq. intros i.
    rewrite (revealed_lookup (revealed d)), Hl, Hc, Ht, Hg, Hs.
    rewrite (revealed_lookup d).
    destruct (nodes d !! i) as [e|]; [|reflexivity]. cbn. f_equal.
    unfold apply_at.
    destruct (decide (querySelector "coming-soon" d = Some i)),
      (decide (querySelector "tagline" d = Some i)),
      (decide (querySelector "title" d = Some i)),
      (decide (getElementById "content" d = Some i)),
      (decide (getElementById "loading" d = Some i));
      destruct e as [x1 x2 x3 x4 x5 x6 x7 x8 x9];
      cbv [set_opacity set_transform set_filter set_display classList_remove
           set_classList elId classList display opacity transform cssFilter
           background gsapScale gsapY];
      rewrite ?filter_twice; reflexivity. }
  destruct (revealed (revealed d)), (revealed d). cbn in *. congruence.
Qed.

(** X2.  [showContentImmediately] changes nothing but the document, and
    in the document nothing but the (at most five) elements its lookups
    find: the number of elements, the body, and every element behind
    another handle stay as they are.  Its lookups find the same elements
    afterwards, and calling it a second time changes nothing more. *)
Theorem X2_showContentImmediately_frame_idempotent (w : World) :
  exists w1,
    showContentImmediately w = Returned tt w1
    /\ w1 = with_document (revealed (document w)) w
    /\ length (nodes (document w1)) = length (nodes (document w))
    /\ body (document w1) = body (document w)
    /\ (forall h, ~ In (Some h) (revealed_targets (document w)) ->
          nodes (document w1) !! h = nodes (document w) !! h)
    /\ revealed_targets (document w1) = revealed_targets (document w)
    /\ showContentImmediately w1 = Returned tt w1.
Proof.
  eexists. split; [apply showContentImmediately_spec|].
  split; [reflexivity|]. cbn [document with_document].
  split; [|split; [|split; [|split]]].
  - unfold revealed. repeat (destruct (_ : option nat); cbn [update_present]);
      unfold update_element; cbn [nodes]; rewrite ?length_alter; reflexivity.
  - unfold revealed. now rewrite !body_update_present.
  - intros h Hh. rewrite revealed_lookup. unfold revealed_targets in Hh.
    cbn in Hh. unfold apply_at.
    repeat (destruct (decide _) as [?|?]; [exfalso; tauto|]).
    now destruct (nodes (document w) !! h).
  - apply revealed_targets_stable.
  - rewrite showContentImmediately_spec. cbn [document with_document].
    rewrite revealed_idempotent.
    destruct w; reflexivity.
Qed.

Lemma X2_showContentImmediately_frame_idempotent_witness :
  exists w1,
    showContentImmediately (in_motion low_draws) = Returned tt w1
    /\ nodes (document w1) !! page_overlay = nodes page !! page_overlay
    /\ opacity_at 3 w1 = Some "1"
    /\ showContentImmediately w1 = Returned tt w1.
Proof.
  destruct (X2_showContentImmediately_frame_idempotent (in_motion low_draws))
    as (w1 & Hrun & Hw1 & _ & _ & Hframe & _ & Hagain).
  exists w1. split; [exact Hrun|].
  split; [apply Hframe; vm_compute; intuition discriminate|].
  split; [rewrite Hw1; reflexivity | exact Hagain].
Defined.

(* ===================================================================== *)
(** * The class pulses of animation.ts *)
(* ===================================================================== *)

Lemma filter_other (c : string) (l : list string) :
  existsb (String.eqb c) l = false ->
  List.filter (fun x => negb (String.eqb c x)) l = l.
Proof.
  induction l as [|x l IH]; cbn; [reflexivity|].
  destruct (String.eqb c x); cbn; [discriminate|].
  intros H. now rewrite IH.
Qed.

Lemma classList_remove_absent (c : string) (e : Element) :
  has_class c e = false -> classList_remove c e = e.
Proof.
  intros H. destruct e as [x1 x2 x3 x4 x5 x6 x7 x8 x9].
  unfold classList_remove, set_classList, has_class in *. cbn [classList] in *.
  rewrite (filter_other c x2 H). reflexivity.
Qed.

(** Removing a class that was added to an element not bearing it gives
    the element back. *)
Lemma classList_remove_add (c : string) (e : Element) :
  has_class c e = false -> classList_remove c (classList_add c e) = e.
Proof.
  intros H. unfold classList_add. rewrite H.
  unfold classList_remove, has_class in *. destruct e as [x1 x2 x3 x4 x5 x6 x7 x8 x9].
  cbn in *. rewrite List.filter_app, filter_other by exact H.
  cbn. rewrite String.eqb_refl. cbn. now rewrite app_nil_r.
Qed.

(** A series of updates of one element that gives the element back gives
    the document back. *)
Lemma updates_undone (h : nat) (fs : list (Element -> Element))
  (d : Document) (e : Element) :
  nodes d !! h = Some e ->
  fold_right (fun f x => f x) e fs = e ->
  fold_right (update_element h) d fs = d.
Proof.
  intros He Hf.
  assert (Hh : forall x, nodes d !! h = Some x ->
               nodes (fold_right (update_element h) d fs) !! h
               = Some (fold_right (fun f x => f x) x fs)).
  { clear Hf. induction fs as [|f fs IH]; intros x Hx; cbn; [exact Hx|].
    rewrite lookup_update_eq, (IH x Hx). reflexivity. }
  assert (Hi : forall i, i <> h ->
               nodes (fold_right (update_element h) d fs) !! i = nodes d !! i).
  { clear Hf Hh. intros i Hne. induction fs as [|f fs IH]; cbn; [reflexivity|].
    now rewrite lookup_update_ne by congruence. }
  assert (Hb : body (fold_right (update_element h) d fs) = body d).
  { clear Hf Hh Hi. induction fs as [|f fs IH]; cbn; [reflexivity | exact IH]. }
  assert (Hn : nodes (fold_right (update_element h) d fs) = nodes d).
  { apply list_eq. intros i. destruct (decide (i = h)) as [->|Hne].
    - rewrite (Hh e He), Hf. now symmetry.
    - now apply Hi. }
  destruct (fold_right (update_element h) d fs), d. cbn in *. congruence.
Qed.

(** The common shape of the four helpers: record the effect, add the
    class, and hand its removal to a timer. *)
Lemma pulse_shape (ev : Event) (el : nat) (cls : string) (cb : Callback) (ms : Z) :
  (forall w, exec cb w = write el (classList_remove cls) w) ->
  pulses (record ev ;; write el (classList_add cls) ;;
          let* _ := setTimeout cb ms in ret tt) el cls ms.
Proof.
  intros Hcb w e Ht He Hc.
  destruct w as [doc rm t0 nid ts rnd rp con init cs ss ac tr].
  cbn in Ht, He. subst ts.
  eexists. split; [cbn; flat; reflexivity|]. cbn [document timers now].
  split.
  { rewrite lookup_update_eq, He. cbn. unfold classList_add. now rewrite Hc. }
  split; [intros h Hh; now rewrite lookup_update_ne by congruence|].
  split; [reflexivity|]. split; [reflexivity|].
  rewrite steps_succ. unfold step. cbn [timers earliest callback dequeue].
  rewrite Hcb. cbn. rewrite Nat.eqb_refl. cbn. flat. rewrite steps_zero. cbn.
  split; [reflexivity|]. split; [|reflexivity].
  apply (updates_undone el [classList_remove cls; classList_add cls] _ e He).
  cbn. now apply classList_remove_add.
Qed.

(** X3.  Each of [triggerShake], [triggerSlash], [triggerBurst] and
    [triggerGlitch] is a pulse of its class ("shake", "animate",
    "burst-animate", "glitch"): the class is on the element from the call
    until the helper's timer fires (after the given duration, 300 ms for
    the slash, 600 ms for the burst), no other element is touched, and
    afterwards the document is exactly what it was before the call. *)
Theorem X3_trigger_helpers_pulse (el : nat) (ms : Z) :
  pulses (triggerShake el ms) el "shake" ms
  /\ pulses (triggerSlash el) el "animate" 300
  /\ pulses (triggerBurst el) el "burst-animate" 600
  /\ pulses (triggerGlitch el ms) el "glitch" ms.
Proof.
  repeat split; apply pulse_shape; reflexivity.
Qed.

Lemma X3_trigger_helpers_pulse_witness :
  exists w1,
    triggerGlitch page_title 150 (in_motion low_draws) = Returned tt w1
    /\ classes_at page_title w1 = Some ["title"; "glitch"]
    /\ now (steps 1 w1) = 150
    /\ document (steps 1 w1) = page.
Proof.
  destruct (X3_trigger_helpers_pulse page_title 150) as (_ & _ & _ & H).
  destruct (H (in_motion low_draws) (blank "" ["title"]))
    as (w1 & Hrun & Hel & _ & _ & _ & Hnow & Hdoc & _);
    [reflexivity | reflexivity | reflexivity |].
  exists w1. split; [exact Hrun|]. unfold classes_at. rewrite Hel.
  split; [reflexivity|]. split; [exact Hnow | exact Hdoc].
Defined.

(** Symbolic execution with several timers pending: the comparisons of
    due times and of timer ids are settled by arithmetic. *)
Ltac order :=
  repeat match goal with
  | |- context [?a <? ?b] =>
      first [ replace (a <? b) with true by (symmetry; apply Z.ltb_lt; lia)
            | replace (a <? b) with false by (symmetry; apply Z.ltb_ge; lia) ]
  | |- context [Nat.eqb ?a ?b] =>
      first [ replace (Nat.eqb a b) with true by (symmetry; apply Nat.eqb_eq; lia)
            | replace (Nat.eqb a b) with false by (symmetry; apply Nat.eqb_neq; lia) ]
  | |- context [Z.max ?a ?b] =>
      first [ rewrite (Z.max_r a b) by lia | rewrite (Z.max_l a b) by lia ]
  end.

Ltac turn :=
  rewrite steps_succ;
  lazymatch goal with
  | |- context [step ?w] =>
      let E := fresh "E" in
      let v := fresh "next" in
      evar (v : World);
      assert (E : step w = Some v) by
        (unfold step; cbn -[Nat.eqb]; repeat (progress order; cbn -[Nat.eqb]);
         flat; unfold v; reflexivity);
      rewrite E; clear E; unfold v; clear v; cbv beta iota
  end.

(** X4.  A pulse is not extended by a second one.  [triggerGlitch] is
    called for [a] ms while a timeline callback that will glitch the same
    element for [b] ms is due [d] ms from now, the second pulse reaching
    beyond the first ([d < a < d + b]).  The second call finds the class
    in place; the timer of the first call then removes it at [a] ms, and
    the element stays without the class although the second pulse was to
    last until [d + b] ms, when its own timer fires and finds nothing to
    remove. *)
Theorem X4_pulse_not_extended (w : World) (el : nat) (e : Element) (id : nat) (a b d : Z) :
  timers w = [mkTimer id (now w + d) None (TlGlitch el b)] ->
  (id < nextTimer w)%nat ->
  nodes (document w) !! el = Some e ->
  has_class "glitch" e = false ->
  0 <= d -> d < a -> a < d + b ->
  exists w1,
    triggerGlitch el a w = Returned tt w1
    /\ now (steps 1 w1) = now w + d
    /\ classes_at el (steps 1 w1) = Some (classList e ++ ["glitch"])
    /\ now (steps 2 w1) = now w + a
    /\ document (steps 2 w1) = document w
    /\ map due (timers (steps 2 w1)) = [now w + d + b]
    /\ now (steps 3 w1) = now w + d + b
    /\ document (steps 3 w1) = document w
    /\ timers (steps 3 w1) = [].
Proof.
  intros Ht Hid He Hc Hd Hda Hab.
  destruct w as [doc rm t0 nid ts rnd rp con init cs ss ac tr].
  cbn in Ht, Hid, He. subst ts.
  assert (Hadd : classList_add "glitch" e = set_classList (classList e ++ ["glitch"]) e)
    by (unfold classList_add; now rewrite Hc).
  assert (Hagain : forall x, classList_add "glitch" (classList_add "glitch" x)
                             = classList_add "glitch" x).
  { intros x. unfold classList_add at 1.
    replace (has_class "glitch" (classList_add "glitch" x)) with true; [reflexivity|].
    unfold classList_add. destruct (has_class "glitch" x) eqn:Hx; [now rewrite Hx|].
    unfold has_class. cbn. rewrite existsb_app. cbn. now rewrite orb_true_r. }
  eexists. split; [cbn; flat; reflexivity|]. cbn [now document].
  split; [turn; rewrite steps_zero; reflexivity|].
  split.
  { turn. rewrite steps_zero. unfold classes_at. cbn.
    rewrite !lookup_update_eq, He. cbn. now rewrite Hagain, Hadd. }
  split; [do 2 turn; rewrite steps_zero; reflexivity|].
  assert (Hrm : classList_remove "glitch" (classList_add "glitch" e) = e)
    by now apply classList_remove_add.
  split.
  { do 2 turn. rewrite steps_zero. cbn.
    apply (updates_undone el [classList_remove "glitch"; classList_add "glitch";
                              classList_add "glitch"] _ e He).
    cbn. now rewrite Hagain. }
  split; [do 2 turn; rewrite steps_zero; cbn; f_equal; lia|].
  split; [do 3 turn; rewrite steps_zero; cbn; lia|].
  split; [|do 3 turn; rewrite steps_zero; reflexivity].
  do 3 turn. rewrite steps_zero. cbn.
  apply (updates_undone el [classList_remove "glitch"; classList_remove "glitch";
                            classList_add "glitch"; classList_add "glitch"] _ e He).
  cbn. rewrite Hagain, Hrm. now apply classList_remove_absent.
Qed.

Lemma X4_pulse_not_extended_witness :
  let w := with_timers [mkTimer 0 100 None (TlGlitch page_title 300)]
             (in_motion low_draws) in
  exists w1,
    triggerGlitch page_title 200 w = Returned tt w1
    /\ now (steps 2 w1) = 200
    /\ document (steps 2 w1) = page
    /\ map due (timers (steps 2 w1)) = [400].
Proof.
  intros w.
  destruct (X4_pulse_not_extended w page_title (blank "" ["title"]) 0 200 300 100)
    as (w1 & Hrun & _ & _ & Hnow & Hdoc & Hdue & _);
    [reflexivity | vm_compute; lia | reflexivity | reflexivity | lia | lia | lia |].
  exists w1. repeat split; assumption.
Defined.

(* ===================================================================== *)
(** * The pulses of a flicker *)
(* ===================================================================== *)

Ltac sample H Hov :=
  apply (f_equal2 pair); [run H; lia | run H; read_style Hov].

(** X5.  The pattern of [flickerLightning], with motion allowed and the
    flicker running alone, whatever continues its promise: the overlay is
    lit at opacity "0.5" for 40 ms, dark for 60 ms, lit at "0.7" for
    50 ms and dark for 80 ms; then one random number is drawn, and only
    when it exceeds 0.5 the overlay is, after 40 more ms, lit a third
    time, at "0.3" for 30 ms.  The promise is still pending then, the
    settling delay of 50 ms being the one timer left. *)
Theorem X5_flicker_pattern (w : World) (overlay : nat) (k : Kont) :
  reducedMotion w = false -> timers w = [] ->
  (overlay < length (nodes (document w)))%nat ->
  let t := now w in
  exists w1,
    flickerLightning overlay k w = Returned tt w1
    /\ map (overlay_after overlay w1) (seq 0 5)
       = [ (t, Some "0.5"); (t + 40, Some "0"); (t + 100, Some "0.7");
           (t + 150, Some "0"); (t + 230, Some "0") ]
    /\ randomPos (steps 3 w1) = randomPos w
    /\ randomPos (steps 4 w1) = S (randomPos w)
    /\ (JSNumber.gt (random w (randomPos w)) (JSNumber.decimal 1 2) = false ->
        timers (steps 4 w1)
        = [mkTimer (nextTimer w + 4) (t + 280) None
             (CbResolve (KFlicker Settling overlay k))])
    /\ (JSNumber.gt (random w (randomPos w)) (JSNumber.decimal 1 2) = true ->
        map (overlay_after overlay w1) (seq 5 2)
        = [ (t + 270, Some "0.3"); (t + 300, Some "0") ]
        /\ timers (steps 6 w1)
           = [mkTimer (nextTimer w + 6) (t + 350) None
                (CbResolve (KFlicker Settling overlay k))]).
Proof.
  intros Hrm Ht Hov.
  destruct w as [doc rm t0 nid ts rnd rp con init cs ss ac tr].
  cbn in Hrm, Ht, Hov. subst rm ts. cbn [random randomPos now nextTimer].
  eexists. split; [cbn; flat; reflexivity|].
  destruct (JSNumber.gt (rnd rp) (JSNumber.decimal 1 2)) eqn:Hthird.
  - split.
    { cbn [map seq]. unfold overlay_after.
      repeat (apply (f_equal2 cons); [sample Hthird Hov|]). reflexivity. }
    split; [run Hthird; reflexivity|].
    split; [run Hthird; reflexivity|].
    split; [discriminate|]. intros _.
    split.
    { cbn [map seq]. unfold overlay_after.
      repeat (apply (f_equal2 cons); [sample Hthird Hov|]). reflexivity. }
    run Hthird. f_equal; f_equal; lia.
  - split.
    { cbn [map seq]. unfold overlay_after.
      repeat (apply (f_equal2 cons); [sample Hthird Hov|]). reflexivity. }
    split; [run Hthird; reflexivity|].
    split; [run Hthird; reflexivity|].
    split; [|discriminate]. intros _.
    run Hthird. f_equal; f_equal; lia.
Qed.

Lemma X5_flicker_pattern_witness :
  exists w1,
    flickerLightning page_overlay KDiscard (in_motion high_draws) = Returned tt w1
    /\ map (overlay_after page_overlay w1) (seq 0 7)
       = [ (0, Some "0.5"); (40, Some "0"); (100, Some "0.7"); (150, Some "0");
           (230, Some "0"); (270, Some "0.3"); (300, Some "0") ].
Proof.
  destruct (X5_flicker_pattern (in_motion high_draws) page_overlay KDiscard)
    as (w1 & Hrun & Hfirst & _ & _ & _ & Hthird);
    [reflexivity | reflexivity | vm_compute; lia |].
  destruct Hthird as [Hthird _]; [vm_compute; reflexivity|].
  exists w1. split; [exact Hrun|].
  change (seq 0 7) with (seq 0 5 ++ seq 5 2).
  rewrite map_app, Hfirst, Hthird. reflexivity.
Defined.

(* ===================================================================== *)
(** * Starting and stopping the ambient phase *)
(* ===================================================================== *)

Lemma lookup_snoc {A} (l : list A) (x : A) : (l ++ [x]) !! length l = Some x.
Proof. induction l as [|a l IH]; [reflexivity | exact IH]. Qed.

Lemma alter_snoc {A} (f : A -> A) (l : list A) (x : A) :
  alter f (length l) (l ++ [x]) = l ++ [f x].
Proof. induction l as [|a l IH]; cbn; [reflexivity | now rewrite IH]. Qed.

Lemma filter_older (id : nat) (l : list Timer) :
  Forall (fun t => (timerId t < id)%nat) l ->
  List.filter (fun t => negb (Nat.eqb (timerId t) id)) l = l.
Proof.
  induction 1 as [|t l Ht Hl IH]; cbn; [reflexivity|].
  destruct (Nat.eqb_spec (timerId t) id) as [E|E]; [lia|]. cbn. now rewrite IH.
Qed.

(** What the last callback of the timeline leaves behind. *)
Lemma start_ambient_spec (overlay title : nat) (w : World) :
  start_ambient overlay title w = Returned tt (ambient_started overlay title w).
Proof.
  destruct w as [doc rm t0 nid ts rnd rp con init cs ss ac tr].
  unfold ambient_started. cbn [sessions nextTimer]. cbv zeta.
  unfold start_ambient, startAmbientLightning, bind at 1 2 3. cbn [sessions].
  unfold scheduleNext, bind at 1, gets, session_running.
  flat. rewrite lookup_snoc. cbn [isRunning negb].
  unfold getRandomInterval, Math_random, setTimeout, setInterval, add_timer,
    update_session, modify, ret, bind.
  flat. rewrite alter_snoc. cbn [isRunning].
  unfold ambient_delay. rewrite <- app_assoc. reflexivity.
Qed.

(** Stopping the session just started. *)
Lemma stop_started (overlay title : nat) (w : World) :
  ids_below_next w ->
  stopAmbientLightning (ambient_started overlay title w)
  = Returned tt (ambient_undone overlay w).
Proof.
  intros Hids.
  destruct w as [doc rm t0 nid ts rnd rp con init cs ss ac tr].
  unfold ids_below_next in Hids. cbn in Hids.
  assert (Hclear :
    List.filter (fun t => negb (Nat.eqb (timerId t) (S nid)))
      (List.filter (fun t => negb (Nat.eqb (timerId t) nid))
         (ts ++ [mkTimer nid (t0 + ambient_delay (rnd rp)) None
                   (CbAmbientTimeout (length ss) overlay);
                 mkTimer (S nid) (t0 + 5000) (Some 5000) (CbGlitchInterval title)]))
    = ts).
  { rewrite !List.filter_app. cbn -[Nat.eqb].
    repeat (progress order; cbn -[Nat.eqb]). rewrite app_nil_r.
    rewrite (filter_older nid ts Hids).
    apply filter_older. eapply Forall_impl; [exact Hids|]. cbn. lia. }
  unfold ambient_started, ambient_undone. flat.
  unfold stopAmbientLightning, bind at 1, gets. cbn [ambientCleanup run_cleanup].
  unfold stop_session, update_session, session_timeout, clearInterval, clearTimeout,
    removeBlueTint, write, modify, gets, bind.
  flat. rewrite !alter_snoc, lookup_snoc. cbn [timeoutId isRunning].
  rewrite alter_snoc. cbn [isRunning]. rewrite Hclear. reflexivity.
Qed.

Lemma ids_below_next_started (overlay title : nat) (w : World) :
  ids_below_next w -> ids_below_next (ambient_started overlay title w).
Proof.
  unfold ids_below_next, ambient_started. cbn. intros H.
  apply Forall_app. split.
  - eapply Forall_impl; [exact H|]. cbn. lia.
  - repeat constructor; cbn; lia.
Qed.

(** X6.  Stopping right after the start undoes the start.  The last
    callback of the timeline registers the timeout of the new ambient
    session and the glitch interval and stores the cleanup for both;
    [stopAmbientLightning] called next cancels exactly these two timers
    (the timers pending before are pending as before), leaves the new
    session stopped and without a timer id, the stored cleanup empty and
    the overlay dark and untinted.  This holds whether or not motion is
    reduced and whatever cleanup was stored before. *)
Theorem X6_start_then_stop (w : World) (overlay title : nat) :
  ids_below_next w ->
  (overlay < length (nodes (document w)))%nat ->
  exists w1 w2,
    start_ambient overlay title w = Returned tt w1
    /\ map callback (timers w1)
       = map callback (timers w)
         ++ [CbAmbientTimeout (length (sessions w)) overlay; CbGlitchInterval title]
    /\ session_running (length (sessions w)) w1 = true
    /\ stopAmbientLightning w1 = Returned tt w2
    /\ timers w2 = timers w
    /\ sessions w2 = sessions w ++ [mkAmbientSession false None]
    /\ ambientCleanup w2 = None
    /\ opacity_at overlay w2 = Some "0"
    /\ background_at overlay w2 = Some ""
    /\ (forall h, h <> overlay ->
          nodes (document w2) !! h = nodes (document w) !! h)
    /\ trace w2 = trace w.
Proof.
  intros Hids Hov.
  exists (ambient_started overlay title w), (ambient_undone overlay w).
  split; [apply start_ambient_spec|].
  split; [unfold ambient_started; cbn [timers]; now rewrite map_app|].
  split.
  { unfold session_running, ambient_started. cbn [sessions]. now rewrite lookup_snoc. }
  split; [now apply stop_started|].
  unfold ambient_undone. cbn [timers sessions ambientCleanup trace].
  split; [reflexivity|]. split; [reflexivity|]. split; [reflexivity|].
  destruct (lookup_lt_is_Some_2 _ _ Hov) as [e He].
  unfold opacity_at, background_at. cbn [document].
  rewrite !lookup_update_eq, He.
  split; [reflexivity|]. split; [reflexivity|]. split; [|reflexivity].
  intros h Hh. now rewrite !lookup_update_ne by congruence.
Qed.

Lemma X6_start_then_stop_witness :
  ids_below_next mid_flash
  /\ (page_overlay < length (nodes (document mid_flash)))%nat
  /\ timers mid_flash <> []
  /\ exists w1 w2,
       start_ambient page_overlay page_title mid_flash = Returned tt w1
       /\ stopAmbientLightning w1 = Returned tt w2
       /\ timers w2 = timers mid_flash
       /\ opacity_at page_overlay w2 = Some "0".
Proof.
  assert (Hids : ids_below_next mid_flash)
    by (vm_compute; repeat constructor; lia).
  assert (Hov : (page_overlay < length (nodes (document mid_flash)))%nat)
    by (vm_compute; lia).
  split; [exact Hids|]. split; [exact Hov|]. split; [vm_compute; discriminate|].
  destruct (X6_start_then_stop mid_flash page_overlay page_title Hids Hov)
    as (w1 & w2 & Hstart & _ & _ & Hstop & Ht & _ & _ & Hop & _).
  exists w1, w2. repeat split; assumption.
Defined.

(** X7.  A second start orphans the first session.  When the last
    callback of the timeline runs twice (the entrance was run twice), the
    cleanup stored by the first run is overwritten without being called:
    [stopAmbientLightning] then stops the second session only.  The first
    session is still running, its timeout and its glitch interval are
    still pending, and no cleanup is stored any more, so that further
    calls of [stopAmbientLightning] do nothing. *)
Theorem X7_second_start_orphans_first (w : World) (overlay title : nat) :
  ids_below_next w ->
  let s := length (sessions w) in
  exists w1 w2 w3,
    start_ambient overlay title w = Returned tt w1
    /\ start_ambient overlay title w1 = Returned tt w2
    /\ stopAmbientLightning w2 = Returned tt w3
    /\ session_running s w3 = true
    /\ session_timeout s w3 = Some (nextTimer w)
    /\ session_running (S s) w3 = false
    /\ timers w3 = timers w1
    /\ In (CbAmbientTimeout s overlay) (map callback (timers w3))
    /\ In (CbGlitchInterval title) (map callback (timers w3))
    /\ ambientCleanup w3 = None
    /\ stopAmbientLightning w3 = Returned tt w3.
Proof.
  intros Hids s.
  exists (ambient_started overlay title w),
    (ambient_started overlay title (ambient_started overlay title w)),
    (ambient_undone overlay (ambient_started overlay title w)).
  split; [apply start_ambient_spec|]. split; [apply start_ambient_spec|].
  split; [now apply stop_started, ids_below_next_started|].
  assert (Hlen : length (sessions (ambient_started overlay title w)) = S s).
  { unfold ambient_started. cbn [sessions]. rewrite length_app. cbn. subst s. lia. }
  unfold session_running, session_timeout.
  split; [|split; [|split]].
  - unfold ambient_undone, ambient_started. cbn [sessions].
    rewrite lookup_app_l by (rewrite length_app; cbn; lia).
    subst s. now rewrite lookup_snoc.
  - unfold ambient_undone, ambient_started. cbn [sessions].
    rewrite lookup_app_l by (rewrite length_app; cbn; lia).
    subst s. now rewrite lookup_snoc.
  - unfold ambient_undone. cbn [sessions]. rewrite <- Hlen.
    now rewrite lookup_snoc.
  - split; [reflexivity|].
    split; [|split; [|split; [reflexivity | reflexivity]]];
      unfold ambient_undone, ambient_started; cbn [timers];
      rewrite map_app; apply in_or_app; right; cbn; auto.
Qed.

Lemma X7_second_start_orphans_first_witness :
  ids_below_next (in_motion low_draws)
  /\ exists w1 w2 w3,
       start_ambient page_overlay page_title (in_motion low_draws) = Returned tt w1
       /\ start_ambient page_overlay page_title w1 = Returned tt w2
       /\ stopAmbientLightning w2 = Returned tt w3
       /\ session_running 0 w3 = true
       /\ length (timers w3) = 2%nat.
Proof.
  assert (Hids : ids_below_next (in_motion low_draws)) by constructor.
  split; [exact Hids|].
  destruct (X7_second_start_orphans_first (in_motion low_draws) page_overlay
              page_title Hids)
    as (w1 & w2 & w3 & H1 & H2 & H3 & Hrun & _ & _ & Ht & _).
  exists w1, w2, w3. repeat split; try assumption.
  rewrite Ht.
  assert (Hw : w1 = world_of (start_ambient page_overlay page_title (in_motion low_draws)))
    by (rewrite H1; reflexivity).
  rewrite Hw. vm_compute. reflexivity.
Defined.

(* ===================================================================== *)
(** * The ambient cycle *)
(* ===================================================================== *)

Lemma to_delay_nonneg (a : num) : 0 <= JSNumber.to_delay a.
Proof. unfold JSNumber.to_delay. cbv zeta. apply Z.le_max_l. Qed.

(** Arithmetic over clock values: timer delays are not negative. *)
Ltac clock :=
  repeat match goal with
  | |- context [JSNumber.to_delay ?a] =>
      lazymatch goal with
      | H : 0 <= JSNumber.to_delay a |- _ => fail
      | _ => pose proof (to_delay_nonneg a)
      end
  end;
  lia.

Ltac settle1 :=
  match goal with
  | H : JSNumber.gt _ _ = _ |- _ => rewrite H
  | |- _ => progress unfold session_running, session_timeout, FRAME
  | |- _ => rewrite lookup_snoc
  | |- _ => rewrite alter_snoc
  | |- context [?a <? ?b] =>
      first [ replace (a <? b) with true by (symmetry; apply Z.ltb_lt; clock)
            | replace (a <? b) with false by (symmetry; apply Z.ltb_ge; clock) ]
  | |- context [Nat.eqb ?a ?b] =>
      first [ replace (Nat.eqb a b) with true by (symmetry; apply Nat.eqb_eq; lia)
            | replace (Nat.eqb a b) with false by (symmetry; apply Nat.eqb_neq; lia) ]
  | |- context [Z.max ?a ?b] =>
      first [ rewrite (Z.max_r a b) by clock | rewrite (Z.max_l a b) by clock ]
  end.

(** One turn of the event loop on a world given field by field, the
    sessions being those of the start plus the one under study. *)
Ltac tick :=
  rewrite steps_succ;
  lazymatch goal with
  | |- context [step ?w] =>
      let E := fresh "E" in
      let v := fresh "next" in
      evar (v : World);
      assert (E : step w = Some v) by
        (unfold step; cbn -[Nat.eqb lookup alter];
         repeat (settle1; cbn -[Nat.eqb lookup alter]);
         flat; unfold v; reflexivity);
      rewrite E; clear E; unfold v; clear v; cbv beta iota
  end.

(** X8.  Every ambient effect re-arms the cycle.  A session started
    with motion allowed and running alone waits for its random interval,
    then for the next animation frame (16 ms), and fires one effect: a
    subtle flash when the draw is at most 0.7, a flicker otherwise.  When
    the effect's promise resolves (100 ms after a flash, 280 or 350 ms
    after a flicker) the session draws a new interval and waits on a new
    timeout, whose id it stores; it is still running, the overlay is dark
    again, and that timeout is the only timer pending. *)
Theorem X8_ambient_cycle (w : World) (overlay : nat) :
  reducedMotion w = false -> timers w = [] ->
  (overlay < length (nodes (document w)))%nat ->
  let s := length (sessions w) in
  let r := random w in
  let p := randomPos w in
  let fire := now w + ambient_delay (r p) + 16 in
  let rearmed (turns : nat) (effect : Event) (took : Z) (draw : nat) (w' : World) :=
    trace w' = trace w ++ [(fire, EvAmbientEffect s); (fire, effect)]
    /\ timers w'
       = [mkTimer (nextTimer w + turns) (fire + took + ambient_delay (r draw)) None
            (CbAmbientTimeout s overlay)]
    /\ session_timeout s w' = Some (nextTimer w + turns)%nat
    /\ session_running s w' = true
    /\ opacity_at overlay w' = Some "0" in
  exists w1,
    startAmbientLightning overlay w = Returned (StopSession s overlay) w1
    /\ timers w1
       = [mkTimer (nextTimer w) (now w + ambient_delay (r p)) None
            (CbAmbientTimeout s overlay)]
    /\ (JSNumber.gt (r (S p)) (JSNumber.decimal 7 10) = false ->
        rearmed 4%nat (EvFlash overlay subtle) 100 (S (S p)) (steps 4 w1))
    /\ (JSNumber.gt (r (S p)) (JSNumber.decimal 7 10) = true ->
        JSNumber.gt (r (S (S p))) (JSNumber.decimal 1 2) = false ->
        rearmed 7%nat (EvFlicker overlay) 280 (S (S (S p))) (steps 7 w1))
    /\ (JSNumber.gt (r (S p)) (JSNumber.decimal 7 10) = true ->
        JSNumber.gt (r (S (S p))) (JSNumber.decimal 1 2) = true ->
        rearmed 9%nat (EvFlicker overlay) 350 (S (S (S p))) (steps 9 w1)).
Proof.
  intros Hrm Ht Hov.
  destruct w as [doc rm t0 nid ts rnd rp con init cs ss ac tr].
  cbn in Hrm, Ht, Hov. subst rm ts. cbn [random randomPos now nextTimer sessions trace].
  cbv zeta. unfold ambient_delay.
  destruct (lookup_lt_is_Some_2 _ _ Hov) as [e He].
  assert (Hstart :
    startAmbientLightning overlay
      (mkWorld doc false t0 nid [] rnd rp con init cs ss ac tr)
    = Returned (StopSession (length ss) overlay)
        (mkWorld doc false t0 (S nid)
           [mkTimer nid
              (t0 + JSNumber.to_delay
                      (JSNumber.add AMBIENT_MIN_INTERVAL
                         (JSNumber.mul (rnd rp)
                            (JSNumber.sub AMBIENT_MAX_INTERVAL AMBIENT_MIN_INTERVAL))))
              None (CbAmbientTimeout (length ss) overlay)]
           rnd (S rp) con init cs
           (ss ++ [mkAmbientSession true (Some nid)]) ac tr)).
  { unfold startAmbientLightning, bind at 1 2. cbn [sessions].
    unfold scheduleNext, bind at 1, gets, session_running.
    flat. rewrite lookup_snoc. cbn [isRunning negb].
    unfold getRandomInterval, Math_random, setTimeout, add_timer,
      update_session, modify, ret, bind.
    flat. rewrite alter_snoc. reflexivity. }
  eexists. split; [exact Hstart|]. split; [reflexivity|].
  split; [|split].
  - intros Hflash.
    do 4 tick. rewrite steps_zero.
    unfold session_timeout, session_running, opacity_at.
    cbn -[Nat.eqb lookup alter]. rewrite !lookup_snoc, !lookup_update_eq, He.
    cbn. rewrite <- app_assoc. cbn.
    repeat split; try reflexivity; repeat (f_equal; try lia).
  - intros Hflicker Hthird.
    do 7 tick. rewrite steps_zero.
    unfold session_timeout, session_running, opacity_at.
    cbn -[Nat.eqb lookup alter]. rewrite !lookup_snoc, !lookup_update_eq, He.
    cbn. rewrite <- app_assoc. cbn.
    repeat split; try reflexivity; repeat (f_equal; try lia).
  - intros Hflicker Hthird.
    do 9 tick. rewrite steps_zero.
    unfold session_timeout, session_running, opacity_at.
    cbn -[Nat.eqb lookup alter]. rewrite !lookup_snoc, !lookup_update_eq, He.
    cbn. rewrite <- app_assoc. cbn.
    repeat split; try reflexivity; repeat (f_equal; try lia).
Qed.

Lemma X8_ambient_cycle_witness :
  exists w1,
    startAmbientLightning page_overlay (in_motion low_draws)
    = Returned (StopSession 0 page_overlay) w1
    /\ map due (timers w1) = [9000]
    /\ ambient_fires 0 (trace (steps 4 w1)) = [(9016, EvAmbientEffect 0)]
    /\ map due (timers (steps 4 w1)) = [18116]
    /\ session_running 0 (steps 4 w1) = true.
Proof.
  destruct (X8_ambient_cycle (in_motion low_draws) page_overlay)
    as (w1 & Hstart & Ht & Hflash & _);
    [reflexivity | reflexivity | vm_compute; lia |].
  destruct Hflash as (Htr & Htm & _ & Hrun & _); [vm_compute; reflexivity|].
  exists w1. split; [exact Hstart|].
  rewrite Ht, Htr, Htm. split; [vm_compute; reflexivity|].
  split; [vm_compute; reflexivity|]. split; [vm_compute; reflexivity|]. exact Hrun.
Defined.

(** X9.  Under reduced motion the ambient cycle keeps turning without
    showing anything.  A session started while the reduced-motion signal
    is on still waits for its interval and for the animation frame and
    still draws its random number and calls the effect; the effect
    returns at once, the next interval is drawn and the next timeout
    registered in that same turn, and the document is never written to. *)
Theorem X9_ambient_cycle_reduced_motion (w : World) (overlay : nat) :
  reducedMotion w = true -> timers w = [] ->
  let s := length (sessions w) in
  let r := random w in
  let p := randomPos w in
  let fire := now w + ambient_delay (r p) + 16 in
  let effect := if JSNumber.gt (r (S p)) (JSNumber.decimal 7 10)
                then EvFlicker overlay else EvFlash overlay subtle in
  exists w1,
    startAmbientLightning overlay w = Returned (StopSession s overlay) w1
    /\ document w1 = document w
    /\ document (steps 1 w1) = document w
    /\ document (steps 2 w1) = document w
    /\ trace (steps 2 w1) = trace w ++ [(fire, EvAmbientEffect s); (fire, effect)]
    /\ timers (steps 2 w1)
       = [mkTimer (nextTimer w + 2) (fire + ambient_delay (r (S (S p)))) None
            (CbAmbientTimeout s overlay)]
    /\ session_timeout s (steps 2 w1) = Some (nextTimer w + 2)%nat
    /\ session_running s (steps 2 w1) = true.
Proof.
  intros Hrm Ht.
  destruct w as [doc rm t0 nid ts rnd rp con init cs ss ac tr].
  cbn in Hrm, Ht. subst rm ts. cbn [random randomPos now nextTimer sessions trace document].
  cbv zeta. unfold ambient_delay.
  assert (Hstart :
    startAmbientLightning overlay
      (mkWorld doc true t0 nid [] rnd rp con init cs ss ac tr)
    = Returned (StopSession (length ss) overlay)
        (mkWorld doc true t0 (S nid)
           [mkTimer nid
              (t0 + JSNumber.to_delay
                      (JSNumber.add AMBIENT_MIN_INTERVAL
                         (JSNumber.mul (rnd rp)
                            (JSNumber.sub AMBIENT_MAX_INTERVAL AMBIENT_MIN_INTERVAL))))
              None (CbAmbientTimeout (length ss) overlay)]
           rnd (S rp) con init cs
           (ss ++ [mkAmbientSession true (Some nid)]) ac tr)).
  { unfold startAmbientLightning, bind at 1 2. cbn [sessions].
    unfold scheduleNext, bind at 1, gets, session_running.
    flat. rewrite lookup_snoc. cbn [isRunning negb].
    unfold getRandomInterval, Math_random, setTimeout, add_timer,
      update_session, modify, ret, bind.
    flat. rewrite alter_snoc. reflexivity. }
  eexists. split; [exact Hstart|]. split; [reflexivity|].
  split; [tick; rewrite steps_zero; reflexivity|].
  destruct (JSNumber.gt (rnd (S rp)) (JSNumber.decimal 7 10)) eqn:Hdraw.
  - do 2 tick. rewrite steps_zero.
    unfold session_timeout, session_running.
    cbn -[Nat.eqb lookup alter]. rewrite !lookup_snoc.
    cbn. rewrite <- !app_assoc. cbn.
    repeat split; try reflexivity; repeat (f_equal; try lia).
  - do 2 tick. rewrite steps_zero.
    unfold session_timeout, session_running.
    cbn -[Nat.eqb lookup alter]. rewrite !lookup_snoc.
    cbn. rewrite <- !app_assoc. cbn.
    repeat split; try reflexivity; repeat (f_equal; try lia).
Qed.

Lemma X9_ambient_cycle_reduced_motion_witness :
  exists w1,
    startAmbientLightning page_overlay at_rest = Returned (StopSession 0 page_overlay) w1
    /\ document (steps 2 w1) = page
    /\ ambient_fires 0 (trace (steps 2 w1)) = [(9016, EvAmbientEffect 0)]
    /\ map due (timers (steps 2 w1)) = [18016].
Proof.
  destruct (X9_ambient_cycle_reduced_motion at_rest page_overlay)
    as (w1 & Hstart & _ & _ & Hdoc & Htr & Htm & _);
    [reflexivity | reflexivity |].
  exists w1. split; [exact Hstart|]. split; [exact Hdoc|].
  rewrite Htr, Htm. split; vm_compute; reflexivity.
Defined.

(* ===================================================================== *)
(** * A flicker and a flash on the same overlay *)
(* ===================================================================== *)

Ltac look Hov :=
  apply (f_equal2 pair);
  [ apply (f_equal2 pair); [repeat tick; rewrite ?steps_zero; cbn; lia|] |];
  (repeat tick; rewrite ?steps_zero; read_style Hov).

(** X10.  A flicker cuts short a full flash started at the same instant
    on the same overlay, which is how the timeline starts them at the
    impact.  The flash lights the overlay at "0.9" with the blue tint,
    but the flicker's first pulse ends 40 ms later and switches the
    overlay off; it is dark, though still tinted, until the flicker's
    second pulse lights it at "0.7" from 100 ms to 150 ms; then the
    flash's own timer, registered first, switches it off and removes the
    tint.  So the overlay shows the full intensity for 40 ms, not for the
    150 ms of the configuration. *)
Theorem X10_flicker_cuts_full_flash (w : World) (overlay : nat) :
  reducedMotion w = false -> timers w = [] ->
  (overlay < length (nodes (document w)))%nat ->
  let t := now w in
  exists w1,
    (exec (TlFlicker overlay) ;; exec (TlFlash overlay full)) w = Returned tt w1
    /\ map (overlay_look overlay w1) (seq 0 5)
       = [ (t, Some "0.9", Some BLUE_TINT);
           (t + 40, Some "0", Some BLUE_TINT);
           (t + 100, Some "0.7", Some BLUE_TINT);
           (t + 150, Some "0", Some "");
           (t + 150, Some "0", Some "") ]
    /\ duration (INTENSITY_CONFIG full) = 150.
Proof.
  intros Hrm Ht Hov.
  destruct w as [doc rm t0 nid ts rnd rp con init cs ss ac tr].
  cbn in Hrm, Ht, Hov. subst rm ts. cbn [now].
  eexists. split; [cbn; flat; reflexivity|].
  split; [|reflexivity].
  cbn [map seq]. unfold overlay_look.
  repeat (apply (f_equal2 cons); [look Hov|]). reflexivity.
Qed.

Lemma X10_flicker_cuts_full_flash_witness :
  exists w1,
    (exec (TlFlicker page_overlay) ;; exec (TlFlash page_overlay full))
      (in_motion low_draws) = Returned tt w1
    /\ overlay_look page_overlay w1 0 = (0, Some "0.9", Some BLUE_TINT)
    /\ overlay_look page_overlay w1 1 = (40, Some "0", Some BLUE_TINT).
Proof.
  destruct (X10_flicker_cuts_full_flash (in_motion low_draws) page_overlay)
    as (w1 & Hrun & Hlook & _);
    [reflexivity | reflexivity | vm_compute; lia |].
  exists w1. split; [exact Hrun|].
  split.
  - exact (f_equal (fun l => List.hd (0, None, None) l) Hlook).
  - exact (f_equal (fun l => List.hd (0, None, None) (List.tl l)) Hlook).
Defined.

(* ===================================================================== *)
(** * The schedule of the entrance *)
(* ===================================================================== *)

(** X11.  When the children of the entrance timeline start and end, in
    milliseconds from its creation, whatever the elements: the darkness
    tween fills the first 800 ms; the particles are accelerated at 800;
    flicker 1000, glitch 1300, medium flash 1500, glitch 1600, flicker
    1800; the full flash, the slash, the burst, the shake, the glitch and
    the title's reveal all start at 1800, the reveal ending at 2200; the
    particles are reset and the glow starts at 2200; the second slash
    2500; the tagline fades in from 2700 to 3300 and the coming-soon
    marker from 3600 to 4100, when the late glitch is armed and the
    ambient phase starts.  The children are placed in the order the
    source adds them, and the timeline lasts 4100 ms: the darkness and
    the reveal take the 800 ms and 400 ms of [PHASE_DURATIONS], but the
    anticipation takes 1000 ms and the settling 1900 ms, not the 1200 ms
    and 2000 ms of its other two entries. *)
Theorem X11_entrance_timetable (title tagline comingSoon overlay : nat)
  (slashLine burstOverlay particles : option nat) :
  let children :=
    place_steps None
      (entrance_steps title tagline comingSoon overlay slashLine burstOverlay particles) in
  map (fun c => (childStart c, childEnd c)) children
  = [ (0, 800); (800, 800); (1000, 1000); (1300, 1300); (1500, 1500);
      (1600, 1600); (1800, 1800);
      (1800, 1800); (1800, 1800); (1800, 1800); (1800, 1800); (1800, 1800);
      (1800, 2200);
      (2200, 2200); (2200, 2200); (2500, 2500); (2700, 3300); (3600, 4100);
      (4100, 4100); (4100, 4100) ]
  /\ map fires children
     = [ CbTweenEnd None no_vars NoOnComplete;
         TlAccelerate particles; TlFlicker overlay; TlGlitch title 150;
         TlFlash overlay medium; TlGlitch title 100; TlFlicker overlay;
         TlFlash overlay full; TlSlash slashLine; TlBurst burstOverlay;
         TlShake 500; TlGlitch title 200;
         CbTweenEnd (Some title) REVEAL NoOnComplete;
         TlReset particles; TlGlowPulse title; TlSecondSlash slashLine;
         CbTweenEnd (Some tagline) (mkTweenVars (Some "1") None (Some "0") None)
           (MarkRevealed tagline);
         CbTweenEnd (Some comingSoon) (mkTweenVars (Some "1") (Some "1") None None)
           (MarkRevealed comingSoon);
         TlExtraGlitch title; TlAmbient overlay title ]
  /\ total_duration children = 4100
  /\ 1800 - 800 <> PHASE_anticipation
  /\ 4100 - 2200 <> PHASE_settle
  /\ 800 = PHASE_darkness
  /\ 2200 - 1800 = PHASE_impact.
Proof.
  cbv zeta. split; [reflexivity|]. split; [reflexivity|]. split; [reflexivity|].
  repeat split; unfold PHASE_anticipation, PHASE_settle; lia.
Qed.

(* ===================================================================== *)
(** * The glitches of the ambient phase *)
(* ===================================================================== *)

(** X12.  The glitch interval of the ambient phase.  Every 5000 ms the
    interval draws one random number; when the draw is at most 0.7 the
    tick changes nothing, otherwise it glitches the title for 80 ms, after
    which the document is what it was.  Either way the interval is due
    again 5000 ms after the tick, under the same id. *)
Theorem X12_glitch_interval (w : World) (title id : nat) (e : Element) (T : Z) :
  timers w = [mkTimer id T (Some 5000) (CbGlitchInterval title)] ->
  (id < nextTimer w)%nat ->
  now w <= T ->
  nodes (document w) !! title = Some e ->
  has_class "glitch" e = false ->
  let again := mkTimer id (T + 5000) (Some 5000) (CbGlitchInterval title) in
  now (steps 1 w) = T
  /\ randomPos (steps 1 w) = S (randomPos w)
  /\ (JSNumber.gt (random w (randomPos w)) (JSNumber.decimal 7 10) = false ->
      document (steps 1 w) = document w
      /\ timers (steps 1 w) = [again]
      /\ trace (steps 1 w) = trace w)
  /\ (JSNumber.gt (random w (randomPos w)) (JSNumber.decimal 7 10) = true ->
      classes_at title (steps 1 w) = Some (classList e ++ ["glitch"])
      /\ trace (steps 1 w) = trace w ++ [(T, EvGlitch title 80)]
      /\ timers (steps 1 w)
         = [again; mkTimer (nextTimer w) (T + 80) None (CbRemoveClass title "glitch")]
      /\ now (steps 2 w) = T + 80
      /\ document (steps 2 w) = document w
      /\ timers (steps 2 w) = [again]).
Proof.
  intros Ht Hid Hnow He Hc.
  destruct w as [doc rm t0 nid ts rnd rp con init cs ss ac tr].
  cbn in Ht, Hid, Hnow, He. subst ts. cbn [random randomPos now nextTimer document trace].
  cbv zeta.
  destruct (JSNumber.gt (rnd rp) (JSNumber.decimal 7 10)) eqn:Hdraw.
  - split; [tick; rewrite steps_zero; reflexivity|].
    split; [tick; rewrite steps_zero; reflexivity|].
    split; [discriminate|]. intros _.
    split.
    { tick. rewrite steps_zero. unfold classes_at. cbn.
      rewrite lookup_update_eq, He. cbn. unfold classList_add. now rewrite Hc. }
    split; [tick; rewrite steps_zero; reflexivity|].
    split; [tick; rewrite steps_zero; reflexivity|].
    split; [do 2 tick; rewrite steps_zero; reflexivity|].
    split; [|do 2 tick; rewrite steps_zero; reflexivity].
    do 2 tick. rewrite steps_zero. cbn.
    apply (updates_undone title [classList_remove "glitch"; classList_add "glitch"]
             _ e He).
    cbn. now apply classList_remove_add.
  - split; [tick; rewrite steps_zero; reflexivity|].
    split; [tick; rewrite steps_zero; reflexivity|].
    split; [|discriminate]. intros _.
    tick. rewrite steps_zero. repeat split.
Qed.

Lemma X12_glitch_interval_witness :
  let w := with_timers [mkTimer 0 5000 (Some 5000) (CbGlitchInterval page_title)]
             (in_motion high_draws) in
  classes_at page_title (steps 1 w) = Some ["title"; "glitch"]
  /\ map due (timers (steps 1 w)) = [10000; 5080]
  /\ document (steps 2 w) = page.
Proof.
  intros w.
  destruct (X12_glitch_interval w page_title 0 (blank "" ["title"]) 5000)
    as (_ & _ & _ & H);
    [reflexivity | vm_compute; lia | vm_compute; discriminate | reflexivity
    | reflexivity |].
  destruct H as (Hcls & _ & Htm & _ & Hdoc & _); [vm_compute; reflexivity|].
  rewrite Htm. split; [exact Hcls|]. split; [reflexivity | exact Hdoc].
Defined.

(* ===================================================================== *)
(** * The entrance: the particle host and the initial states *)
(* ===================================================================== *)

(** X13.  Without the element "particles" the engine is never asked.
    With motion allowed and the required elements present, a document
    without that element makes [runEntranceAnimation] do the same
    whatever the engine would answer: nothing is logged even if the
    engine would fail, no container is stored even if it would deliver
    one, and the timeline's two particle callbacks are scheduled with an
    absent handle. *)
Theorem X13_no_host_no_engine (w : World) (k : Kont) (o : InitOutcome)
  (content title tagline comingSoon overlay : nat) :
  reducedMotion w = false ->
  stage (document w) content title tagline comingSoon overlay ->
  getElementById "particles" (document w) = None ->
  exists w',
    runEntranceAnimation k w = Returned tt w'
    /\ runEntranceAnimation k (with_initOutcome o w)
       = Returned tt (with_initOutcome o w')
    /\ console w' = console w
    /\ containers w' = containers w
    /\ initOutcome w' = initOutcome w
    /\ In (TlAccelerate None) (map callback (timers w'))
    /\ In (TlReset None) (map callback (timers w')).
Proof.
  intros Hrm (Hc & Ht & Hg & Hs & Ho) Hp.
  destruct w as [doc rm t0 nid ts rnd rp con init cs ss ac tr].
  cbn in Hrm, Hc, Ht, Hg, Hs, Ho, Hp. subst rm.
  unfold runEntranceAnimation, bind, gets. cbn.
  rewrite Hc, Ht, Hg, Hs, Ho, Hp.
  destruct (getElementById "loading" doc) as [loading|],
    (getElementById "slash-overlay" doc) as [slashOverlay|].
  all: eexists.
  all: split; [cbn; flat; reflexivity|].
  all: split; [cbn; flat; reflexivity|].
  all: split; [reflexivity|].
  all: split; [reflexivity|].
  all: split; [reflexivity|].
  all: split; in_list.
Qed.

Lemma X13_no_host_no_engine_witness :
  exists w',
    runEntranceAnimation (KProbe "entrance") hostless = Returned tt w'
    /\ console w' = []
    /\ runEntranceAnimation (KProbe "entrance")
         (with_initOutcome (InitContainer drifting) hostless)
       = Returned tt (with_initOutcome (InitContainer drifting) w')
    /\ containers w' = [].
Proof.
  destruct (X13_no_host_no_engine hostless (KProbe "entrance") (InitContainer drifting)
              2 3 4 5 6)
    as (w' & Hrun & Hsame & Hcon & Hcs & _);
    [reflexivity | repeat split | reflexivity |].
  exists w'. split; [exact Hrun|]. split; [exact Hcon|].
  split; [exact Hsame | exact Hcs].
Defined.

(** X14.  The initial states.  On a page without the particle host,
    where the call awaits nothing, with motion allowed and the required
    elements found, the call of [runEntranceAnimation] itself (before any
    timer fires) shows the content container (class "hidden" removed,
    opacity "1"), hides the three text elements (title: opacity "0",
    scale "1.5", filter "blur(20px)"; tagline: opacity "0", y "30";
    coming-soon marker: opacity "0", scale "0.8") and shows the slash
    overlay if there is one (opacity "1"), these elements being distinct;
    every other element, the loading indicator included, is as before,
    no effect has been issued, and the clock has not moved. *)
Theorem X14_entrance_initial_states (w : World) (k : Kont)
  (content title tagline comingSoon overlay : nat) (ec et eg es : Element) :
  reducedMotion w = false ->
  getElementById "particles" (document w) = None ->
  stage (document w) content title tagline comingSoon overlay ->
  NoDup (prepared (document w) content title tagline comingSoon) ->
  nodes (document w) !! content = Some ec ->
  nodes (document w) !! title = Some et ->
  nodes (document w) !! tagline = Some eg ->
  nodes (document w) !! comingSoon = Some es ->
  exists w',
    runEntranceAnimation k w = Returned tt w'
    /\ nodes (document w') !! content
       = Some (set_opacity "1" (classList_remove "hidden" ec))
    /\ nodes (document w') !! title
       = Some (set_filter "blur(20px)" (set_gsapScale "1.5" (set_opacity "0" et)))
    /\ nodes (document w') !! tagline
       = Some (set_gsapY "30" (set_opacity "0" eg))
    /\ nodes (document w') !! comingSoon
       = Some (set_gsapScale "0.8" (set_opacity "0" es))
    /\ (forall so, getElementById "slash-overlay" (document w) = Some so ->
          nodes (document w') !! so = set_opacity "1" <$> nodes (document w) !! so)
    /\ (forall h, ~ In h (prepared (document w) content title tagline comingSoon) ->
          nodes (document w') !! h = nodes (document w) !! h)
    /\ trace w' = trace w
    /\ now w' = now w.
Proof.
  intros Hrm Hp (Hc & Ht & Hg & Hs & Ho) Hnd Hec Het Heg Hes.
  destruct w as [doc rm t0 nid ts rnd rp con init cs ss ac tr].
  cbn in Hrm, Hp, Hc, Ht, Hg, Hs, Ho, Hnd, Hec, Het, Heg, Hes. subst rm.
  unfold prepared. cbn [document trace now].
  unfold runEntranceAnimation, bind, gets. cbn.
  rewrite Hc, Ht, Hg, Hs, Ho, Hp.
  unfold prepared in Hnd.
  destruct (getElementById "slash-overlay" doc) as [so|]; cbn [found app] in *.
  - rewrite !NoDup_cons, !not_elem_of_cons in Hnd.
    cbn [In] in *.
    assert (Hne : content <> title /\ content <> tagline /\ content <> comingSoon
                  /\ content <> so /\ title <> tagline /\ title <> comingSoon
                  /\ title <> so /\ tagline <> comingSoon /\ tagline <> so
                  /\ comingSoon <> so) by (repeat split; intros E; subst; tauto).
    destruct Hne as (N1 & N2 & N3 & N4 & N5 & N6 & N7 & N8 & N9 & N10).
    destruct (getElementById "loading" doc) as [loading|].
    all: eexists; split; [cbn; flat; reflexivity|].
    all: cbn [document trace now]; unfold gsap_set, apply_vars, apply_opt;
      cbn [toOpacity toScale toY toFilter].
    all: split;
      [ rewrite ?(lookup_update_ne _ content) by congruence;
        rewrite !lookup_update_eq, Hec; reflexivity |].
    all: split;
      [ rewrite ?(lookup_update_ne _ title) by congruence;
        rewrite !lookup_update_eq;
        rewrite ?(lookup_update_ne _ title) by congruence;
        rewrite Het; reflexivity |].
    all: split;
      [ rewrite ?(lookup_update_ne _ tagline) by congruence;
        rewrite !lookup_update_eq;
        rewrite ?(lookup_update_ne _ tagline) by congruence;
        rewrite Heg; reflexivity |].
    all: split;
      [ rewrite ?(lookup_update_ne _ comingSoon) by congruence;
        rewrite !lookup_update_eq;
        rewrite ?(lookup_update_ne _ comingSoon) by congruence;
        rewrite Hes; reflexivity |].
    all: split;
      [ intros so' Hso; injection Hso as <-;
        rewrite lookup_update_eq;
        rewrite ?(lookup_update_ne _ so) by congruence; reflexivity |].
    all: split; [|split; reflexivity].
    all: intros h Hh;
      rewrite ?lookup_update_ne by (intros E; subst; tauto); reflexivity.
  - rewrite !NoDup_cons, !not_elem_of_cons in Hnd.
    cbn [In] in *.
    assert (Hne : content <> title /\ content <> tagline /\ content <> comingSoon
                  /\ title <> tagline /\ title <> comingSoon
                  /\ tagline <> comingSoon) by (repeat split; intros E; subst; tauto).
    destruct Hne as (N1 & N2 & N3 & N5 & N6 & N8).
    destruct (getElementById "loading" doc) as [loading|].
    all: eexists; split; [cbn; flat; reflexivity|].
    all: cbn [document trace now]; unfold gsap_set, apply_vars, apply_opt;
      cbn [toOpacity toScale toY toFilter].
    all: split;
      [ rewrite ?(lookup_update_ne _ content) by congruence;
        rewrite !lookup_update_eq, Hec; reflexivity |].
    all: split;
      [ rewrite ?(lookup_update_ne _ title) by congruence;
        rewrite !lookup_update_eq;
        rewrite ?(lookup_update_ne _ title) by congruence;
        rewrite Het; reflexivity |].
    all: split;
      [ rewrite ?(lookup_update_ne _ tagline) by congruence;
        rewrite !lookup_update_eq;
        rewrite ?(lookup_update_ne _ tagline) by congruence;
        rewrite Heg; reflexivity |].
    all: split;
      [ rewrite ?(lookup_update_ne _ comingSoon) by congruence;
        rewrite !lookup_update_eq;
        rewrite ?(lookup_update_ne _ comingSoon) by congruence;
        rewrite Hes; reflexivity |].
    all: split; [intros so' Hso; discriminate|].
    all: split; [|split; reflexivity].
    all: intros h Hh;
      rewrite ?lookup_update_ne by (intros E; subst; tauto); reflexivity.
Qed.

Lemma X14_entrance_initial_states_witness :
  exists w',
    runEntranceAnimation (KProbe "entrance") unhosted = Returned tt w'
    /\ classes_at 2 w' = Some []
    /\ map (fun h => opacity_at h w') [1; 2; 3; 4; 5; 7]%nat
       = [Some ""; Some "1"; Some "0"; Some "0"; Some "0"; Some "1"].
Proof.
  destruct (X14_entrance_initial_states unhosted (KProbe "entrance")
              2 3 4 5 6
              (blank "content" ["hidden"]) (blank "" ["title"])
              (blank "" ["tagline"]) (blank "" ["coming-soon"]))
    as (w' & Hrun & Hc & Ht & Hg & Hs & Hso & Hrest & _);
    [ reflexivity | reflexivity | repeat split
    | apply (bool_decide_unpack _); vm_compute; exact I
    | reflexivity | reflexivity | reflexivity | reflexivity |].
  exists w'. split; [exact Hrun|].
  unfold classes_at, opacity_at. cbn [map].
  rewrite Hc, Ht, Hg, Hs, (Hso 7%nat eq_refl), (Hrest 1%nat).
  - split; reflexivity.
  - vm_compute. intuition discriminate.
Defined.

(* ===================================================================== *)
(** * Turns of the event loop on a symbolic world *)
(* ===================================================================== *)

Lemma earliest_one (t : Timer) : earliest [t] = Some t.
Proof. reflexivity. Qed.

Lemma earliest_keep (t u : Timer) (r : list Timer) :
  earliest r = Some u -> due t <= due u -> earliest (t :: r) = Some t.
Proof.
  intros Hr Hle. cbn. rewrite Hr.
  destruct (Z.ltb_spec (due u) (due t)); [lia | reflexivity].
Qed.

Lemma earliest_skip (t u : Timer) (r : list Timer) :
  earliest r = Some u -> due u < due t -> earliest (t :: r) = Some u.
Proof.
  intros Hr Hlt. cbn. rewrite Hr.
  destruct (Z.ltb_spec (due u) (due t)); [reflexivity | lia].
Qed.

Lemma pending_drop (id : nat) (a : Timer) (l r : list Timer) :
  timerId a = id ->
  List.filter (fun u => negb (Nat.eqb (timerId u) id)) l = r ->
  List.filter (fun u => negb (Nat.eqb (timerId u) id)) (a :: l) = r.
Proof. intros Ha Hl. cbn. now rewrite Ha, Nat.eqb_refl. Qed.

Lemma pending_keep (id : nat) (a : Timer) (l r : list Timer) :
  timerId a <> id ->
  List.filter (fun u => negb (Nat.eqb (timerId u) id)) l = r ->
  List.filter (fun u => negb (Nat.eqb (timerId u) id)) (a :: l) = a :: r.
Proof.
  intros Ha Hl. cbn. apply Nat.eqb_neq in Ha. rewrite Ha. cbn. now rewrite Hl.
Qed.

(** One turn of the event loop that fires a one-shot timer whose
    callback returns. *)
Lemma step_fire (w : World) (t : Timer) (rest : list Timer) (w2 : World) :
  earliest (timers w) = Some t ->
  period t = None ->
  List.filter (fun u => negb (Nat.eqb (timerId u) (timerId t))) (timers w) = rest ->
  returned (exec (callback t)
              (with_timers rest (with_now (Z.max (now w) (due t)) w))) = Some w2 ->
  step w = Some w2.
Proof.
  intros He Hp Hr Hx. unfold step. rewrite He. unfold dequeue. rewrite Hp, Hr.
  destruct (exec (callback t) _) as [a w'|e w']; cbn in Hx; congruence.
Qed.

Lemma earliest_head (t : Timer) (r : list Timer) :
  Forall (fun u => due t <= due u) r -> earliest (t :: r) = Some t.
Proof.
  intros H. cbn. destruct (earliest r) as [u|] eqn:Hu; [|reflexivity].
  pose proof (proj1 (List.Forall_forall _ _) H u (earliest_In _ _ Hu)) as Hle.
  cbn in Hle. destruct (Z.ltb_spec (due u) (due t)); [lia | reflexivity].
Qed.

Ltac find_earliest_rec :=
  lazymatch goal with
  | |- earliest [_] = _ => apply earliest_one
  | |- earliest (?t :: ?r) = _ =>
      let u := fresh "u" in
      let H := fresh "H" in
      evar (u : Timer);
      assert (H : earliest r = Some u) by (unfold u; find_earliest_rec);
      unfold u in H; clear u;
      first [ apply (earliest_keep _ _ _ H); cbn [due]; clock
            | apply (earliest_skip _ _ _ H); cbn [due]; clock ]
  end.

(** The next timer to fire: found by comparing the due times along the
    queue or, when the order of the later timers is not known, by
    checking that the first one is due no later than any other. *)
Ltac find_earliest :=
  first [ find_earliest_rec
        | apply earliest_head; repeat (constructor; [cbn [due]; clock|]);
          constructor ].

Ltac find_rest :=
  lazymatch goal with
  | |- List.filter _ [] = _ => reflexivity
  | |- List.filter _ (_ :: _) = _ =>
      first [ apply pending_drop; [cbn [timerId]; lia | find_rest]
            | apply pending_keep; [cbn [timerId]; lia | find_rest] ]
  end.

Lemma body_update_element (h : nat) (f : Element -> Element) (d : Document) :
  body (update_element h f d) = body d.
Proof. reflexivity. Qed.

Lemma length_update_element (h : nat) (f : Element -> Element) (d : Document) :
  length (nodes (update_element h f d)) = length (nodes d).
Proof. unfold update_element. cbn. apply length_alter. Qed.

(** Writing to elements neither gives a document a body nor takes it
    away. *)
Lemma document_body_update_element (h : nat) (f : Element -> Element) (d : Document) :
  document_body (update_element h f d) = document_body d.
Proof.
  unfold document_body. now rewrite length_update_element, body_update_element.
Qed.

Lemma document_body_present (d : Document) :
  is_Some (nodes d !! body d) -> document_body d = Some (body d).
Proof.
  intros H. apply lookup_lt_is_Some in H. unfold document_body.
  destruct (Nat.ltb_spec (body d) (length (nodes d))); [reflexivity | lia].
Qed.

Lemma document_body_update_present (o : option nat) (f : Element -> Element)
  (d : Document) :
  document_body (update_present o f d) = document_body d.
Proof. destruct o; [apply document_body_update_element | reflexivity]. Qed.

(** A write to an element that may be missing. *)
Lemma when_present_write (o : option nat) (f : Element -> Element) (w : World) :
  when_present o (fun h => write h f) w
  = Returned tt (with_document (update_present o f (document w)) w).
Proof. destruct o; [reflexivity | destruct w; reflexivity]. Qed.

Ltac settle2 :=
  first [ settle1
        | rewrite body_update_element
        | rewrite document_body_update_element
        | rewrite document_body_update_present
        | match goal with
          | H : document_body _ = Some _ |- _ => rewrite H
          end
        | rewrite start_ambient_spec; unfold ambient_started, ambient_delay ].

Ltac fire :=
  rewrite steps_succ;
  lazymatch goal with
  | |- context [step ?w] =>
      let E := fresh "E" in
      let v := fresh "next" in
      evar (v : World);
      assert (E : step w = Some v) by
        (eapply step_fire;
         [ cbn [timers]; find_earliest
         | reflexivity
         | cbn [timers timerId]; find_rest
         | cbn [callback due]; flat; rewrite Z.max_r by clock;
           cbn -[Nat.eqb lookup alter start_ambient];
           repeat (settle2; cbn -[Nat.eqb lookup alter start_ambient]);
           flat; unfold v; reflexivity ]);
      rewrite E; clear E; unfold v; clear v; cbv beta iota
  end.

(** [k] turns of the event loop, for the term [steps n _] of the goal. *)
Tactic Notation "turns" integer(k) constr(n) :=
  match goal with
  | |- context [steps n ?w1] =>
      let wf := fresh "wf" in
      let Hf := fresh "Hf" in
      evar (wf : World);
      assert (Hf : steps n w1 = wf) by
        (do k fire; rewrite steps_zero; unfold wf; reflexivity);
      unfold wf in Hf; clear wf; rewrite !Hf; clear Hf
  end.

(** ** What the class list operations leave alone *)

Lemma classList_add_style (c : string) (x : Element) :
  display (classList_add c x) = display x
  /\ opacity (classList_add c x) = opacity x
  /\ transform (classList_add c x) = transform x
  /\ cssFilter (classList_add c x) = cssFilter x
  /\ background (classList_add c x) = background x
  /\ gsapScale (classList_add c x) = gsapScale x
  /\ gsapY (classList_add c x) = gsapY x.
Proof. unfold classList_add. destruct (has_class c x); repeat split. Qed.

Lemma display_classList_add c x : display (classList_add c x) = display x.
Proof. apply classList_add_style. Qed.
Lemma opacity_classList_add c x : opacity (classList_add c x) = opacity x.
Proof. apply classList_add_style. Qed.
Lemma transform_classList_add c x : transform (classList_add c x) = transform x.
Proof. apply classList_add_style. Qed.
Lemma cssFilter_classList_add c x : cssFilter (classList_add c x) = cssFilter x.
Proof. apply classList_add_style. Qed.
Lemma background_classList_add c x : background (classList_add c x) = background x.
Proof. apply classList_add_style. Qed.
Lemma gsapScale_classList_add c x : gsapScale (classList_add c x) = gsapScale x.
Proof. apply classList_add_style. Qed.
Lemma gsapY_classList_add c x : gsapY (classList_add c x) = gsapY x.
Proof. apply classList_add_style. Qed.

Lemma has_class_add_same (c : string) (x : Element) :
  has_class c (classList_add c x) = true.
Proof.
  unfold classList_add. destruct (has_class c x) eqn:H; [exact H|].
  unfold has_class. cbn. rewrite existsb_app. cbn.
  now rewrite String.eqb_refl, orb_true_r.
Qed.

Lemma has_class_add_other (c c' : string) (x : Element) :
  c <> c' -> has_class c (classList_add c' x) = has_class c x.
Proof.
  intros Hne. unfold classList_add. destruct (has_class c' x); [reflexivity|].
  unfold has_class. cbn. rewrite existsb_app. cbn.
  apply String.eqb_neq in Hne. now rewrite Hne, !orb_false_r.
Qed.

Lemma has_class_remove_same (c : string) (x : Element) :
  has_class c (classList_remove c x) = false.
Proof.
  unfold has_class, classList_remove. cbn.
  induction (classList x) as [|a l IH]; cbn; [reflexivity|].
  destruct (String.eqb c a) eqn:E; cbn; [exact IH | now rewrite E].
Qed.

Lemma display_classList_remove c x : display (classList_remove c x) = display x.
Proof. reflexivity. Qed.
Lemma opacity_classList_remove c x : opacity (classList_remove c x) = opacity x.
Proof. reflexivity. Qed.
Lemma transform_classList_remove c x : transform (classList_remove c x) = transform x.
Proof. reflexivity. Qed.
Lemma cssFilter_classList_remove c x : cssFilter (classList_remove c x) = cssFilter x.
Proof. reflexivity. Qed.
Lemma background_classList_remove c x : background (classList_remove c x) = background x.
Proof. reflexivity. Qed.
Lemma gsapScale_classList_remove c x : gsapScale (classList_remove c x) = gsapScale x.
Proof. reflexivity. Qed.
Lemma gsapY_classList_remove c x : gsapY (classList_remove c x) = gsapY x.
Proof. reflexivity. Qed.
Lemma has_class_set_display c v x : has_class c (set_display v x) = has_class c x.
Proof. reflexivity. Qed.
Lemma has_class_set_opacity c v x : has_class c (set_opacity v x) = has_class c x.
Proof. reflexivity. Qed.
Lemma has_class_set_transform c v x : has_class c (set_transform v x) = has_class c x.
Proof. reflexivity. Qed.
Lemma has_class_set_filter c v x : has_class c (set_filter v x) = has_class c x.
Proof. reflexivity. Qed.
Lemma has_class_set_background c v x : has_class c (set_background v x) = has_class c x.
Proof. reflexivity. Qed.
Lemma has_class_set_gsapScale c v x : has_class c (set_gsapScale v x) = has_class c x.
Proof. reflexivity. Qed.
Lemma has_class_set_gsapY c v x : has_class c (set_gsapY v x) = has_class c x.
Proof. reflexivity. Qed.

Create Rewrite HintDb element.
#[local] Hint Rewrite display_classList_add opacity_classList_add
  transform_classList_add cssFilter_classList_add background_classList_add
  gsapScale_classList_add gsapY_classList_add
  display_classList_remove opacity_classList_remove
  transform_classList_remove cssFilter_classList_remove background_classList_remove
  gsapScale_classList_remove gsapY_classList_remove
  has_class_set_display has_class_set_opacity has_class_set_transform
  has_class_set_filter has_class_set_background has_class_set_gsapScale
  has_class_set_gsapY
  has_class_add_same has_class_remove_same : element.
#[local] Hint Rewrite has_class_add_other has_class_remove_other
  using discriminate : element.

(** The element behind [h] after a series of writes: the writes through
    [h] itself, applied to what was there. *)
Ltac behind He :=
  repeat first [ rewrite lookup_update_eq
               | rewrite lookup_update_ne by congruence ];
  rewrite He; reflexivity.

Ltac facts :=
  unfold REVEAL, apply_vars, apply_opt;
  repeat (cbn [toOpacity toScale toY toFilter elId classList display opacity
               transform cssFilter background gsapScale gsapY
               set_display set_opacity set_transform set_filter
               set_background set_gsapScale set_gsapY];
          try (progress autorewrite with element));
  repeat split; try reflexivity.

(** The children of the entrance timeline, placed. *)
Lemma entrance_children (title tagline comingSoon overlay : nat)
  (slashLine burstOverlay particles : option nat) :
  place_steps None
    (entrance_steps title tagline comingSoon overlay slashLine burstOverlay particles)
  = [ mkChild 0 800 (CbTweenEnd None no_vars NoOnComplete);
      mkChild 800 800 (TlAccelerate particles);
      mkChild 1000 1000 (TlFlicker overlay);
      mkChild 1300 1300 (TlGlitch title 150);
      mkChild 1500 1500 (TlFlash overlay medium);
      mkChild 1600 1600 (TlGlitch title 100);
      mkChild 1800 1800 (TlFlicker overlay);
      mkChild 1800 1800 (TlFlash overlay full);
      mkChild 1800 1800 (TlSlash slashLine);
      mkChild 1800 1800 (TlBurst burstOverlay);
      mkChild 1800 1800 (TlShake 500);
      mkChild 1800 1800 (TlGlitch title 200);
      mkChild 1800 2200 (CbTweenEnd (Some title) REVEAL NoOnComplete);
      mkChild 2200 2200 (TlReset particles);
      mkChild 2200 2200 (TlGlowPulse title);
      mkChild 2500 2500 (TlSecondSlash slashLine);
      mkChild 2700 3300
        (CbTweenEnd (Some tagline) (mkTweenVars (Some "1") None (Some "0") None)
           (MarkRevealed tagline));
      mkChild 3600 4100
        (CbTweenEnd (Some comingSoon) (mkTweenVars (Some "1") (Some "1") None None)
           (MarkRevealed comingSoon));
      mkChild 4100 4100 (TlExtraGlitch title);
      mkChild 4100 4100 (TlAmbient overlay title) ].
Proof. reflexivity. Qed.

(** The element behind a handle, once the whole run is known. *)
Ltac shown Hin :=
  let e := fresh "e" in
  let He := fresh "He" in
  destruct Hin as [e He];
  eexists; split; [behind He | facts].

(* ===================================================================== *)
(** * The instant of the impact *)
(* ===================================================================== *)

Lemma steps_add (n m : nat) (w : World) : steps (n + m) w = steps m (steps n w).
Proof.
  revert w. induction n as [|n IH]; intros w; [reflexivity|].
  cbn [Nat.add]. rewrite !steps_succ.
  destruct (step w) as [w'|] eqn:Hs; [apply IH|].
  clear IH. induction m as [|m IHm]; [reflexivity|].
  rewrite steps_succ, Hs. reflexivity.
Qed.

Lemma past_insensitive (T : Z) (tr : list (Z * Event)) :
  Insensitive (past T tr) (fun _ => True) (fun _ => True) (fun _ => True).
Proof.
  constructor; try (intros; assumption).
  - intros t w _ [Hnow Hlater]. split; [cbn; lia | exact Hlater].
  - intros e w _ (Hnow & later & Htr & Hlater). split; [exact Hnow|].
    exists (later ++ [(now w, e)]). cbn. rewrite Htr, <- app_assoc.
    split; [reflexivity|]. apply Forall_app. split; [exact Hlater|].
    constructor; [exact Hnow | constructor].
Qed.

Lemma past_frame (T : Z) (tr : list (Z * Event)) (s overlay : nat) :
  keeps (past T tr) (ambient_frame s overlay).
Proof.
  pose proof (past_insensitive T tr) as HI.
  apply keeps_bind; [apply keeps_gets|]. intros running.
  destruct (negb running); [apply keeps_ret|].
  apply keeps_bind; [apply (keeps_Math_random HI)|]. intros r.
  apply keeps_bind; [now apply (keeps_record HI)|]. intros _.
  destruct (JSNumber.gt r (JSNumber.decimal 7 10)).
  - apply (keeps_flickerLightning HI); intros; exact I.
  - apply (keeps_flash_untinted HI); try (intros; exact I). discriminate.
Qed.

(** The clock never goes back: once every pending timer is due after
    [T], whatever the event loop runs later is stamped after [T]. *)
Lemma instant_closed (T : Z) (w : World) (m : nat) :
  Forall (fun x => T < due x) (timers w) ->
  exists later,
    trace (steps m w) = trace w ++ later /\ Forall (fun p => T < fst p) later.
Proof.
  intros Hdue. destruct m as [|m].
  { exists []. rewrite steps_zero, app_nil_r. now split. }
  rewrite steps_succ. destruct (step w) as [w'|] eqn:Hs.
  2:{ exists []. rewrite app_nil_r. now split. }
  pose proof (past_insensitive T (trace w)) as HI.
  assert (Hpast : past T (trace w) w').
  { unfold step in Hs.
    destruct (earliest (timers w)) as [t|] eqn:Ht; [|discriminate].
    injection Hs as <-.
    pose proof (proj1 (List.Forall_forall _ _) Hdue t (earliest_In _ _ Ht)) as Hlate.
    cbn in Hlate.
    assert (H1 : past T (trace w)
                   (with_timers (dequeue t (timers w))
                      (with_now (Z.max (now w) (due t)) w))).
    { split; [cbn; lia|]. exists []. cbn. rewrite app_nil_r. now split. }
    pose proof (keeps_exec HI (fun _ => I) (fun _ => I) (fun _ _ => I)
                  (fun _ => I) (fun _ => I) (fun _ => I) (fun _ _ => I)
                  (fun _ => I) (fun _ => I) (fun _ _ => I)
                  (past_frame T (trace w)) (callback t) _ H1) as H2.
    destruct (exec (callback t) _) as [a w2|e w2]; cbn in H2; [exact H2|].
    now apply (ins_console _ _ _ _ HI). }
  apply (keeps_steps HI (fun _ => I) (fun _ => I) (fun _ _ => I)
           (fun _ => I) (fun _ => I) (fun _ => I) (fun _ _ => I)
           (fun _ => I) (fun _ => I) (fun _ _ => I)
           (past_frame T (trace w)) m) in Hpast.
  exact (proj2 Hpast).
Qed.

Lemma events_at_app (T : Z) (a b : list (Z * Event)) :
  events_at T (a ++ b) = events_at T a ++ events_at T b.
Proof. unfold events_at. now rewrite List.filter_app, map_app. Qed.

Lemma events_at_stamped (T : Z) (l : list Event) :
  events_at T (map (pair T) l) = l.
Proof.
  unfold events_at. induction l as [|e l IH]; [reflexivity|].
  cbn. rewrite Z.eqb_refl. cbn. now rewrite IH.
Qed.

Lemma events_at_later (T : Z) (l : list (Z * Event)) :
  Forall (fun p => T < fst p) l -> events_at T l = [].
Proof.
  unfold events_at. induction 1 as [|p l Hp _ IH]; [reflexivity|].
  cbn. destruct (Z.eqb_spec (fst p) T); [lia | exact IH].
Qed.

Lemma issued_since_app (w w' : World) (l : list (Z * Event)) :
  trace w' = trace w ++ l -> issued_since w w' = l.
Proof.
  intros H. unfold issued_since. rewrite H.
  now rewrite skipn_app, Nat.sub_diag, skipn_all.
Qed.

(** The call of [runEntranceAnimation] on a page without the particle
    host, evaluated; the lookups are given by the hypotheses. *)
Ltac enter Hl Hc Hti Hg Hs Ho Hp :=
  unfold runEntranceAnimation, bind, gets; cbn -[animate];
  rewrite Hl, Hc, Hti, Hg, Hs, Ho, Hp;
  unfold animate; cbn -[play_timeline]; flat;
  unfold bind at 1; rewrite when_present_write; flat;
  unfold play_timeline; rewrite entrance_children;
  change (total_duration _) with 4100;
  cbn; flat; reflexivity.

(** The run up to the full flash in [k] turns, then the slash, the
    burst, the shake and the glitch, whether or not the optional
    elements exist. *)
Tactic Notation "impact_run" integer(k) constr(n) constr(doc) :=
  rewrite (steps_add n 4);
  match goal with
  | |- context [steps n ?w1] =>
      let wf := fresh "wf" in
      let Hf := fresh "Hf" in
      evar (wf : World);
      assert (Hf : steps n w1 = wf) by
        (do k fire; rewrite steps_zero; unfold wf; reflexivity);
      unfold wf in Hf; clear wf; rewrite !Hf; clear Hf
  end;
  destruct (querySelector "slash-line" doc) as [?|];
    destruct (getElementById "burst-overlay" doc) as [?|];
    turns 4 4%nat;
    cbn [now trace timers map due callback skipn childEnd fires
         impact_effects impact_timers found app];
    rewrite <- !app_assoc; cbn [app];
    (split; [reflexivity|]); (split; [reflexivity|]); reflexivity.

(** The entrance up to the instant of the impact, on a page without the
    particle host. *)
Lemma impact_reached (w : World) (tag : string)
  (content title tagline comingSoon overlay : nat) :
  reducedMotion w = false ->
  timers w = [] ->
  stage (document w) content title tagline comingSoon overlay ->
  getElementById "particles" (document w) = None ->
  is_Some (nodes (document w) !! body (document w)) ->
  let slashLine := querySelector "slash-line" (document w) in
  let burstOverlay := getElementById "burst-overlay" (document w) in
  let b := body (document w) in
  exists w1 n,
    runEntranceAnimation (KProbe tag) w = Returned tt w1
    /\ (21 <= n <= 24)%nat
    /\ now (steps n w1) = now w + 1800
    /\ trace (steps n w1)
       = trace w
         ++ [ (now w + 1000, EvFlicker overlay);
              (now w + 1300, EvGlitch title 150);
              (now w + 1500, EvFlash overlay medium);
              (now w + 1600, EvGlitch title 100) ]
         ++ map (pair (now w + 1800))
              (impact_effects title overlay b slashLine burstOverlay)
    /\ map (fun x => (due x, callback x)) (timers (steps n w1))
       = map (fun c => (now w + childEnd c, fires c))
           (skipn 12
              (place_steps None
                 (entrance_steps title tagline comingSoon overlay
                    slashLine burstOverlay None)))
         ++ [(now w + 4100, TlComplete (KProbe tag))]
         ++ impact_timers (now w + 1800) title overlay b slashLine burstOverlay.
Proof.
  intros Hrm Ht (Hc & Hti & Hg & Hs & Ho) Hp Ib.
  destruct w as [doc rm t0 nid ts rnd rp con init cs ss ac tr].
  cbn in Hrm, Ht, Hc, Hti, Hg, Hs, Ho, Hp, Ib. subst rm ts.
  pose proof (document_body_present _ Ib) as Hbody.
  cbn [document now trace]. cbv zeta. rewrite entrance_children.
  destruct (getElementById "loading" doc) as [lo|] eqn:Hl;
    destruct (JSNumber.gt (rnd rp) (JSNumber.decimal 1 2)) eqn:Hdraw1.
  - eexists. exists (20 + 4)%nat.
    split; [enter Hl Hc Hti Hg Hs Ho Hp|]. split; [lia|].
    impact_run 20 20%nat doc.
  - eexists. exists (18 + 4)%nat.
    split; [enter Hl Hc Hti Hg Hs Ho Hp|]. split; [lia|].
    impact_run 18 18%nat doc.
  - eexists. exists (19 + 4)%nat.
    split; [enter Hl Hc Hti Hg Hs Ho Hp|]. split; [lia|].
    impact_run 19 19%nat doc.
  - eexists. exists (17 + 4)%nat.
    split; [enter Hl Hc Hti Hg Hs Ho Hp|]. split; [lia|].
    impact_run 17 17%nat doc.
Qed.

Lemma events_at_earlier (T : Z) (l : list (Z * Event)) :
  Forall (fun p => fst p < T) l -> events_at T l = [].
Proof.
  unfold events_at. induction 1 as [|p l Hp _ IH]; [reflexivity|].
  cbn. destruct (Z.eqb_spec (fst p) T); [lia | exact IH].
Qed.

Lemma Forall_due (T : Z) (l : list Timer) :
  Forall (fun p => T < fst p) (map (fun x => (due x, callback x)) l) ->
  Forall (fun x => T < due x) l.
Proof.
  induction l as [|x l IH]; intros H; [constructor|].
  inversion H; subst. constructor; [assumption | now apply IH].
Qed.




(* ===================================================================== *)
(** * The entrance from the call to the resolution *)
(* ===================================================================== *)

(** X16.  The entrance from the call to the resolution, on a page that
    has every element the entrance looks up but the particle host, all
    distinct, with motion allowed and nothing else pending.  The call
    awaits nothing, so the timeline starts with it.  Whatever the random
    draws and whatever the engine would answer, the promise resolves
    exactly 4100 ms after the call, after 43 to 47 turns of the event
    loop, in the state [entrance_done] describes: effects issued at 1000,
    1300, 1500, 1600, 1800 (six of them) and 2500 ms and none else; the
    loading indicator hidden; content, title, tagline and coming-soon
    marker shown, the last two marked "revealed" and the title glowing;
    the overlay dark and untinted; no transient class left; no container
    stored and nothing logged; the ambient session running with its
    cleanup stored; and only the late glitch, the session's timeout and
    the glitch interval pending. *)
Theorem X16_entrance_completes (w : World) (tag : string) (c : Cast) :
  reducedMotion w = false ->
  timers w = [] ->
  full_stage (document w) c ->
  exists w1 n,
    runEntranceAnimation (KProbe tag) w = Returned tt w1
    /\ (43 <= n <= 47)%nat
    /\ entrance_done w c tag (steps n w1).
Proof.
  intros Hrm Ht (Hl & Hc & Hti & Hg & Hs & Ho & Hso & Hsl & Hbo & Hp & Ib & Hnd).
  destruct w as [doc rm t0 nid ts rnd rp con init cs ss ac tr].
  destruct c as [l ct ti tg sn ov so sl bo].
  cbn in Hrm, Ht, Hl, Hc, Hti, Hg, Hs, Ho, Hso, Hsl, Hbo, Hp, Ib, Hnd.
  subst rm ts.
  pose proof (getElementById_in _ _ _ Hl) as Il.
  pose proof (getElementById_in _ _ _ Hc) as Ic.
  pose proof (querySelector_in _ _ _ Hti) as Iti.
  pose proof (querySelector_in _ _ _ Hg) as Ig.
  pose proof (querySelector_in _ _ _ Hs) as Is.
  pose proof (getElementById_in _ _ _ Ho) as Io.
  pose proof (getElementById_in _ _ _ Hso) as Iso.
  pose proof (querySelector_in _ _ _ Hsl) as Isl.
  pose proof (getElementById_in _ _ _ Hbo) as Ibo.
  pose proof (document_body_present _ Ib) as Hbody.
  eexists.
  exists (if JSNumber.gt (rnd rp) (JSNumber.decimal 1 2)
          then if JSNumber.gt (rnd (S rp)) (JSNumber.decimal 1 2) then 47 else 45
          else if JSNumber.gt (rnd (S rp)) (JSNumber.decimal 1 2) then 45 else 43)%nat.
  split.
  { unfold runEntranceAnimation, bind, gets. cbn -[animate].
    rewrite Hl, Hc, Hti, Hg, Hs, Ho, Hso, Hsl, Hbo, Hp.
    unfold animate. cbn -[play_timeline]. unfold play_timeline.
    rewrite entrance_children.
    change (total_duration _) with 4100.
    cbn. flat. reflexivity. }
  unfold entrance_done, ambient_delay.
  cbn [now trace sessions document random randomPos containers console
       atLoading atContent atTitle atTagline atComingSoon atOverlay atSlashOverlay
       atSlashLine atBurstOverlay].
  destruct (JSNumber.gt (rnd rp) (JSNumber.decimal 1 2)) eqn:Hdraw1,
    (JSNumber.gt (rnd (S rp)) (JSNumber.decimal 1 2)) eqn:Hdraw2.
  all: (split; [lia|]).
  - turns 47 47%nat;
    unfold session_running;
    cbn [now trace timers sessions document containers console ambientCleanup map
         due period callback];
    rewrite <- !app_assoc, lookup_snoc; cbn [app isRunning];
    (split; [reflexivity|]); (split; [reflexivity|]); (split; [reflexivity|]);
    (split; [reflexivity|]); (split; [eexists; reflexivity|]);
    (split; [reflexivity|]); (split; [reflexivity|]);
    rewrite !NoDup_cons, !not_elem_of_cons in Hnd;
    repeat match goal with H : _ /\ _ |- _ => destruct H end;
    (split; [shown Il|]); (split; [shown Ic|]); (split; [shown Iti|]);
    (split; [shown Ig|]); (split; [shown Is|]); (split; [shown Io|]);
    (split; [shown Iso|]); (split; [shown Isl|]); (split; [shown Ibo|]);
    shown Ib.
  - turns 45 45%nat;
    unfold session_running;
    cbn [now trace timers sessions document containers console ambientCleanup map
         due period callback];
    rewrite <- !app_assoc, lookup_snoc; cbn [app isRunning];
    (split; [reflexivity|]); (split; [reflexivity|]); (split; [reflexivity|]);
    (split; [reflexivity|]); (split; [eexists; reflexivity|]);
    (split; [reflexivity|]); (split; [reflexivity|]);
    rewrite !NoDup_cons, !not_elem_of_cons in Hnd;
    repeat match goal with H : _ /\ _ |- _ => destruct H end;
    (split; [shown Il|]); (split; [shown Ic|]); (split; [shown Iti|]);
    (split; [shown Ig|]); (split; [shown Is|]); (split; [shown Io|]);
    (split; [shown Iso|]); (split; [shown Isl|]); (split; [shown Ibo|]);
    shown Ib.
  - turns 45 45%nat;
    unfold session_running;
    cbn [now trace timers sessions document containers console ambientCleanup map
         due period callback];
    rewrite <- !app_assoc, lookup_snoc; cbn [app isRunning];
    (split; [reflexivity|]); (split; [reflexivity|]); (split; [reflexivity|]);
    (split; [reflexivity|]); (split; [eexists; reflexivity|]);
    (split; [reflexivity|]); (split; [reflexivity|]);
    rewrite !NoDup_cons, !not_elem_of_cons in Hnd;
    repeat match goal with H : _ /\ _ |- _ => destruct H end;
    (split; [shown Il|]); (split; [shown Ic|]); (split; [shown Iti|]);
    (split; [shown Ig|]); (split; [shown Is|]); (split; [shown Io|]);
    (split; [shown Iso|]); (split; [shown Isl|]); (split; [shown Ibo|]);
    shown Ib.
  - turns 43 43%nat;
    unfold session_running;
    cbn [now trace timers sessions document containers console ambientCleanup map
         due period callback];
    rewrite <- !app_assoc, lookup_snoc; cbn [app isRunning];
    (split; [reflexivity|]); (split; [reflexivity|]); (split; [reflexivity|]);
    (split; [reflexivity|]); (split; [eexists; reflexivity|]);
    (split; [reflexivity|]); (split; [reflexivity|]);
    rewrite !NoDup_cons, !not_elem_of_cons in Hnd;
    repeat match goal with H : _ /\ _ |- _ => destruct H end;
    (split; [shown Il|]); (split; [shown Ic|]); (split; [shown Iti|]);
    (split; [shown Ig|]); (split; [shown Is|]); (split; [shown Io|]);
    (split; [shown Iso|]); (split; [shown Isl|]); (split; [shown Ibo|]);
    shown Ib.
Qed.


Lemma X16_entrance_completes_witness :
  exists w1 n,
    runEntranceAnimation (KProbe "entrance") unhosted = Returned tt w1
    /\ now (steps n w1) = 4100
    /\ resolved_at "entrance" (trace (steps n w1)) = Some 4100
    /\ containers (steps n w1) = []
    /\ element_has (fun e => display e = "none" /\ opacity e = "0") 1
         (document (steps n w1))
    /\ element_has (fun e => opacity e = "1" /\ gsapY e = "0"
                             /\ has_class "revealed" e = true) 4
         (document (steps n w1)).
Proof.
  destruct (X16_entrance_completes unhosted "entrance" page_cast)
    as (w1 & n & Hrun & _ & Hdone);
    [ reflexivity | reflexivity | |].
  { repeat split; try (now eexists).
    apply (bool_decide_unpack _). vm_compute. exact I. }
  destruct Hdone as (Hnow & Htr & _ & _ & _ & Hcs & _ & Hloading & _ & _ & Htagline & _).
  exists w1, n. split; [exact Hrun|]. split; [exact Hnow|].
  split; [rewrite Htr; reflexivity|]. split; [exact Hcs|].
  split; [exact Hloading | exact Htagline].
Defined.

(** X17.  The entrance on a page with the required elements only.
    Without loading indicator, slash overlay, slash line, burst overlay
    and particle host, with motion allowed and nothing else pending, the
    promise still resolves exactly 4100 ms after the call, whatever the
    random draws and whatever the engine would answer (39 to 43 turns of
    the event loop): the slash and the burst are skipped, so the effects
    issued are the flickers, the flashes, the shake and the glitches; the
    engine is not asked, nothing is logged and no container is touched;
    the content and the text elements end as on the full page, the
    overlay dark and untinted, and the ambient session running. *)
Theorem X17_entrance_completes_bare (w : World) (tag : string)
  (content title tagline comingSoon overlay : nat) :
  reducedMotion w = false ->
  timers w = [] ->
  bare_stage (document w) content title tagline comingSoon overlay ->
  exists w1 n,
    runEntranceAnimation (KProbe tag) w = Returned tt w1
    /\ (39 <= n <= 43)%nat
    /\ entrance_done_bare w content title tagline comingSoon overlay tag (steps n w1).
Proof.
  intros Hrm Ht ((Hc & Hti & Hg & Hs & Ho) & Hl & Hso & Hsl & Hbo & Hp & Ib & Hnd).
  destruct w as [doc rm t0 nid ts rnd rp con init cs ss ac tr].
  cbn in Hrm, Ht, Hl, Hc, Hti, Hg, Hs, Ho, Hso, Hsl, Hbo, Hp, Ib, Hnd.
  subst rm ts.
  pose proof (getElementById_in _ _ _ Hc) as Ic.
  pose proof (querySelector_in _ _ _ Hti) as Iti.
  pose proof (querySelector_in _ _ _ Hg) as Ig.
  pose proof (querySelector_in _ _ _ Hs) as Is.
  pose proof (getElementById_in _ _ _ Ho) as Io.
  pose proof (document_body_present _ Ib) as Hbody.
  eexists.
  exists (if JSNumber.gt (rnd rp) (JSNumber.decimal 1 2)
          then if JSNumber.gt (rnd (S rp)) (JSNumber.decimal 1 2) then 43 else 41
          else if JSNumber.gt (rnd (S rp)) (JSNumber.decimal 1 2) then 41 else 39)%nat.
  split.
  { unfold runEntranceAnimation, bind, gets. cbn -[animate].
    rewrite Hl, Hc, Hti, Hg, Hs, Ho, Hso, Hsl, Hbo, Hp.
    unfold animate. cbn -[play_timeline]. unfold play_timeline.
    rewrite entrance_children.
    change (total_duration _) with 4100.
    cbn. flat. reflexivity. }
  unfold entrance_done_bare, ambient_delay.
  cbn [now trace sessions document random randomPos containers console].
  destruct (JSNumber.gt (rnd rp) (JSNumber.decimal 1 2)) eqn:Hdraw1,
    (JSNumber.gt (rnd (S rp)) (JSNumber.decimal 1 2)) eqn:Hdraw2.
  all: (split; [lia|]).
  - turns 43 43%nat;
    unfold session_running;
    cbn [now trace timers sessions document containers console ambientCleanup map
         due period callback];
    rewrite <- !app_assoc, lookup_snoc; cbn [app isRunning];
    (split; [reflexivity|]); (split; [reflexivity|]); (split; [reflexivity|]);
    (split; [reflexivity|]); (split; [eexists; reflexivity|]);
    (split; [reflexivity|]); (split; [reflexivity|]);
    rewrite !NoDup_cons, !not_elem_of_cons in Hnd;
    repeat match goal with H : _ /\ _ |- _ => destruct H end;
    (split; [shown Ic|]); (split; [shown Iti|]);
    (split; [shown Ig|]); (split; [shown Is|]); (split; [shown Io|]);
    (split; [shown Ib|]);
    rewrite !length_update_element; reflexivity.
  - turns 41 41%nat;
    unfold session_running;
    cbn [now trace timers sessions document containers console ambientCleanup map
         due period callback];
    rewrite <- !app_assoc, lookup_snoc; cbn [app isRunning];
    (split; [reflexivity|]); (split; [reflexivity|]); (split; [reflexivity|]);
    (split; [reflexivity|]); (split; [eexists; reflexivity|]);
    (split; [reflexivity|]); (split; [reflexivity|]);
    rewrite !NoDup_cons, !not_elem_of_cons in Hnd;
    repeat match goal with H : _ /\ _ |- _ => destruct H end;
    (split; [shown Ic|]); (split; [shown Iti|]);
    (split; [shown Ig|]); (split; [shown Is|]); (split; [shown Io|]);
    (split; [shown Ib|]);
    rewrite !length_update_element; reflexivity.
  - turns 41 41%nat;
    unfold session_running;
    cbn [now trace timers sessions document containers console ambientCleanup map
         due period callback];
    rewrite <- !app_assoc, lookup_snoc; cbn [app isRunning];
    (split; [reflexivity|]); (split; [reflexivity|]); (split; [reflexivity|]);
    (split; [reflexivity|]); (split; [eexists; reflexivity|]);
    (split; [reflexivity|]); (split; [reflexivity|]);
    rewrite !NoDup_cons, !not_elem_of_cons in Hnd;
    repeat match goal with H : _ /\ _ |- _ => destruct H end;
    (split; [shown Ic|]); (split; [shown Iti|]);
    (split; [shown Ig|]); (split; [shown Is|]); (split; [shown Io|]);
    (split; [shown Ib|]);
    rewrite !length_update_element; reflexivity.
  - turns 39 39%nat;
    unfold session_running;
    cbn [now trace timers sessions document containers console ambientCleanup map
         due period callback];
    rewrite <- !app_assoc, lookup_snoc; cbn [app isRunning];
    (split; [reflexivity|]); (split; [reflexivity|]); (split; [reflexivity|]);
    (split; [reflexivity|]); (split; [eexists; reflexivity|]);
    (split; [reflexivity|]); (split; [reflexivity|]);
    rewrite !NoDup_cons, !not_elem_of_cons in Hnd;
    repeat match goal with H : _ /\ _ |- _ => destruct H end;
    (split; [shown Ic|]); (split; [shown Iti|]);
    (split; [shown Ig|]); (split; [shown Is|]); (split; [shown Io|]);
    (split; [shown Ib|]);
    rewrite !length_update_element; reflexivity.
Qed.

Lemma X17_entrance_completes_bare_witness :
  exists w1 n,
    runEntranceAnimation (KProbe "entrance") bare = Returned tt w1
    /\ now (steps n w1) = 4100
    /\ resolved_at "entrance" (trace (steps n w1)) = Some 4100
    /\ console (steps n w1) = []
    /\ element_has (fun e => opacity e = "1" /\ gsapScale e = "1"
                             /\ has_class "revealed" e = true) 4
         (document (steps n w1)).
Proof.
  destruct (X17_entrance_completes_bare bare "entrance" 1 2 3 4 5)
    as (w1 & n & Hrun & _ & Hdone); [reflexivity | reflexivity | |].
  { repeat split; try (now eexists).
    apply (bool_decide_unpack _). vm_compute. exact I. }
  destruct Hdone as (Hnow & Htr & _ & _ & _ & _ & Hcon & _ & _ & _ & Hcs & _).
  exists w1, n. split; [exact Hrun|]. split; [exact Hnow|].
  split; [rewrite Htr; reflexivity|]. split; [exact Hcon | exact Hcs].
Defined.
